(** * Lunaboxd: session gateway, pagination and rating aggregation

    A shallow embedding of the parts of the Lunaboxd sources that carry
    the behaviour described by the specification:

    - [letterboxd.py]: star-rating conversions, [rating_grader];
    - [util.py]: [key_max], [file_updated_after], [guess_number],
      [truncate_string];
    - [film.py]: the rating histograms and aggregates of a film, the
      rating action;
    - [session.py]: response classification, the overloaded [request],
      the session cache ([save] / [load]), the filmFilter cookie;
    - [find.py]: the search paginator [_get_results];
    - [member.py]: the relationship paginator [_get_people];
    - [tags.py]: [get_tags].

    Conventions.  Python [int] is [Z].  A Python [dict] is a [gmap].  A
    Python [float] is an exact rational ([Q]): every float the modelled
    code computes on the inputs considered here (halves, ninths times
    counts) is taken at its mathematical value, binary64 rounding is not
    modelled.  A call that may raise returns a [result]. *)

From Stdlib Require Import ZArith QArith Lqa List String Ascii Lia.
From stdpp Require Import base option list gmap strings fin_maps.

Open Scope Z_scope.

(* ===================================================================== *)
(** * Python values, exceptions and results                              *)
(* ===================================================================== *)

Module Py.

(** The exception classes the modelled code raises or catches;
    [CookieConflictError] is the one the cookie jar of [requests]
    raises. *)
Inductive exn : Type :=
| AttributeError
| AssertionError
| KeyError
| ValueError
| UnboundLocalError
| FileNotFoundError
| UnpicklingError
| ConnectionError
| HTTPError
| LetterboxdError
| PageNotFound
| PageForbiddenError
| CookieConflictError.

Inductive result (A : Type) : Type :=
| Ok (a : A)
| Raise (e : exn).

Arguments Ok {A} a.
Arguments Raise {A} e.

Definition bind {A B} (r : result A) (k : A -> result B) : result B :=
  match r with
  | Ok a => k a
  | Raise e => Raise e
  end.

(** [except PageNotFound] and friends: is [e] an instance of class [c]?
    [PageNotFound] and [PageForbiddenError] derive from
    [LetterboxdError] (exceptions.py). *)
Definition isinstance (e c : exn) : bool :=
  match c, e with
  | LetterboxdError, (LetterboxdError | PageNotFound | PageForbiddenError) => true
  | AttributeError, AttributeError => true
  | AssertionError, AssertionError => true
  | KeyError, KeyError => true
  | ValueError, ValueError => true
  | UnboundLocalError, UnboundLocalError => true
  | FileNotFoundError, FileNotFoundError => true
  | UnpicklingError, UnpicklingError => true
  | ConnectionError, ConnectionError => true
  | HTTPError, HTTPError => true
  | PageNotFound, PageNotFound => true
  | PageForbiddenError, PageForbiddenError => true
  | CookieConflictError, CookieConflictError => true
  | _, _ => false
  end.

(** [range(lo, hi)] *)
Definition range (lo hi : Z) : list Z :=
  map (fun i => lo + Z.of_nat i) (seq 0 (Z.to_nat (hi - lo))).

(** [sum(xs)] over integers and over floats *)
Definition sum (xs : list Z) : Z := fold_right Z.add 0 xs.
Definition fsum (xs : list Q) : Q := fold_right Qplus (0 # 1)%Q xs.

(** [int(x)] of a float: truncation toward zero *)
Definition int_of_float (x : Q) : Z := Z.quot (Qnum x) (Zpos (Qden x)).

(** [x in range(lo, hi)] for a float [x]: equality with one of the
    integers of the range *)
Definition float_in_range (x : Q) (lo hi : Z) : bool :=
  existsb (fun n => Qeq_bool x (inject_Z n)) (range lo hi).

(** A Python [str] as its sequence of code points. *)
Definition str : Type := list N.

Definition str_eqb (a b : str) : bool := bool_decide (a = b).

(** [s * n] *)
Definition str_mul (s : str) (n : Z) : str := concat (repeat s (Z.to_nat n)).

Fixpoint str_startswith (s pre : str) {struct pre} : bool :=
  match pre with
  | [] => true
  | p :: pre' =>
      match s with
      | c :: s' => (p =? c)%N && str_startswith s' pre'
      | [] => false
      end
  end.

(** [s.count(sub)] for a non-empty [sub]: occurrences that do not
    overlap, scanned from the left; [skip] is the number of characters
    still covered by the occurrence just counted. *)
Fixpoint str_count_from (sub s : str) (skip : nat) : Z :=
  match s with
  | [] => 0
  | _ :: s' =>
      match skip with
      | S k => str_count_from sub s' k
      | O => if str_startswith s sub
             then 1 + str_count_from sub s' (length sub - 1)
             else str_count_from sub s' 0
      end
  end.

Definition str_count (s sub : str) : Z := str_count_from sub s 0.

(** [c.isspace()]: the code points Python strips by default *)
Definition isspace (c : N) : bool :=
  ((9 <=? c) && (c <=? 13) || (28 <=? c) && (c <=? 32)
   || (c =? 133) || (c =? 160) || (c =? 5760)
   || (8192 <=? c) && (c <=? 8202)
   || (c =? 8232) || (c =? 8233) || (c =? 8239) || (c =? 8287)
   || (c =? 12288))%N.

Fixpoint lstrip (s : str) : str :=
  match s with
  | c :: s' => if isspace c then lstrip s' else s
  | [] => []
  end.

(** [s.strip()] *)
Definition strip (s : str) : str := rev (lstrip (rev (lstrip s))).

End Py.

Import Py.

#[global] Instance result_ret : MRet result := @Ok.
#[global] Instance result_bind : MBind result := fun A B k r => Py.bind r k.

(* ===================================================================== *)
(** * letterboxd.py: ratings                                             *)
(* ===================================================================== *)

Module Letterboxd.

(** RATING_STAR = U+2605, RATING_HALF = U+00BD, RATING_HALF_ONLY = [half-] followed by the star *)
Definition RATING_STAR : str := [9733%N].
Definition RATING_HALF : str := [189%N].
Definition RATING_HALF_ONLY : str := [104; 97; 108; 102; 45; 9733]%N.

(** [np.arange(0.5, 5.5, 0.5)] *)
Definition RATINGS_RANGE : list Q := map (fun k => (k # 2)%Q) (range 1 11).

Definition num_to_star_rating (num : Q) : result str :=
  if Qeq_bool num (1 # 2) then Ok RATING_HALF_ONLY
  else
    let num_int := int_of_float (num * (2 # 1)) in
    if negb (bool_decide (num_int ∈ range 1 11)) then Raise ValueError
    else
      let star := num_int / 2 in
      let half := num_int mod 2 in
      Ok (str_mul RATING_STAR star ++ str_mul RATING_HALF half).

Definition star_rating_to_num (star_rating : str) : result Q :=
  if str_eqb star_rating RATING_HALF_ONLY then Ok (1 # 2)%Q
  else
    let star_rating := strip star_rating in
    let invalid_chars :=
      filter (fun c => ¬ ([c] = RATING_STAR ∨ [c] = RATING_HALF)) star_rating in
    if negb (bool_decide (invalid_chars = [])) then Raise ValueError
    else
      let result :=
        (inject_Z (str_count star_rating RATING_STAR)
         + (1 # 2) * inject_Z (str_count star_rating RATING_HALF))%Q in
      if negb (float_in_range (result * (2 # 1)) 1 11) then Raise ValueError
      else Ok result.

(** [np.mean(RATINGS_RANGE)] *)
Definition RATING_MIDDLE : Q :=
  (fsum RATINGS_RANGE / inject_Z (Z.of_nat (length RATINGS_RANGE)))%Q.

Section Colours.

(** [dp_two]: the number with two decimals, [f"{x:.2f}"]. *)
Variable dp_two : Q -> string.

Definition GREY : string := "#808080".

(** The closure [number_to_colour] that [create_colour_func] returns.
    The number is [None] (Python's [None]) or a float; the answer is
    [None] when the loop ends without a band. *)
Definition create_colour_func (colour_map : list (Z * Z * string))
    (default_colour : string) (number : option Q) : option string :=
  match number with
  | None => Some ("[" +:+ default_colour +:+ "]None[/" +:+ default_colour +:+ "]")
  | Some x =>
      if Qeq_bool x 0
      then Some ("[" +:+ default_colour +:+ "]None[/" +:+ default_colour +:+ "]")
      else
        (fix bands (m : list (Z * Z * string)) : option string :=
           match m with
           | [] => None
           | (minimum, maximum, colour) :: m' =>
               if Qle_bool (inject_Z minimum) x && Qle_bool x (inject_Z maximum)
               then Some ("[" +:+ colour +:+ "]" +:+ dp_two x
                          +:+ "[/" +:+ colour +:+ "]")
               else bands m'
           end) colour_map
  end%string.

Definition _colour_ratings : list (Z * Z * string) :=
  [(0, 1, "brown"); (1, 2, "red"); (2, 3, "yellow"); (3, 4, "green");
   (4, 5, "pink")]%string.

Definition rating_grader : option Q -> option string :=
  create_colour_func _colour_ratings GREY.

End Colours.

End Letterboxd.

(* ===================================================================== *)
(** * util.py                                                            *)
(* ===================================================================== *)

Module Util.

(** Tuples [(value, key)] compare lexicographically. *)
Definition tuple_lt (a b : Z * Z) : bool :=
  (a.1 <? b.1) || ((a.1 =? b.1) && (a.2 <? b.2)).

(** [max(zip(d.values(), d.keys()))]: the greatest [(value, key)] tuple,
    [None] standing for the [ValueError] of an empty sequence.  [max]
    keeps the first of several equal items; the keys of a dict being
    distinct, no two tuples are equal. *)
Definition max_step (best : option (Z * Z)) (kv : Z * Z) : option (Z * Z) :=
  match best with
  | None => Some (kv.2, kv.1)
  | Some b => if tuple_lt b (kv.2, kv.1) then Some (kv.2, kv.1) else Some b
  end.

Definition max_zip (d : gmap Z Z) : option (Z * Z) :=
  fold_left max_step (map_to_list d) None.

(** What [key_max] returns: a key, or a tuple of keys. *)
Inductive key_max_result : Type :=
| Key (k : Z)
| Keys (ks : list Z).

(** The [while n <= max_num] loop, [todo] iterations left; [m] is the
    local variable [m], unbound ([None]) before the first iteration. *)
Fixpoint key_max_loop (todo : nat) (d : gmap Z Z) (max_keys : list Z)
    (m : option Z) : result (list Z * option Z) :=
  match todo with
  | O => Ok (max_keys, m)
  | S todo' =>
      match max_zip d with
      | None => Raise ValueError
      | Some (_, k) => key_max_loop todo' (delete k d) (max_keys ++ [k]) (Some k)
      end
  end.

Definition key_max (d : gmap Z Z) (max_num : Z) (multiple_maxes : bool)
    : result key_max_result :=
  if Z.of_nat (size d) <? max_num then Raise AssertionError
  else if max_num =? 1 then
    match max_zip d with
    | None => Raise ValueError
    | Some (_, m) =>
        (* [max_keys] is only bound in the other branch *)
        if multiple_maxes then Raise UnboundLocalError else Ok (Key m)
    end
  else
    '(max_keys, m) ← key_max_loop (Z.to_nat max_num) d [] None;
    if multiple_maxes then Ok (Keys max_keys)
    else match m with
         | Some k => Ok (Key k)
         | None => Raise UnboundLocalError
         end.

(** [file_updated_after(file_path, datetime)], on the modification time
    of the file ([None]: no such file). *)
Definition file_updated_after (mtime : option Z) (datetime : Z) : bool :=
  match mtime with
  | None => false
  | Some t => datetime <? t
  end.

(** What [check_guess] answers: one of the three strings that
    [guess_number] matches, or anything else. *)
Inductive guess : Type := Correct | Low | High | Other.

(** The [while low <= high] loop of [guess_number]; [Some None] is the
    end of the loop without a correct guess (the function then returns
    [None]), [None] is fuel run out. *)
Fixpoint guess_number_loop (fuel : nat) (check_guess : Z -> guess)
    (low high : Z) : option (option Z) :=
  match fuel with
  | O => None
  | S fuel' =>
      if low <=? high then
        let mid := (low + high) / 2 in
        match check_guess mid with
        | Correct => Some (Some mid)
        | Low => guess_number_loop fuel' check_guess (mid + 1) high
        | High => guess_number_loop fuel' check_guess low (mid - 1)
        | Other => guess_number_loop fuel' check_guess low high
        end
      else Some None
  end.

Definition guess_number (fuel : nat) (check_guess : Z -> guess)
    (max_num min_num : Z) : option (result (option Z)) :=
  if max_num <=? min_num then Some (Raise ValueError)
  else
    match guess_number_loop fuel check_guess min_num max_num with
    | Some r => Some (Ok r)
    | None => None
    end.

(** [array[:n]] *)
Definition slice_to {A} (array : list A) (n : Z) : list A :=
  if n <? 0 then take (Z.to_nat (Z.of_nat (length array) + n)) array
  else take (Z.to_nat n) array.

(** [s.rfind(c)] for a one-character [c]: the index of its last
    occurrence, [-1] without one.  [i] is the index of the head of [s],
    [best] the answer so far. *)
Fixpoint rfind_from (s : str) (c : N) (i best : Z) : Z :=
  match s with
  | [] => best
  | x :: s' => rfind_from s' c (i + 1) (if (x =? c)%N then i else best)
  end.

Definition rfind (s : str) (c : N) : Z := rfind_from s c 0 (-1).

(** [max_length] is an [int] here, the [isinstance] test holds. *)
Definition truncate_string (string : str) (max_length : Z) : result str :=
  if max_length <=? 0 then Raise ValueError
  else if Z.of_nat (length string) <=? max_length then Ok string
  else
    let truncated_string := slice_to string max_length in
    let last_space := rfind truncated_string 32%N in
    let truncated_string :=
      if negb (last_space =? -1) then slice_to truncated_string last_space
      else truncated_string in
    Ok (truncated_string ++ [46; 46; 46]%N).

End Util.

(* ===================================================================== *)
(** * film.py: rating aggregates                                         *)
(* ===================================================================== *)

Module Film.

(** [d[n]] *)
Definition getitem (d : gmap Z Z) (n : Z) : result Z :=
  match d !! n with
  | Some v => Ok v
  | None => Raise KeyError
  end.

(** [sum(self.ratings.values())] *)
Definition ratings_number_of (ratings : gmap Z Z) : Z :=
  Py.sum ((map_to_list ratings).*2).

Definition _ratings_total_score (ratings : gmap Z Z) : Z :=
  if ratings_number_of ratings =? 0 then 0
  else Py.sum ((fun sq : Z * Z => sq.1 * sq.2) <$> map_to_list ratings).

(** [None] is Python's [None]: there is no true average. *)
Definition rating_true (ratings : gmap Z Z) : option Q :=
  let rat_num := ratings_number_of ratings in
  if rat_num =? 0 then None
  else Some ((inject_Z (_ratings_total_score ratings) / inject_Z rat_num) * (1 # 2))%Q.

Definition sorted2 (a b : Z) : list Z := if b <? a then [b; a] else [a; b].

Definition rating_ironic (ratings : gmap Z Z) : result bool :=
  let minimum_number_of_ratings := 3 in
  k1 ← Util.key_max ratings 1 false;
  k2 ← Util.key_max ratings 2 false;
  let modes_are_extremes :=
    match k1, k2 with
    | Util.Key a, Util.Key b => bool_decide (sorted2 a b = [1; 10])
    | _, _ => false
    end in
  r1 ← getitem ratings 1;
  r10 ← getitem ratings 10;
  (* all((...)) over the tuple just built *)
  Ok (modes_are_extremes
      && (minimum_number_of_ratings <=? r1)
      && (minimum_number_of_ratings <=? r10)).

Section Bayesian.

(** [scipy.stats.beta.ppf(q, a, b)], a function of the SciPy library. *)
Variable beta_ppf : Q -> Q -> Q -> Q.

(** [[f(n) for n in range(1, 11)]] where [f] may raise *)
Fixpoint comprehension (f : Z -> result Q) (ns : list Z) : result (list Q) :=
  match ns with
  | [] => Ok []
  | n :: ns' => x ← f n; xs ← comprehension f ns'; Ok (x :: xs)
  end.

Definition _get_bayesian_average (d : gmap Z Z) (no_rating_fallback : option Q)
    (a0 : Q) : result (option Q) :=
  if bool_decide (d = ∅) || negb (existsb (fun v => negb (v =? 0)) ((map_to_list d).*2))
  then Ok no_rating_fallback
  else
    ups ← comprehension
            (fun n => v ← getitem d n; Ok (inject_Z v * (inject_Z (n - 1) / 9))%Q)
            (range 1 11);
    downs ← comprehension
            (fun n => v ← getitem d n; Ok (inject_Z v * ((9 - inject_Z (n - 1)) / 9))%Q)
            (range 1 11);
    let up := fsum ups in
    let down := fsum downs in
    Ok (Some (beta_ppf (5 # 100) (up + a0) (down + a0) * (45 # 10) + (1 # 2))%Q).

End Bayesian.

Section Page.

Variable beta_ppf : Q -> Q -> Q -> Q.

(** The rating histogram of the film page: for a star string, what
    [int] makes of the first word of the title of the link [soup.find]
    finds for it, commas removed; [None] without such a link. *)
Variable rating_link_count : str -> option (result Z).

(** [get_rating(i)] inside [ratings] *)
Definition get_rating (i : Q) : result Z :=
  star_rating ← (if Qeq_bool i (1 # 2) then Ok Letterboxd.RATING_HALF_ONLY
                 else Letterboxd.num_to_star_rating i);
  match rating_link_count star_rating with
  | None => Ok 0
  | Some n => n
  end.

(** [{int(k*2): get_rating(k) for k in ks}] *)
Fixpoint ratings_comprehension (ks : list Q) (ratings_dict : gmap Z Z)
    : result (gmap Z Z) :=
  match ks with
  | [] => Ok ratings_dict
  | k :: ks' =>
      v ← get_rating k;
      ratings_comprehension ks' (<[int_of_float (k * (2 # 1)) := v]> ratings_dict)
  end.

Definition ratings : result (gmap Z Z) :=
  ratings_comprehension Letterboxd.RATINGS_RANGE ∅.

Definition rating_bayesian : result (option Q) :=
  r ← ratings;
  _get_bayesian_average beta_ppf r (Some Letterboxd.RATING_MIDDLE) 9.

(** [[letterboxd.star_rating_to_num(i) for i in results]] *)
Fixpoint friends_comprehension (results : list str) : result (list Q) :=
  match results with
  | [] => Ok []
  | i :: results' =>
      x ← Letterboxd.star_rating_to_num i;
      xs ← friends_comprehension results';
      Ok (x :: xs)
  end.

(** [friends_ratings.count(x)] *)
Definition count_float (friends_ratings : list Q) (x : Q) : Z :=
  Z.of_nat (length (filter (fun y => Qeq_bool y x = true) friends_ratings)).

(** [ratings_friends], from the texts of the rating spans. *)
Definition ratings_friends (results : list str) : result (gmap Z Z) :=
  friends_ratings ← friends_comprehension results;
  Ok (list_to_map
        ((fun i => (i, count_float friends_ratings (i # 2))) <$> range 1 11)).

End Page.

End Film.

(* ===================================================================== *)
(** * find.py and member.py: the two page walks                          *)
(* ===================================================================== *)

(** Both walks issue their requests through [session.request]; here a
    request for page [n] of the listing is answered by [request_page n],
    and the state threaded through a walk is the list of page numbers
    requested so far, oldest first.  A walk is a [while True] loop: the
    model runs it on [fuel] and answers [None] when the fuel ran out
    before the loop was left. *)

Definition Walk (A : Type) : Type := list Z -> option (result A * list Z).

Module Find.

Definition RESULTS_PER_PAGE : Z := 20.

(** [math.ceil(limit / RESULTS_PER_PAGE)], at its exact value (the float
    quotient of the source has the same ceiling for every limit below
    2^48). *)
Definition ceil_div (a b : Z) : Z := - ((- a) / b).

(** [if limit]: [None] and [0] are both false *)
Definition truth (limit : option Z) : bool :=
  match limit with
  | Some n => negb (n =? 0)
  | None => false
  end.

(** [results[:limit]] *)
Definition slice_to {A} (results : list A) (limit : Z) : list A :=
  if limit <? 0 then take (Z.to_nat (Z.of_nat (length results) + limit)) results
  else take (Z.to_nat limit) results.

Section Search.

(** One search result (a dict of strings in the source). *)
Variable Item : Type.

(** A page of search results as [_get_results] reads it: what
    [get_page_func] extracts from it and what [letterboxd.get_last_page]
    finds in its pagination control. *)
Record Page : Type := {
  results_on_page : list Item;
  get_last_page : Z
}.

Variable request_page : Z -> result Page.

(** [None]: no results ([PageNotFound] was caught). *)
Definition _get_soup (log : list Z) : result (option Page) * list Z :=
  match request_page 1 with
  | Ok response => (Ok (Some response), log ++ [1])
  | Raise e =>
      if isinstance e PageNotFound then (Ok None, log ++ [1])
      else (Raise e, log ++ [1])
  end.

(** The [while True] loop of [_get_results]. *)
Fixpoint _get_results_loop (fuel : nat) (response : Page)
    (page_current page_stop : Z) (results : list Item) : Walk (list Item) :=
  fun log =>
  match fuel with
  | O => None
  | S fuel' =>
      let results := results ++ results_on_page response in
      if page_current =? page_stop then Some (Ok results, log)
      else
        let page_current := page_current + 1 in
        match request_page page_current with
        | Ok response' =>
            _get_results_loop fuel' response' page_current page_stop results
              (log ++ [page_current])
        | Raise e => Some (Raise e, log ++ [page_current])
        end
  end.

Definition _get_results (fuel : nat) (limit : option Z) : Walk (list Item) :=
  fun log =>
  match _get_soup log with
  | (Raise e, log) => Some (Raise e, log)
  | (Ok None, log) => Some (Ok [], log)
  | (Ok (Some response), log) =>
      let page_stop :=
        if truth limit
        then Z.min (get_last_page response)
                   (ceil_div (default 0 limit) RESULTS_PER_PAGE)
        else get_last_page response in
      match _get_results_loop fuel response 1 page_stop [] log with
      | Some (Ok results, log) =>
          Some (Ok (if truth limit then slice_to results (default 0 limit)
                    else results), log)
      | other => other
      end
  end.

End Search.

Arguments results_on_page {Item} _.
Arguments get_last_page {Item} _.

End Find.

Module Member.

Section People.

(** A username. *)
Variable Person : Type.

(** A page of a followers / following listing: the people on it and
    whether it shows the link to the next page. *)
Record Page : Type := {
  people : list Person;
  has_next : bool
}.

Variable request_page : Z -> result Page.

(** [_get_people]: the loop starts with [results = []] and
    [page_num = 1]. *)
Fixpoint _get_people_loop (fuel : nat) (page_num : Z) (results : list Person)
    : Walk (list Person) :=
  fun log =>
  match fuel with
  | O => None
  | S fuel' =>
      match request_page page_num with
      | Raise e => Some (Raise e, log ++ [page_num])
      | Ok soup =>
          let results := results ++ people soup in
          if negb (has_next soup) then Some (Ok results, log ++ [page_num])
          else _get_people_loop fuel' (page_num + 1) results (log ++ [page_num])
      end
  end.

Definition _get_people (fuel : nat) : Walk (list Person) :=
  _get_people_loop fuel 1 [].

End People.

Arguments people {Person} _.
Arguments has_next {Person} _.

End Member.

(* ===================================================================== *)
(** * session.py                                                         *)
(* ===================================================================== *)

Module Session.

Open Scope string_scope.

(** ** Text helpers *)

(** [s.startswith(pre)] *)
Fixpoint startswith (s pre : string) {struct pre} : bool :=
  match pre with
  | EmptyString => true
  | String p pre' =>
      match s with
      | String c s' => bool_decide (p = c) && startswith s' pre'
      | EmptyString => false
      end
  end.

(** [s.replace(old, new)] for a non-empty [old]; [skip] counts the
    characters of the occurrence being replaced that are still to be
    dropped. *)
Fixpoint replace_from (old new s : string) (skip : nat) : string :=
  match s with
  | EmptyString => EmptyString
  | String c s' =>
      match skip with
      | S k => replace_from old new s' k
      | O => if startswith s old
             then new +:+ replace_from old new s' (String.length old - 1)
             else String c (replace_from old new s' 0)
      end
  end.

Definition replace (s old new : string) : string := replace_from old new s 0.

Definition lower_ascii (c : ascii) : ascii :=
  let n := N_of_ascii c in
  if ((65 <=? n) && (n <=? 90))%N then ascii_of_N (n + 32) else c.

(** [s.lower()] on the ASCII letters *)
Fixpoint lower (s : string) : string :=
  match s with
  | EmptyString => EmptyString
  | String c s' => String (lower_ascii c) (lower s')
  end.

(** ** Values of the site's payload and of request data *)

Inductive value : Type :=
| VNone
| VBool (b : bool)
| VInt (n : Z)
| VStr (s : string)
| VList (l : list string).

#[global] Instance value_eq_dec : EqDecision value.
Proof. solve_decision. Defined.

(** Truth value of a Python object *)
Definition truth (v : value) : bool :=
  match v with
  | VNone => false
  | VBool b => b
  | VInt n => negb (n =? 0)%Z
  | VStr s => negb (bool_decide (s = EmptyString))
  | VList l => negb (bool_decide (l = []))
  end.

(** ** Responses *)

(** A [requests.Response] as this module reads it.  Parsing is done by
    the [json] module and by BeautifulSoup; the record holds what they
    find in the body. *)
Record Response : Type := {
  status_code : Z;
  url : string;
  (** [json.loads(text)] when the body is a JSON object; [None] when
      decoding it, or updating a dict with it, raises *)
  json_object : option (gmap string value);
  (** whether [soup.find('body', class_='error')] finds a tag *)
  body_error : bool;
  (** whether the lower-cased text of the script tags matches the
      logged-in pattern built for the given lower-cased username *)
  loggedin_script : string -> bool
}.

(** [requests.Response.raise_for_status] and [.ok] *)
Definition raise_for_status (response : Response) : result unit :=
  if ((400 <=? status_code response) && (status_code response <? 600))%Z
  then Raise HTTPError else Ok tt.

Definition response_ok (response : Response) : bool :=
  match raise_for_status response with
  | Ok _ => true
  | Raise _ => false
  end.

(** ** LetterboxdResponseDict *)

Module LetterboxdResponseDict.

Record t : Type := {
  response : Response;
  items : gmap string value
}.

(** [successful_result = (True, 'success')]; membership compares with
    [==], under which the integer 1 equals [True]. *)
Definition in_successful_result (v : value) : bool :=
  match v with
  | VBool true => true
  | VInt 1 => true
  | VStr s => bool_decide (s = "success")
  | _ => false
  end.

(** [self.get(key)] *)
Definition get (d : gmap string value) (key : string) : value :=
  default VNone (d !! key).

Definition result_ (self : t) : value := get (items self) "result".
Definition error (self : t) : value := get (items self) "error".

(** [any(self.values())] *)
Definition has_response_dict (self : t) : bool :=
  existsb truth ((map_to_list (items self)).*2).

Definition ok (self : t) : bool :=
  if negb (response_ok (response self)) then false
  else if negb (bool_decide (result_ self = VNone))
          && negb (in_successful_result (result_ self)) then false
  else negb (truth (error self)).

Definition raise_errors (self : t) : result unit :=
  if ok self then Ok tt
  else if has_response_dict self then
    match error self with
    | VStr "not_found" => Raise PageNotFound
    | VStr "forbidden" => Raise PageForbiddenError
    | _ => Raise LetterboxdError
    end
  else raise_for_status (response self).

(** The scan of the script tags reads [self.soup], an attribute this
    class never sets: once the error body is found the method raises
    [AttributeError]. *)
Definition _get_letterboxd_errors (response : Response) : result value :=
  if negb (body_error response) then Ok VNone
  else Raise AttributeError.

Definition get_letterboxd_response_dict (response : Response)
    : result (gmap string value) :=
  (* try: update(json.loads(text)); assert ... except: pass *)
  let letterboxd_response_dict := default ∅ (json_object response) in
  err ← _get_letterboxd_errors response;
  Ok (<["error" := err]> letterboxd_response_dict).

(** [LetterboxdResponseDict(response)] *)
Definition __init__ (response : Response) : result t :=
  d ← get_letterboxd_response_dict response;
  let self := {| response := response; items := d |} in
  _ ← raise_errors self;
  Ok self.

End LetterboxdResponseDict.

(** ** The session and its surroundings *)

Record Credentials : Type := {
  username : string;
  password : string
}.

(** The attributes of a [LunaboxdSession] that the code reads (all of
    them are pickled).  [login_credentials] is [None] while the
    attribute is not set. *)
Record LunaboxdSession : Type := {
  login_credentials : option Credentials;
  cookies : gmap string string;
  headers : gmap string string
}.

(** The cache file: what [pickle.load] makes of its bytes ([None]: they
    do not unpickle) and its modification time. *)
Record CacheFile : Type := {
  content : option LunaboxdSession;
  mtime : Z
}.

(** A request as it reaches the site.  [data] holds the form fields of
    the body: for each name the values sent under it, a name without a
    field being absent; a value stands for the text [str] gives of
    it. *)
Record HttpRequest : Type := {
  method : string;
  req_url : string;
  data : gmap string (list value);
  req_cookies : gmap string string
}.

(** The fields [requests] makes of one item of the [data] dict when it
    encodes the body: one field for each item of a list, one for a
    scalar, none for [None]. *)
Definition field_values (v : value) : list value :=
  match v with
  | VNone => []
  | VList l => VStr <$> l
  | _ => [v]
  end.

Definition encode_params (data : gmap string value) : gmap string (list value) :=
  omap (fun v => match field_values v with
                 | [] => None
                 | vs => Some vs
                 end) data.

(** What the network answers: nothing (the connection failed), or a
    response together with the cookies it sets. *)
Inductive Reply : Type :=
| NoReply
| Replied (response : Response) (set_cookies : gmap string string).

Definition USER_AGENT : string :=
  "Mozilla/5.0 (Windows NT 10.0; Win64; x64) AppleWebKit/537.36 (KHTML, like Gecko) Chrome/91.0.4472.124 Safari/537.36 Edg/91.0.864.59".
Definition URL_MAIN : string := "https://letterboxd.com/".
Definition suburl_login : string := "user/login.do/".
Definition suburl_logout : string := "user/logout.do/".
Definition cookie_name_filmFilter : string := "filmFilter".
Definition cookie_name_csrf : string := "com.xk72.webparts.csrf".

(** ** The filmFilter cookie *)

(** [s.split(sep)] for a non-empty [sep]; [cur] is the piece being
    read, [skip] as in [replace_from]. *)
Fixpoint split_from (sep s : string) (skip : nat) (cur : string) : list string :=
  match s with
  | EmptyString => [cur]
  | String c s' =>
      match skip with
      | S k => split_from sep s' k cur
      | O => if startswith s sep
             then cur :: split_from sep s' (String.length sep - 1) EmptyString
             else split_from sep s' 0 (cur +:+ String c EmptyString)
      end
  end.

Definition split (s sep : string) : list string := split_from sep s 0 EmptyString.

(** [sep.join(items)] *)
Fixpoint join (sep : string) (items : list string) : string :=
  match items with
  | [] => EmptyString
  | [x] => x
  | x :: items' => x +:+ sep +:+ join sep items'
  end.

(** The cookie jar as [requests] keeps it: cookies by domain, path and
    name.  The gateway below reads the jar by name only (the field
    [cookies] of the session holds for each name the one cookie the
    site has set); the filmFilter methods write a cookie of their own
    beside those of the site, so that for them the jar [self.cookies]
    is kept in full. *)
Abbreviation CookieJar := (gmap (string * string * string) string).

(** The cookie [cookies.set(name, value)] writes: [create_cookie] gives
    it the empty domain and the path [/]. *)
Definition own_cookie (name : string) : string * string * string :=
  (EmptyString, "/", name).

(** The values of the cookies called [name]. *)
Definition values_of (jar : CookieJar) (name : string) : list string :=
  (map_to_list
     (filter (fun kv : string * string * string * string => kv.1.2 = name) jar)).*2.

(** [jar.get(name)]: two cookies of the name are a conflict; the value
    of the one cookie is returned when it is true in Python's sense. *)
Definition jar_get (jar : CookieJar) (name : string) : result (option string) :=
  match values_of jar name with
  | [] => Ok None
  | [v] => Ok (if bool_decide (v = EmptyString) then None else Some v)
  | _ => Raise CookieConflictError
  end.

Definition quote : ascii := "034"%char.
Definition backslash : ascii := "092"%char.

(** [s.endswith(c)] for one character *)
Fixpoint endswith_char (s : string) (c : ascii) : bool :=
  match s with
  | EmptyString => false
  | String a EmptyString => bool_decide (a = c)
  | String _ s' => endswith_char s' c
  end.

(** [set_cookie]: a value in double quotes loses its escaped quotes. *)
Definition unescape (value : string) : string :=
  if startswith value (String quote EmptyString) && endswith_char value quote
  then replace value (String backslash (String quote EmptyString)) EmptyString
  else value.

(** [jar.set(name, value)] for a string [value] *)
Definition jar_set (jar : CookieJar) (name value : string) : CookieJar :=
  <[own_cookie name := unescape value]> jar.

(** The getter of [filmFilter], on the jar [self.cookies]. *)
Definition filmFilter (jar : CookieJar) : result (gset string) :=
  filmFilters ← jar_get jar cookie_name_filmFilter;
  Ok (match filmFilters with
      | None => ∅
      | Some v => if bool_decide (v = EmptyString) then ∅
                  else list_to_set (split v "%20")
      end).

(** The setter of [filmFilter]; [filters] is the set in the order in
    which [join] iterates over it. *)
Definition filmFilter_set (filters : list string) (jar : CookieJar) : CookieJar :=
  jar_set jar cookie_name_filmFilter (join "%20" filters).


Section SetOrder.

(** The order in which a set is iterated. *)
Variable iteration : gset string -> list string.



End SetOrder.

Section Gateway.

(** The site: from its own state and a request, a reply, its next state
    and the seconds the exchange took. *)
Variable Server : Type.
Variable site : Server -> HttpRequest -> Reply * Server * N.

(** What the operator types when [Credentials()] prompts. *)
Variable operator : Credentials.

(** Everything outside the session object. *)
Record World : Type := {
  cache : option CacheFile;
  clock : Z;
  server : Server
}.

(** A method of the session runs on the object and the world, and
    leaves both behind whether it returns or raises. *)
Record State : Type := {
  self : LunaboxdSession;
  world : World
}.

Definition M (A : Type) : Type := State -> result A * State.

Definition ret {A} (a : A) : M A := fun st => (Ok a, st).
Definition raise {A} (e : exn) : M A := fun st => (Raise e, st).
Definition bind {A B} (m : M A) (k : A -> M B) : M B :=
  fun st =>
    match m st with
    | (Ok a, st') => k a st'
    | (Raise e, st') => (Raise e, st')
    end.
Definition lift {A} (r : result A) : M A := fun st => (r, st).

(** [self.username] *)
Definition get_username : M string :=
  fun st =>
    match login_credentials (self st) with
    | Some c => (Ok (username c), st)
    | None => (Raise AttributeError, st)
    end.

(** [save]: pickle the session to the cache file. *)
Definition save : M unit :=
  fun st =>
    (Ok tt,
     {| self := self st;
        world := {| cache := Some {| content := Some (self st);
                                     mtime := clock (world st) |};
                    clock := clock (world st);
                    server := server (world st) |} |}).

(** The decorator [save_session] *)
Definition save_session {A} (func : M A) : M A :=
  bind func (fun result => bind save (fun _ => ret result)).

(** [self.cookies.get(name)]: the jar returns the value of the cookie
    when it is true in Python's sense, that is, not the empty string;
    [None] otherwise. *)
Definition cookies_get (s : LunaboxdSession) (name : string) : option string :=
  match cookies s !! name with
  | Some v => if bool_decide (v = EmptyString) then None else Some v
  | None => None
  end.

Definition csrf_token (s : LunaboxdSession) : gmap string value :=
  {[ "__csrf" := match cookies_get s cookie_name_csrf with
                 | Some v => VStr v
                 | None => VNone
                 end ]}.

(** [self.csrf_token | data]: the items of [data] win. *)
Definition _make_data (s : LunaboxdSession) (data : gmap string value)
    : gmap string value :=
  if bool_decide (csrf_token s = ∅) then data
  else data ∪ csrf_token s.

(** [requests.Session.request]: encode the data, send, and merge the
    cookies set by the reply into the jar. *)
Definition super_request (method url : string) (data : gmap string value)
    : M Response :=
  fun st =>
    let req := {| method := method; req_url := url;
                  data := encode_params data;
                  req_cookies := cookies (self st) |} in
    let '(reply, server', elapsed) := site (server (world st)) req in
    let world' := {| cache := cache (world st);
                     clock := clock (world st) + Z.of_N elapsed;
                     server := server' |} in
    match reply with
    | NoReply => (Raise ConnectionError, {| self := self st; world := world' |})
    | Replied response set_cookies =>
        (Ok response,
         {| self := {| login_credentials := login_credentials (self st);
                       cookies := set_cookies ∪ cookies (self st);
                       headers := headers (self st) |};
            world := world' |})
    end.

(** The body of the overloaded [request], before decoration. *)
Definition request_body (method suburl : string) (data : gmap string value)
    : M Response :=
  fun st =>
    let data := _make_data (self st) data in
    let suburl := replace suburl URL_MAIN EmptyString in
    bind (super_request method (URL_MAIN +:+ suburl) data)
         (fun response =>
            bind (lift (LetterboxdResponseDict.__init__ response))
                 (fun _ => ret response)) st.

Definition request (method suburl : string) (data : gmap string value)
    : M Response :=
  save_session (request_body method suburl data).

Definition logged_in_check : M bool :=
  fun st =>
    match bind get_username (fun u => request "GET" (u +:+ "/") ∅) st with
    | (Raise e, st') =>
        if isinstance e AttributeError then (Ok false, st')
        else if isinstance e PageNotFound then (Ok false, st')
        else (Raise e, st')
    | (Ok response, st') =>
        bind get_username
             (fun u => ret (loggedin_script response (lower u))) st'
    end.

(** [logout]: the last line calls [self._raise_lb_response_dict], a
    method the class does not have. *)
Definition logout : M unit :=
  bind logged_in_check (fun logged_in =>
    if negb logged_in then ret tt
    else bind (request "GET" suburl_logout ∅) (fun _ => raise AttributeError)).

Definition get_credentials : M unit :=
  bind logged_in_check (fun logged_in =>
  bind (if logged_in then logout else ret tt) (fun _ =>
    fun st =>
      (Ok tt, {| self := {| login_credentials := Some operator;
                            cookies := cookies (self st);
                            headers := headers (self st) |};
                 world := world st |}))).

Definition login : M unit :=
  fun st =>
    match login_credentials (self st) with
    | None => (Raise AttributeError, st)
    | Some c =>
        let credentials : gmap string value :=
          {[ "username" := VStr (username c); "password" := VStr (password c) ]} in
        bind (request "POST" suburl_login credentials)
             (fun _ => bind get_username (fun _ => ret tt)) st
    end.

(** A [requests.Session] as its constructor leaves it, with the user
    agent added. *)
Definition blank_session : LunaboxdSession :=
  {| login_credentials := None;
     cookies := ∅;
     headers := {[ "user-agent" := USER_AGENT ]} |}.

(** [LunaboxdSession()]: steps 3 to 5 of the constructor on the blank
    object. *)
Definition __init__ (w : World) : result LunaboxdSession * World :=
  match bind get_credentials (fun _ =>
        bind (request "GET" EmptyString ∅) (fun _ => login))
          {| self := blank_session; world := w |} with
  | (Ok _, st) => (Ok (self st), world st)
  | (Raise e, st) => (Raise e, world st)
  end.

(** [LunaboxdSession.load()] *)
Definition load (w : World) : result LunaboxdSession * World :=
  match cache w with
  | None => __init__ w                      (* except FileNotFoundError *)
  | Some pf =>
      match content pf with
      | None => (Raise UnpicklingError, w)  (* except: raise *)
      | Some session_unpickled =>
          let one_hour_ago := clock w - 3600 in
          match logged_in_check {| self := session_unpickled; world := w |} with
          | (Raise e, st) => (Raise e, world st)
          | (Ok value, st) =>
              if negb value
                 || negb (Util.file_updated_after
                            (mtime <$> cache (world st)) one_hour_ago)
              then __init__ (world st)
              else (Ok (self st), world st)
          end
      end
  end.

End Gateway.

Arguments cache {Server} _.
Arguments clock {Server} _.
Arguments server {Server} _.
Arguments self {Server} _.
Arguments world {Server} _.
Arguments ret {Server A} _ _.
Arguments raise {Server A} _ _.
Arguments bind {Server A B} _ _ _.
Arguments lift {Server A} _ _.
Arguments get_username {Server} _.
Arguments save {Server} _.
Arguments save_session {Server A} _ _.
Arguments super_request {Server} _ _ _ _ _.
Arguments request_body {Server} _ _ _ _ _.
Arguments request {Server} _ _ _ _ _.
Arguments logged_in_check {Server} _ _.
Arguments logout {Server} _ _.
Arguments get_credentials {Server} _ _ _.
Arguments login {Server} _ _.
Arguments __init__ {Server} _ _ _.
Arguments load {Server} _ _ _.

End Session.

(* ===================================================================== *)
(** * film.py: actions                                                   *)
(* ===================================================================== *)

Module FilmAction.

Import Session.

Section Actions.

Variable Server : Type.
Variable site : Server -> HttpRequest -> Reply * Server * N.

(** The path of the film, [self.path]. *)
Variable path : string.

Definition suburl_film_main : string := ("film/" +:+ path +:+ "/")%string.

Definition _action (action : string) (data : gmap string value)
    : M Server unit :=
  bind (request site "POST" (suburl_film_main +:+ action +:+ "/")%string data)
       (fun _ => ret tt).

(** [isinstance(rating, int) & rating in range(0, 11)] with an [int]
    rating: [&] binds tighter than [in], the test is
    [(True & rating) in range(0, 11)]. *)
Definition action_rate (rating : Z) : M Server unit :=
  if negb (bool_decide (Z.land 1 rating ∈ range 0 11)) then raise ValueError
  else _action "rate" {[ "rating"%string := VInt rating ]}.

End Actions.

Arguments suburl_film_main _ : assert.
Arguments _action {Server} _ _ _ _ _.
Arguments action_rate {Server} _ _ _ _.

End FilmAction.

(* ===================================================================== *)
(** * tags.py                                                            *)
(* ===================================================================== *)

Module Tags.

(** An [li] of the tag list: whether it holds a link with a title, the
    title of its first link ([None]: that link has no title), and what
    [int] makes of the text of its span ([None]: no span). *)
Record Li : Type := {
  titled_link : bool;
  get_tag_name : option string;
  span_number : option (result Z)
}.

(** A tags page as [get_tags] reads it. *)
Record Page : Type := {
  no_results_header : bool;
  get_last_page : Z;
  (** the [li] tags of the [ul] of class [tags]; [None]: no such [ul] *)
  li_tags : option (list Li)
}.

(** [get_tags] returns [list()] without tags and a dict otherwise; a
    key of the dict is a title or [None]. *)
Inductive tags_result : Type :=
| EmptyList
| TagDict (results : gmap (option string) Z).

(** [get_tag_times_used(li)] *)
Definition get_tag_times_used (li : Li) : result Z :=
  match span_number li with
  | None => Ok 1
  | Some n => n
  end.

Section GetTags.

Variable request_page : Z -> result Page.

(** [[get_soup(i) for i in pages]], with the log of the requests *)
Fixpoint get_soups (pages : list Z) (log : list Z)
    : result (list Page) * list Z :=
  match pages with
  | [] => (Ok [], log)
  | i :: pages' =>
      match request_page i with
      | Raise e => (Raise e, log ++ [i])
      | Ok soup =>
          match get_soups pages' (log ++ [i]) with
          | (Ok soups, log') => (Ok (soup :: soups), log')
          | (Raise e, log') => (Raise e, log')
          end
      end
  end.

(** [[tag for soup in soups for tag in soup.find(..).find_all('li')]] *)
Fixpoint all_li_tags (soups : list Page) : result (list Li) :=
  match soups with
  | [] => Ok []
  | soup :: soups' =>
      match li_tags soup with
      | None => Raise AttributeError
      | Some lis => rest ← all_li_tags soups'; Ok (lis ++ rest)
      end
  end.

(** [{get_tag_name(li): get_tag_times_used(li) for li in li_tags}] *)
Fixpoint results_dict (lis : list Li) (results : gmap (option string) Z)
    : result (gmap (option string) Z) :=
  match lis with
  | [] => Ok results
  | li :: lis' =>
      n ← get_tag_times_used li;
      results_dict lis' (<[get_tag_name li := n]> results)
  end.

(** [get_tags] for a valid category. *)
Definition get_tags (log : list Z) : result tags_result * list Z :=
  match request_page 1 with
  | Raise e => (Raise e, log ++ [1])
  | Ok soup =>
      if no_results_header soup then (Ok EmptyList, log ++ [1])
      else
        let last_page := get_last_page soup in
        match get_soups (range 2 last_page) (log ++ [1]) with
        | (Raise e, log') => (Raise e, log')
        | (Ok soups, log') =>
            (lis ← all_li_tags (soup :: soups);
             results ← results_dict (filter (fun li => titled_link li = true) lis) ∅;
             Ok (TagDict results),
             log')
        end
  end.

End GetTags.

End Tags.

(* ===================================================================== *)
(** * Sample inputs                                                      *)
(* ===================================================================== *)

Module Samples.

Open Scope string_scope.

(** A search with two pages of twenty results; result [i] of page [k]
    is the number [100 * k + i]. *)
Definition search_page (k : Z) : Find.Page Z :=
  {| Find.results_on_page := (fun i => 100 * k + i)%Z <$> range 0 20;
     Find.get_last_page := 2 |}.

Definition search (k : Z) : result (Find.Page Z) :=
  if ((1 <=? k) && (k <=? 2))%Z then Ok (search_page k) else Raise PageNotFound.

(** A followers listing of three pages. *)
Definition followers_page (k : Z) : Member.Page string :=
  {| Member.people :=
       if (k =? 1)%Z then ["ada"; "bob"]
       else if (k =? 2)%Z then ["cy"; "dee"]
       else ["eve"];
     Member.has_next := (k <? 3)%Z |}.

Definition followers (k : Z) : result (Member.Page string) :=
  Ok (followers_page k).

(** A response with HTTP status 200 whose body is the JSON object
    [{"result": "error", "error": "forbidden"}]: the body holds no
    markup, hence no error body and no script. *)
Definition forbidden_response : Session.Response :=
  {| Session.status_code := 200;
     Session.url := "https://letterboxd.com/film/parasite/";
     Session.json_object :=
       Some {[ "result" := Session.VStr "error";
               "error" := Session.VStr "forbidden" ]};
     Session.body_error := false;
     Session.loggedin_script := fun _ => false |}.

(** The same with the body [{"error": "forbidden"}]. *)
Definition error_only_response : Session.Response :=
  {| Session.status_code := 200;
     Session.url := "https://letterboxd.com/film/parasite/";
     Session.json_object := Some {[ "error" := Session.VStr "forbidden" ]};
     Session.body_error := false;
     Session.loggedin_script := fun _ => false |}.

(** A plain page, served with status 200; its script says that [user]
    is logged in. *)
Definition page_for (user : string) : Session.Response :=
  {| Session.status_code := 200;
     Session.url := "https://letterboxd.com/";
     Session.json_object := None;
     Session.body_error := false;
     Session.loggedin_script := fun u => bool_decide (u = user) |}.

(** A bare 404 without any payload of the site. *)
Definition not_found_response : Session.Response :=
  {| Session.status_code := 404;
     Session.url := "https://letterboxd.com/nobody/";
     Session.json_object := None;
     Session.body_error := false;
     Session.loggedin_script := fun _ => false |}.

(** A site that keeps the requests it received, oldest first, sets the
    anti-forgery cookie with every reply and knows the member [luna]:
    it serves every path but [nobody/]. *)
Definition recording_site (received : list Session.HttpRequest)
    (req : Session.HttpRequest)
    : Session.Reply * list Session.HttpRequest * N :=
  (Session.Replied
     (if bool_decide (Session.req_url req = "https://letterboxd.com/nobody/")
      then not_found_response else page_for "luna")
     {[ Session.cookie_name_csrf := "t0k3n" ]},
   (received ++ [req])%list, 1%N).

Definition luna : Session.Credentials :=
  {| Session.username := "Luna"; Session.password := "hunter2" |}.

Definition mia : Session.Credentials :=
  {| Session.username := "Mia"; Session.password := "x" |}.

(** A session as a previous run pickled it. *)
Definition pickled (c : Session.Credentials) : Session.LunaboxdSession :=
  {| Session.login_credentials := Some c;
     Session.cookies := {[ Session.cookie_name_csrf := "0ld" ]};
     Session.headers := {[ "user-agent" := Session.USER_AGENT ]} |}.

(** The state of a session that has not sent any request yet. *)
Definition first_request (w : Session.World (list Session.HttpRequest))
    : Session.State (list Session.HttpRequest) :=
  {| Session.self := Session.blank_session; Session.world := w |}.

(** Worlds at time 10000 that differ in the cache file. *)
Definition world_with (f : option Session.CacheFile)
    : Session.World (list Session.HttpRequest) :=
  {| Session.cache := f; Session.clock := 10000; Session.server := [] |}.

Definition corrupt_cache : Session.CacheFile :=
  {| Session.content := None; Session.mtime := 9990 |}.

Definition fresh_cache (c : Session.Credentials) : Session.CacheFile :=
  {| Session.content := Some (pickled c); Session.mtime := 9990 |}.

Definition stale_cache (c : Session.Credentials) : Session.CacheFile :=
  {| Session.content := Some (pickled c); Session.mtime := 100 |}.

End Samples.

(* ===================================================================== *)
(** * Notions the statements below are phrased with                      *)
(* ===================================================================== *)

Module Spec.

(** A valid rating value: one of 0.5, 1.0, ..., 5.0. *)
Definition valid_rating (x : Q) : Prop :=
  exists r, In r Letterboxd.RATINGS_RANGE /\ (x == r)%Q.

(** A rating histogram maps the scores 1 to 10 (half-star units) to
    counts. *)
Definition histogram (h : gmap Z Z) : Prop :=
  forall score, is_Some (h !! score) -> 1 <= score <= 10.

(** The count of a score; an absent score counts zero. *)
Definition count (h : gmap Z Z) (score : Z) : Z := default 0 (h !! score).

(** Total number of ratings, and the sum over the scores of
    score times count. *)
Definition total (h : gmap Z Z) : Z :=
  Py.sum ((fun score => count h score) <$> range 1 11).

Definition weighted_total (h : gmap Z Z) : Z :=
  Py.sum ((fun score => score * count h score) <$> range 1 11).

(** Ranking of the scores of a histogram by frequency with ties going
    to the higher score: score [a] with count [ca] ranks above score
    [b] with count [cb] when it is more frequent, or as frequent and
    the higher score.  This is the ranking of the amended claim on
    [rating_ironic]; the ranking the specification words follows below
    ([first_seen_mode]). *)
Definition ranks_above (ca a cb b : Z) : Prop :=
  cb < ca \/ (cb = ca /\ b < a).

(** [s] is the most frequent score of [h]. *)
Definition most_frequent (h : gmap Z Z) (s : Z) : Prop :=
  exists cs, h !! s = Some cs /\
    forall k ck, h !! k = Some ck -> k <> s -> ranks_above cs s ck k.

(** [s] and [t] are, in this order, the two most frequent scores of
    [h]. *)
Definition two_most_frequent (h : gmap Z Z) (s t : Z) : Prop :=
  most_frequent h s /\ most_frequent (delete s h) t.

(** The ranking as the specification words it: ties between equal
    counts are broken by key order, the score that is seen first at the
    maximum keeps the rank.  [first_seen_mode h] goes through the
    scores 1, ..., 10 in order and changes its choice only for a score
    with a greater count.  (The histograms the code builds, [ratings]
    and [ratings_friends], are filled in the order of the scores: their
    insertion order is their key order.) *)
Definition first_seen_step (h : gmap Z Z) (best : option Z) (score : Z)
    : option Z :=
  match h !! score with
  | None => best
  | Some c =>
      match best with
      | None => Some score
      | Some b => if count h b <? c then Some score else best
      end
  end.

Definition first_seen_mode (h : gmap Z Z) : option Z :=
  fold_left (first_seen_step h) (range 1 11) None.

(** [isIronic] as the specification words it: the two most frequent
    scores, the second taken once the first is set aside, are the pair
    1 and 10, and both have a count of at least [minimumEach]. *)
Definition isIronic_first_seen (h : gmap Z Z) (minimumEach : Z) : bool :=
  match first_seen_mode h with
  | None => false
  | Some s =>
      match first_seen_mode (delete s h) with
      | None => false
      | Some t =>
          bool_decide ((s = 1 /\ t = 10) \/ (s = 10 /\ t = 1))
          && (minimumEach <=? count h 1) && (minimumEach <=? count h 10)
      end
  end.

(** The histogram completed with an explicit zero count for every
    score of 1..10 it lacks. *)
Definition completed (h : gmap Z Z) : gmap Z Z :=
  list_to_map ((fun score => (score, count h score)) <$> range 1 11).

(** The weighted pseudo-successes and pseudo-failures of the Bayesian
    score. *)
Definition up (h : gmap Z Z) : Q :=
  fsum ((fun n => inject_Z (count h n) * (inject_Z (n - 1) / 9))%Q
          <$> range 1 11).

Definition down (h : gmap Z Z) : Q :=
  fsum ((fun n => inject_Z (count h n) * ((9 - inject_Z (n - 1)) / 9))%Q
          <$> range 1 11).

(** A search with [last] known pages: every page of 1..[last] is served,
    and the first one announces [last] as the last page. *)
Definition known_last_page {Item} (request_page : Z -> result (Find.Page Item))
    (pg : Z -> Find.Page Item) (last : Z) : Prop :=
  1 <= last
  /\ (forall k, 1 <= k <= last -> request_page k = Ok (pg k))
  /\ Find.get_last_page (pg 1) = last.

(** The results of the pages [lo], ..., [hi - 1], in page order and in
    the order of each page. *)
Definition pages {Item} (pg : Z -> Find.Page Item) (lo hi : Z) : list Item :=
  concat ((fun k => Find.results_on_page (pg k)) <$> range lo hi).

(** The state after [save]: the session is in the cache file, written
    at the current time. *)
Definition saved {Server} (st : Session.State Server) : Session.State Server :=
  {| Session.self := Session.self st;
     Session.world :=
       {| Session.cache :=
            Some {| Session.content := Some (Session.self st);
                    Session.mtime := Session.clock (Session.world st) |};
          Session.clock := Session.clock (Session.world st);
          Session.server := Session.server (Session.world st) |} |}.

End Spec.

(* ===================================================================== *)
(** * Further sample inputs and notions                                  *)
(* ===================================================================== *)

Module MoreSamples.

Open Scope string_scope.

(** A search on a site that answers every request with an error
    status. *)
Definition failing_search (k : Z) : result (Find.Page Z) := Raise HTTPError.

(** A search whose first page announces three pages and whose third page
    is gone. *)
Definition shrunk_page (k : Z) : Find.Page Z :=
  {| Find.results_on_page := (fun i => 100 * k + i)%Z <$> range 0 20;
     Find.get_last_page := 3 |}.

Definition shrunk_search (k : Z) : result (Find.Page Z) :=
  if ((1 <=? k) && (k <=? 2))%Z then Ok (shrunk_page k) else Raise PageNotFound.

(** A followers listing whose second page cannot be read. *)
Definition forbidden_followers (k : Z) : result (Member.Page string) :=
  if (k =? 1)%Z then Ok (Samples.followers_page 1) else Raise LetterboxdError.

(** A page with the error body, and a site that answers every request
    with it. *)
Definition error_page : Session.Response :=
  {| Session.status_code := 200;
     Session.url := "https://letterboxd.com/";
     Session.json_object := None;
     Session.body_error := true;
     Session.loggedin_script := fun _ => false |}.

Definition error_site (received : list Session.HttpRequest)
    (req : Session.HttpRequest)
    : Session.Reply * list Session.HttpRequest * N :=
  (Session.Replied error_page ∅, (received ++ [req])%list, 1%N).

(** The answers of someone who thinks of the number [target]. *)
Definition thinks_of (target mid : Z) : Util.guess :=
  if (mid =? target)%Z then Util.Correct
  else if (mid <? target)%Z then Util.Low else Util.High.

(** The rating links of a film page: 3 ratings of half a star, 12 of
    three stars, no link for the other scores. *)
Definition rating_links (star_rating : str) : option (result Z) :=
  if bool_decide (star_rating = Letterboxd.RATING_HALF_ONLY) then Some (Ok 3%Z)
  else if bool_decide (star_rating = [9733; 9733; 9733]%N) then Some (Ok 12%Z)
  else None.

Definition rating_links_histogram : gmap Z Z :=
  list_to_map [(1, 3); (2, 0); (3, 0); (4, 0); (5, 0); (6, 12); (7, 0);
               (8, 0); (9, 0); (10, 0)]%Z.

(** The mean of the Beta distribution, in the place of its percentile
    point. *)
Definition beta_mean (q a b : Q) : Q := (a / (a + b))%Q.

(** A tags listing of three pages with one tag each; the [li] of the
    second page has no link with a title. *)
Definition tags_page (k : Z) : Tags.Page :=
  {| Tags.no_results_header := false;
     Tags.get_last_page := 3;
     Tags.li_tags :=
       Some [ {| Tags.titled_link := negb (k =? 2)%Z;
                 Tags.get_tag_name :=
                   if (k =? 2)%Z then None
                   else Some (if (k =? 1)%Z then "noir" else "western");
                 Tags.span_number := Some (Ok k) |} ] |}.

Definition tags_listing (k : Z) : result Tags.Page := Ok (tags_page k).

(** A tags listing of one page. *)
Definition single_tags_page : Tags.Page :=
  {| Tags.no_results_header := false;
     Tags.get_last_page := 1;
     Tags.li_tags :=
       Some [ {| Tags.titled_link := true;
                 Tags.get_tag_name := Some "noir";
                 Tags.span_number := None |} ] |}.

(** A jar with the token cookie of the site. *)
Definition site_jar : Session.CookieJar :=
  {[ (".letterboxd.com", "/", Session.cookie_name_csrf) := "t0k3n" ]}.

(** A jar in which the site has set the filmFilter cookie. *)
Definition filtered_jar : Session.CookieJar :=
  {[ (".letterboxd.com", "/", Session.cookie_name_filmFilter) := "hide-reviewed" ]}.

End MoreSamples.

Module Notions.

(** The first scores of a histogram in the order of their rank: each is
    the most frequent one once those before it are taken out. *)
Fixpoint top_ranked (h : gmap Z Z) (ks : list Z) : Prop :=
  match ks with
  | [] => True
  | k :: ks' => Spec.most_frequent h k /\ top_ranked (delete k h) ks'
  end.

(** The payload of a response: the JSON object of its body, empty
    without one. *)
Definition payload (r : Session.Response) : gmap string Session.value :=
  default ∅ (Session.json_object r).

(** The result the site reports is absent or one of the values that
    stand for success. *)
Definition accepted_result (r : Session.Response) : bool :=
  let v := Session.LetterboxdResponseDict.get (payload r) "result" in
  bool_decide (v = Session.VNone)
  || Session.LetterboxdResponseDict.in_successful_result v.

(** Some entry of the payload, the one under [error] apart, is true in
    Python's sense. *)
Definition truthy_payload (r : Session.Response) : Prop :=
  exists k v, k <> "error"%string /\ payload r !! k = Some v
              /\ Session.truth v = true.

(** A filter name the cookie can hold: not empty, without the separator
    of the cookie, not opening with a double quote. *)
Fixpoint no_separator (name : string) : bool :=
  match name with
  | EmptyString => true
  | String _ name' =>
      negb (Session.startswith name "%20") && no_separator name'
  end.

Definition filter_name (name : string) : Prop :=
  name <> EmptyString /\ no_separator name = true
  /\ Session.startswith name (String Session.quote EmptyString) = false.

(** The jar holds no cookie of the name beside the one [cookies.set]
    writes. *)
Definition only_own_cookie (jar : Session.CookieJar) (name : string) : Prop :=
  forall domain path,
    (domain, path) <> (EmptyString, "/"%string) ->
    jar !! (domain, path, name) = None.

(** [check_guess] compares its argument with a number [target]. *)
Definition compares_with (target : Z) (check_guess : Z -> Util.guess) : Prop :=
  forall mid,
    check_guess mid
    = if mid =? target then Util.Correct
      else if mid <? target then Util.Low else Util.High.

(** The two characters of a star rating. *)
Definition star_or_half (c : N) : Prop := c = 9733%N \/ c = 189%N.

(** The number of occurrences of the character [c] in [s]. *)
Definition occurrences (c : N) (s : str) : Z :=
  Z.of_nat (length (filter (fun x => x = c) s)).

End Notions.

(* ===================================================================== *)
(** * Star ratings                                                       *)
(* ===================================================================== *)

Section StarRatings.

Import Letterboxd.

Lemma int_of_float_proper (x y : Q) :
  (x == y)%Q -> int_of_float x = int_of_float y.
Proof.
  unfold Qeq, int_of_float. intros H.
  rewrite <- (Z.quot_mul_cancel_r (Qnum x) (Z.pos (Qden x)) (Z.pos (Qden y)))
    by discriminate.
  rewrite H.
  rewrite (Z.mul_comm (Z.pos (Qden x)) (Z.pos (Qden y))).
  apply Z.quot_mul_cancel_r; discriminate.
Qed.

Lemma Qeq_bool_proper_l (x y z : Q) :
  (x == y)%Q -> Qeq_bool x z = Qeq_bool y z.
Proof.
  intros H. destruct (Qeq_bool y z) eqn:E.
  - apply Qeq_bool_iff. apply Qeq_bool_iff in E. now rewrite H.
  - destruct (Qeq_bool x z) eqn:E'; [|reflexivity].
    apply Qeq_bool_iff in E'. rewrite H in E'.
    apply Qeq_bool_iff in E'. congruence.
Qed.

Lemma num_to_star_rating_proper (x y : Q) :
  (x == y)%Q -> num_to_star_rating x = num_to_star_rating y.
Proof.
  intros H. unfold num_to_star_rating.
  rewrite (Qeq_bool_proper_l x y) by exact H.
  rewrite (int_of_float_proper (x * (2 # 1)) (y * (2 # 1))); [reflexivity|].
  now rewrite H.
Qed.

(** C10.  Star-rating round trip: for every valid rating value [x]
    (0.5, 1.0, ..., 5.0) [num_to_star_rating] returns a string, and
    [star_rating_to_num] maps that string back to [x], neither call
    raising; 0.5 is written as the single-half-star form, which maps
    back to 0.5. *)
Theorem star_rating_roundtrip (x : Q) :
  Spec.valid_rating x ->
  (exists s y,
      num_to_star_rating x = Ok s /\
      star_rating_to_num s = Ok y /\
      (y == x)%Q)
  /\ num_to_star_rating (1 # 2) = Ok RATING_HALF_ONLY
  /\ star_rating_to_num RATING_HALF_ONLY = Ok (1 # 2)%Q.
Proof.
  intros (r & Hr & Hx). split; [|split; reflexivity].
  rewrite (num_to_star_rating_proper x r Hx).
  simpl in Hr.
  repeat (destruct Hr as [<- | Hr];
          [ eexists; eexists; split; [vm_compute; reflexivity|];
            split; [vm_compute; reflexivity|];
            rewrite Hx; reflexivity
          | ]).
  destruct Hr.
Qed.

Lemma star_rating_roundtrip_witness :
  Spec.valid_rating (7 # 2) /\
  ((exists s y,
      num_to_star_rating (7 # 2) = Ok s /\
      star_rating_to_num s = Ok y /\
      (y == 7 # 2)%Q)
   /\ num_to_star_rating (1 # 2) = Ok RATING_HALF_ONLY
   /\ star_rating_to_num RATING_HALF_ONLY = Ok (1 # 2)%Q).
Proof.
  assert (H : Spec.valid_rating (7 # 2)).
  { exists (7 # 2)%Q. split; [simpl; tauto | reflexivity]. }
  split; [exact H | exact (star_rating_roundtrip (7 # 2) H)].
Defined.

End StarRatings.



(* ===================================================================== *)
(** * Rating aggregates                                                  *)
(* ===================================================================== *)

Section Ratings.

Import Film.

Lemma sum_Permutation (l l' : list Z) : l ≡ₚ l' -> Py.sum l = Py.sum l'.
Proof. induction 1; simpl; lia. Qed.

(** A sum over the items of a dict is a sum over any duplicate-free list
    of keys that covers the dict, absent keys contributing nothing. *)
Lemma sum_items_over_keys (F : Z -> Z -> Z) (L : list Z) :
  NoDup L ->
  forall h : gmap Z Z,
    (forall k, is_Some (h !! k) -> k ∈ L) ->
    Py.sum ((fun kv : Z * Z => F kv.1 kv.2) <$> map_to_list h)
    = Py.sum ((fun n => from_option (F n) 0 (h !! n)) <$> L).
Proof.
  induction 1 as [|a L Ha HL IH]; intros h Hdom.
  - assert (h = ∅) as ->.
    { apply map_empty. intros k. destruct (h !! k) eqn:E; [|done].
      exfalso. pose proof (Hdom k (mk_is_Some _ _ E)) as Hk.
      by apply elem_of_nil in Hk. }
    by rewrite map_to_list_empty.
  - assert (Hrest : forall k, is_Some (delete a h !! k) -> k ∈ L).
    { intros k [v Hk]. apply lookup_delete_Some in Hk as [Hne Hk].
      pose proof (Hdom k (mk_is_Some _ _ Hk)) as Hin.
      apply elem_of_cons in Hin as [->|Hin]; [done|exact Hin]. }
    assert (Htail : (fun n => from_option (F n) 0 (h !! n)) <$> L
                    = (fun n => from_option (F n) 0 (delete a h !! n)) <$> L).
    { apply list_fmap_ext. intros i n Hn. simpl.
      rewrite lookup_delete_ne; [done|].
      intros ->. apply Ha. by eapply list_elem_of_lookup_2. }
    rewrite fmap_cons. simpl. rewrite Htail, <- (IH _ Hrest).
    destruct (h !! a) as [v|] eqn:E; simpl.
    + rewrite <- (insert_delete_id h a v E) at 1.
      rewrite (sum_Permutation _ _
                 (fmap_Permutation _ _ _
                    (map_to_list_insert (delete a h) a v (lookup_delete_eq h a)))).
      by rewrite fmap_cons.
    + by rewrite delete_id.
Qed.

Lemma range_1_11 : range 1 11 = [1; 2; 3; 4; 5; 6; 7; 8; 9; 10].
Proof. reflexivity. Qed.

Lemma histogram_keys (h : gmap Z Z) :
  Spec.histogram h -> forall k, is_Some (h !! k) -> k ∈ range 1 11.
Proof.
  intros Hh k Hk. specialize (Hh k Hk). rewrite range_1_11.
  apply list_elem_of_In. simpl. lia.
Qed.

Lemma NoDup_range_1_11 : NoDup (range 1 11).
Proof.
  rewrite range_1_11.
  apply (bool_decide_unpack (NoDup [1; 2; 3; 4; 5; 6; 7; 8; 9; 10])).
  vm_compute. exact I.
Qed.

Lemma ratings_number_of_total (h : gmap Z Z) :
  Spec.histogram h -> ratings_number_of h = Spec.total h.
Proof.
  intros Hh. unfold ratings_number_of, Spec.total.
  etrans;
    [exact (sum_items_over_keys (fun _ v => v) _ NoDup_range_1_11 h
              (histogram_keys h Hh))|].
  reflexivity.
Qed.

Lemma items_score_weighted_total (h : gmap Z Z) :
  Spec.histogram h ->
  Py.sum ((fun sq : Z * Z => sq.1 * sq.2) <$> map_to_list h)
  = Spec.weighted_total h.
Proof.
  intros Hh. unfold Spec.weighted_total.
  rewrite (sum_items_over_keys Z.mul _ NoDup_range_1_11 h (histogram_keys h Hh)).
  f_equal. apply list_fmap_ext. intros i n _. unfold Spec.count.
  destruct (h !! n); simpl; lia.
Qed.

(** C7.  For every rating histogram, [rating_true] is undefined
    ([None], not zero) when the total count is zero, and otherwise is
    the sum over the scores of score times count, divided by the total,
    times 0.5; on the histogram [{10: 1}] it is 5.0. *)
Theorem rating_true_mean (h : gmap Z Z) :
  Spec.histogram h ->
  (Spec.total h = 0 -> rating_true h = None)
  /\ (Spec.total h <> 0 ->
      rating_true h
      = Some (inject_Z (Spec.weighted_total h) / inject_Z (Spec.total h)
              * (1 # 2))%Q)
  /\ (exists m, rating_true {[10 := 1]} = Some m /\ (m == 5 # 1)%Q).
Proof.
  intros Hh. unfold rating_true, _ratings_total_score.
  rewrite (ratings_number_of_total h Hh).
  split; [|split].
  - intros ->. reflexivity.
  - intros Hne. apply Z.eqb_neq in Hne. rewrite Hne.
    by rewrite (items_score_weighted_total h Hh).
  - eexists. split; [vm_compute; reflexivity | reflexivity].
Qed.

Lemma rating_true_mean_witness :
  Spec.histogram {[1 := 5; 10 := 5; 5 := 1]}
  /\ rating_true {[1 := 5; 10 := 5; 5 := 1]}
     = Some (inject_Z 60 / inject_Z 11 * (1 # 2))%Q.
Proof.
  assert (H : Spec.histogram {[1 := 5; 10 := 5; 5 := 1]}).
  { intros k [v Hk].
    destruct (decide (k = 1)) as [->|]; [lia|].
    destruct (decide (k = 10)) as [->|]; [lia|].
    destruct (decide (k = 5)) as [->|]; [lia|].
    by simplify_map_eq. }
  split; [exact H|].
  apply (proj1 (proj2 (rating_true_mean _ H))).
  vm_compute. discriminate.
Defined.

(** ** [key_max] selects by rank *)

Lemma tuple_lt_spec (a b : Z * Z) :
  Util.tuple_lt a b = true <-> Spec.ranks_above b.1 b.2 a.1 a.2.
Proof. unfold Util.tuple_lt, Spec.ranks_above. lia. Qed.

Lemma fold_max_step (l : list (Z * Z)) :
  forall init,
    match fold_left Util.max_step l init with
    | None => init = None /\ l = []
    | Some b =>
        (init = Some b \/ (b.2, b.1) ∈ l)
        /\ (forall b0, init = Some b0 ->
              b0 = b \/ Spec.ranks_above b.1 b.2 b0.1 b0.2)
        /\ (forall kv, kv ∈ l ->
              (kv.2, kv.1) = b \/ Spec.ranks_above b.1 b.2 kv.2 kv.1)
    end.
Proof.
  induction l as [|kv l IH]; intros init; simpl.
  - destruct init as [b|]; [|done].
    split; [by left|]. split; [intros b0 [= ->]; by left|].
    intros kv Hkv. by apply elem_of_nil in Hkv.
  - specialize (IH (Util.max_step init kv)).
    destruct (fold_left Util.max_step l (Util.max_step init kv)) as [b|];
      [|destruct IH as [IH _]; destruct init; simpl in IH;
        [destruct (Util.tuple_lt _ _)|]; discriminate].
    destruct IH as (Hin & Hinit & Hall).
    assert (Hstep : Util.max_step init kv = Some (kv.2, kv.1)
                    \/ exists b0, init = Some b0
                         /\ Util.max_step init kv = Some b0
                         /\ ((kv.2, kv.1) = b0
                             \/ Spec.ranks_above b0.1 b0.2 kv.2 kv.1)).
    { destruct init as [b0|]; simpl; [|by left].
      destruct (Util.tuple_lt b0 (kv.2, kv.1)) eqn:E; [by left|].
      right. exists b0. split; [done|]. split; [done|].
      assert (~ Spec.ranks_above kv.2 kv.1 b0.1 b0.2) as Hn.
      { intros Hr. apply (tuple_lt_spec b0 (kv.2, kv.1)) in Hr. congruence. }
      unfold Spec.ranks_above in *. destruct b0 as [v0 k0]; simpl in *.
      destruct (decide (kv.2 = v0 /\ kv.1 = k0)) as [[-> ->]|Hne];
        [by left|right; lia]. }
    split; [|split].
    + destruct Hin as [Hin|Hin]; [|right; by apply elem_of_cons; right].
      destruct Hstep as [Hs|(b0 & -> & Hs & _)].
      * rewrite Hs in Hin. injection Hin as <-. right. simpl.
        destruct kv; apply elem_of_cons; by left.
      * left. congruence.
    + intros b0 ->. simpl in Hinit.
      destruct (Util.tuple_lt b0 (kv.2, kv.1)) eqn:E.
      * apply tuple_lt_spec in E. simpl in E.
        destruct (Hinit _ eq_refl) as [<-|Hr]; [by right|].
        right. unfold Spec.ranks_above in *. simpl in *. lia.
      * exact (Hinit _ eq_refl).
    + intros kv' Hkv'. apply elem_of_cons in Hkv' as [->|Hkv']; [|by apply Hall].
      destruct Hstep as [Hs|(b0 & _ & Hs & Hcmp)].
      * exact (Hinit _ Hs).
      * destruct (Hinit _ Hs) as [<-|Hr]; [exact Hcmp|].
        right. destruct Hcmp as [<-|Hcmp]; [exact Hr|].
        unfold Spec.ranks_above in *. lia.
Qed.

Lemma most_frequent_unique (h : gmap Z Z) (s s' : Z) :
  Spec.most_frequent h s -> Spec.most_frequent h s' -> s = s'.
Proof.
  intros (c & Hc & Hs) (c' & Hc' & Hs').
  destruct (decide (s = s')) as [|Hne]; [done|exfalso].
  pose proof (Hs s' c' Hc' (not_eq_sym Hne)) as H1.
  pose proof (Hs' s c Hc Hne) as H2.
  unfold Spec.ranks_above in *. lia.
Qed.

Lemma max_zip_most_frequent (d : gmap Z Z) :
  match Util.max_zip d with
  | None => d = ∅
  | Some (v, k) => d !! k = Some v /\ Spec.most_frequent d k
  end.
Proof.
  unfold Util.max_zip.
  pose proof (fold_max_step (map_to_list d) None) as H.
  destruct (fold_left Util.max_step (map_to_list d) None) as [[v k]|].
  - destruct H as (Hin & _ & Hall). simpl in *.
    destruct Hin as [|Hin]; [done|].
    apply elem_of_map_to_list in Hin.
    split; [done|]. exists v. split; [done|].
    intros k' v' Hk' Hne.
    assert ((k', v') ∈ map_to_list d) as Hin' by by apply elem_of_map_to_list.
    destruct (Hall _ Hin') as [[= _ ?]|Hr]; [done|exact Hr].
  - destruct H as [_ H]. by apply map_to_list_empty_iff.
Qed.

Lemma key_max_first (d : gmap Z Z) (s : Z) :
  Util.key_max d 1 false = Ok (Util.Key s) <-> Spec.most_frequent d s.
Proof.
  unfold Util.key_max.
  pose proof (max_zip_most_frequent d) as H.
  destruct (Util.max_zip d) as [[v k]|].
  - destruct H as [Hk Hm].
    assert (size d <> 0%nat) as Hsz.
    { intros Hz. apply map_size_empty_iff in Hz. by rewrite Hz in Hk. }
    destruct (Z.ltb_spec (Z.of_nat (size d)) 1) as [|_]; [lia|]. simpl.
    split.
    + by intros [= <-].
    + intros Hs. by rewrite (most_frequent_unique d s k Hs Hm).
  - subst d. simpl. split; [discriminate|].
    intros (c & Hc & _). by rewrite lookup_empty in Hc.
Qed.

Lemma key_max_second (d : gmap Z Z) (t : Z) :
  Util.key_max d 2 false = Ok (Util.Key t)
  <-> exists s, Spec.two_most_frequent d s t.
Proof.
  unfold Util.key_max, Spec.two_most_frequent.
  change (Z.to_nat 2) with 2%nat. simpl.
  pose proof (max_zip_most_frequent d) as H.
  pose proof (fun k => max_zip_most_frequent (delete k d)) as H'.
  destruct (Z.ltb_spec (Z.of_nat (size d)) 2) as [Hlt|Hge].
  - split; [discriminate|]. intros (s & (c & Hc & _) & (c' & Hc' & _)).
    apply lookup_delete_Some in Hc' as [Hne Hc'].
    exfalso.
    assert (size (delete s d) <> 0%nat) as Hsz.
    { intros Hz. apply map_size_empty_iff in Hz.
      assert (delete s d !! t = Some c') as Ht by by rewrite lookup_delete_ne.
      by rewrite Hz in Ht. }
    pose proof (map_size_delete_Some s d (mk_is_Some _ _ Hc)). lia.
  - destruct (Util.max_zip d) as [[v k]|];
      [|subst d; rewrite map_size_empty in Hge; simpl in Hge; lia].
    destruct H as [Hk Hm]. specialize (H' k). simpl.
    destruct (Util.max_zip (delete k d)) as [[v' k']|].
    + destruct H' as [Hk' Hm']. simpl. split.
      * intros [= <-]. by exists k.
      * intros (s & Hs & Ht).
        rewrite <- (most_frequent_unique d s k Hs Hm) in Hm'.
        by rewrite (most_frequent_unique _ t k' Ht Hm').
    + exfalso. pose proof (map_size_delete_Some k d (mk_is_Some _ _ Hk)) as Hsz.
      rewrite H', map_size_empty in Hsz. lia.
Qed.

Lemma sorted2_extremes (a b : Z) :
  sorted2 a b = [1; 10] <-> (a = 1 /\ b = 10) \/ (a = 10 /\ b = 1).
Proof.
  unfold sorted2. destruct (Z.ltb_spec b a); split.
  - intros [= -> ->]. by right.
  - intros [[-> ->]|[-> ->]]; [lia|done].
  - intros [= -> ->]. by left.
  - intros [[-> ->]|[-> ->]]; [done|lia].
Qed.

Lemma rating_ironic_true (h : gmap Z Z) :
  rating_ironic h = Ok true <->
  exists a b r1 r10,
    Util.key_max h 1 false = Ok (Util.Key a)
    /\ Util.key_max h 2 false = Ok (Util.Key b)
    /\ sorted2 a b = [1; 10]
    /\ h !! 1 = Some r1 /\ h !! 10 = Some r10
    /\ 3 <= r1 /\ 3 <= r10.
Proof.
  unfold rating_ironic, getitem, mbind, result_bind.
  split.
  - destruct (Util.key_max h 1 false) as [k1|]; simpl; [|discriminate].
    destruct (Util.key_max h 2 false) as [k2|]; simpl; [|discriminate].
    destruct (h !! 1) as [r1|]; simpl; [|discriminate].
    destruct (h !! 10) as [r10|]; simpl; [|discriminate].
    intros [= H].
    apply andb_true_iff in H as [H H10]. apply andb_true_iff in H as [H H1].
    destruct k1 as [a|]; [|discriminate]. destruct k2 as [b|]; [|discriminate].
    apply bool_decide_eq_true in H.
    exists a, b, r1, r10. repeat split; try done; lia.
  - intros (a & b & r1 & r10 & -> & -> & Hs & -> & -> & H1 & H10). simpl.
    f_equal. rewrite bool_decide_eq_true_2 by done. simpl. lia.
Qed.

Lemma rating_ironic_two_most_frequent (h : gmap Z Z) :
  rating_ironic h = Ok true <->
  (exists s t, Spec.two_most_frequent h s t
               /\ ((s = 1 /\ t = 10) \/ (s = 10 /\ t = 1)))
  /\ 3 <= Spec.count h 1 /\ 3 <= Spec.count h 10.
Proof.
  rewrite rating_ironic_true. unfold Spec.count. split.
  - intros (a & b & r1 & r10 & Ha & Hb & Hs & H1 & H10 & Hr1 & Hr10).
    rewrite H1, H10. simpl. split; [|done].
    apply key_max_first in Ha. apply key_max_second in Hb as (s & Hs1 & Hs2).
    rewrite (most_frequent_unique h s a Hs1 Ha) in Hs2.
    exists a, b. split; [by split|]. by apply sorted2_extremes.
  - intros ((s & t & [Hs Ht] & Hst) & Hr1 & Hr10).
    assert (is_Some (h !! 1) /\ is_Some (h !! 10)) as [[r1 H1] [r10 H10]].
    { destruct Hs as (cs & Hcs & _). destruct Ht as (ct & Hct & _).
      apply lookup_delete_Some in Hct as [_ Hct].
      destruct Hst as [[-> ->]|[-> ->]]; eauto. }
    rewrite H1, H10 in *. simpl in *.
    exists s, t, r1, r10. repeat split; try done.
    + by apply key_max_first.
    + apply key_max_second. by exists s.
    + by apply sorted2_extremes.
Qed.

(** C8 (as the code has it).  With a minimum of 3 ratings each,
    [rating_ironic] is true exactly when the two most frequent scores
    of the histogram are the pair 1 and 10 and each of these two scores
    has a count of at least 3, where of two scores with the same count
    the higher one is the more frequent one (not the one seen first); it
    is true on [{1: 5, 10: 5, 5: 1}] and false on
    [{1: 2, 10: 5, 5: 1}]. *)
Theorem rating_ironic_extremes (h : gmap Z Z) :
  (rating_ironic h = Ok true <->
   (exists s t, Spec.two_most_frequent h s t
                /\ ((s = 1 /\ t = 10) \/ (s = 10 /\ t = 1)))
   /\ 3 <= Spec.count h 1 /\ 3 <= Spec.count h 10)
  /\ rating_ironic {[1 := 5; 10 := 5; 5 := 1]} = Ok true
  /\ rating_ironic {[1 := 2; 10 := 5; 5 := 1]} = Ok false.
Proof.
  split; [apply rating_ironic_two_most_frequent|].
  split; vm_compute; reflexivity.
Qed.

(** Where no two scores have the same count no tie has to be broken:
    [rating_ironic] is true exactly when the scores 1 and 10 both have
    a count of at least 3 that exceeds the count of every other
    score. *)
Lemma rating_ironic_without_ties (h : gmap Z Z) :
  (forall a b ca cb, h !! a = Some ca -> h !! b = Some cb -> a <> b -> ca <> cb) ->
  rating_ironic h = Ok true <->
  exists c1 c10,
    h !! 1 = Some c1 /\ h !! 10 = Some c10 /\ 3 <= c1 /\ 3 <= c10
    /\ forall k ck, h !! k = Some ck -> k <> 1 -> k <> 10 -> ck < c1 /\ ck < c10.
Proof.
  intros Hdistinct. rewrite rating_ironic_two_most_frequent. split.
  - intros ((s & t & [(cs & Hcs & Hs) (ct & Hct & Ht)] & Hst) & H1 & H10).
    apply lookup_delete_Some in Hct as [Hne Hct].
    assert (forall k ck, h !! k = Some ck -> k <> s -> k <> t ->
                         ck < cs /\ ck < ct) as Hrest.
    { intros k ck Hk Hks Hkt.
      pose proof (Hs k ck Hk Hks) as Ha.
      assert (delete s h !! k = Some ck) as Hk' by by rewrite lookup_delete_ne.
      pose proof (Ht k ck Hk' Hkt) as Hb.
      pose proof (Hdistinct k s ck cs Hk Hcs Hks).
      pose proof (Hdistinct k t ck ct Hk Hct Hkt).
      unfold Spec.ranks_above in *. lia. }
    unfold Spec.count in *.
    destruct Hst as [[-> ->]|[-> ->]]; rewrite Hcs, Hct in *; simpl in *.
    + exists cs, ct. repeat split; try done; by eapply Hrest.
    + exists ct, cs. repeat split; try done; by eapply Hrest.
  - intros (c1 & c10 & H1 & H10 & Hc1 & Hc10 & Hrest).
    unfold Spec.count. rewrite H1, H10. simpl. split; [|done].
    pose proof (Hdistinct 1 10 c1 c10 H1 H10 ltac:(lia)) as Hne.
    assert (forall (s t cs ct : Z),
              h !! s = Some cs -> h !! t = Some ct -> s <> t -> ct < cs ->
              (forall k ck, h !! k = Some ck -> k <> s -> k <> t ->
                            ck < cs /\ ck < ct) ->
              Spec.two_most_frequent h s t) as Hbuild.
    { intros s t cs ct Hcs Hct Hst Hlt Hr. split.
      - exists cs. split; [done|]. intros k ck Hk Hks. left.
        destruct (decide (k = t)) as [->|Hkt]; [congruence|].
        by apply (Hr k ck).
      - exists ct. split; [by rewrite lookup_delete_ne|].
        intros k ck Hk Hkt. apply lookup_delete_Some in Hk as [Hks Hk].
        left. by apply (Hr k ck). }
    destruct (Z.lt_total c1 c10) as [Hlt|[Heq|Hgt]]; [|done|].
    + exists 10, 1. split; [|by right].
      apply (Hbuild 10 1 c10 c1 H10 H1); [lia|lia|].
      intros k ck Hk Hk10 Hk1. by destruct (Hrest k ck Hk Hk1 Hk10).
    + exists 1, 10. split; [|by left].
      apply (Hbuild 1 10 c1 c10 H1 H10); [lia|lia|exact Hrest].
Qed.

(** A tie, for the record: with the counts [{1: 5, 2: 5, 10: 9}] the
    scores 1 and 2 are as frequent; the higher one, 2, ranks second and
    [rating_ironic] is false. *)
Lemma rating_ironic_tie_sample :
  rating_ironic {[1 := 5; 2 := 5; 10 := 9]} = Ok false
  /\ Util.key_max {[1 := 5; 2 := 5; 10 := 9]} 2 false = Ok (Util.Key 2).
Proof. split; vm_compute; reflexivity. Qed.

(** C8, as stated, fails on ties.  The specification breaks a tie by
    key order (first seen at the maximum), the code by the higher
    score.  On the histogram with the counts 9, 5 and 5 for the scores
    1, 5 and 10 (0 elsewhere) the code answers true where the
    specification has the pair 1 and 5; with the counts 5, 5 and 9 for
    the scores 1, 2 and 10 the code answers false, its pair being 10 and
    2, where the specification has the pair 10 and 1. *)
Lemma rating_ironic_first_seen_counterexample :
  rating_ironic (Spec.completed {[1 := 9; 5 := 5; 10 := 5]}) = Ok true
  /\ Spec.isIronic_first_seen (Spec.completed {[1 := 9; 5 := 5; 10 := 5]}) 3
     = false
  /\ rating_ironic (Spec.completed {[1 := 5; 2 := 5; 10 := 9]}) = Ok false
  /\ Spec.isIronic_first_seen (Spec.completed {[1 := 5; 2 := 5; 10 := 9]}) 3
     = true
  /\ Spec.isIronic_first_seen {[1 := 5; 10 := 5; 5 := 1]} 3 = true
  /\ Spec.isIronic_first_seen {[1 := 2; 10 := 5; 5 := 1]} 3 = false.
Proof. repeat split; vm_compute; reflexivity. Qed.

(** ** The Bayesian average looks every score up *)

Lemma result_bind_Ok {A B} (a : A) (k : A -> result B) : (Ok a ≫= k) = k a.
Proof. reflexivity. Qed.

Lemma comprehension_ok (f : Z -> result Q) (g : Z -> Q) (ns : list Z) :
  (forall n, n ∈ ns -> f n = Ok (g n)) ->
  comprehension f ns = Ok (g <$> ns).
Proof.
  induction ns as [|n ns IH]; intros H; simpl; [done|].
  rewrite (H n) by (apply elem_of_cons; by left). simpl.
  rewrite IH; [done|]. intros m Hm. apply H, elem_of_cons. by right.
Qed.

Lemma comprehension_raise (f : Z -> result Q) (e : exn) (ns : list Z) :
  (forall n, n ∈ ns -> (exists x, f n = Ok x) \/ f n = Raise e) ->
  (exists n, n ∈ ns /\ f n = Raise e) ->
  comprehension f ns = Raise e.
Proof.
  induction ns as [|n ns IH]; intros Hall (m & Hm & Hf).
  - by apply elem_of_nil in Hm.
  - simpl. destruct (Hall n) as [[x Hx]|Hx]; [apply elem_of_cons; by left| |].
    + rewrite Hx. simpl. rewrite IH; [done| |].
      * intros k Hk. apply Hall, elem_of_cons. by right.
      * apply elem_of_cons in Hm as [->|Hm]; [congruence|eauto].
    + by rewrite Hx.
Qed.

Lemma any_values (d : gmap Z Z) :
  (exists k v, d !! k = Some v /\ v <> 0) ->
  bool_decide (d = ∅) || negb (existsb (fun v => negb (v =? 0)) ((map_to_list d).*2))
  = false.
Proof.
  intros (k & v & Hk & Hv). apply orb_false_iff. split.
  - apply bool_decide_eq_false_2. intros ->. by rewrite lookup_empty in Hk.
  - apply negb_false_iff, existsb_exists. exists v. split.
    + apply list_elem_of_In, list_elem_of_fmap. exists (k, v).
      split; [done|]. by apply elem_of_map_to_list.
    + apply negb_true_iff, Z.eqb_neq, Hv.
Qed.

Lemma elem_of_range_1_11 (n : Z) : n ∈ range 1 11 <-> 1 <= n <= 10.
Proof. rewrite range_1_11, list_elem_of_In. simpl. lia. Qed.

(** C9 (as the code has it).  [_get_bayesian_average] does not take an
    absent score for a zero count: on a histogram with some non-zero
    count it looks every score of 1..10 up; when one of them is absent
    the lookup raises [KeyError], and when all ten are present it
    returns the rescaled 5th-percentile point of the Beta distribution
    with parameters [up + a0] and [down + a0]. *)
Theorem bayesian_average_needs_every_score
    (beta_ppf : Q -> Q -> Q -> Q) (d : gmap Z Z) (fallback : option Q) (a0 : Q) :
  (exists k v, d !! k = Some v /\ v <> 0) ->
  ((exists n, 1 <= n <= 10 /\ d !! n = None) ->
   _get_bayesian_average beta_ppf d fallback a0 = Raise KeyError)
  /\ ((forall n, 1 <= n <= 10 -> is_Some (d !! n)) ->
      _get_bayesian_average beta_ppf d fallback a0
      = Ok (Some (beta_ppf (5 # 100) (Spec.up d + a0) (Spec.down d + a0)
                  * (45 # 10) + (1 # 2))%Q)).
Proof.
  intros Hany. unfold _get_bayesian_average. rewrite (any_values d Hany).
  split.
  - intros (n & Hn & Hnone).
    assert (comprehension
              (fun n => v ← getitem d n;
                        Ok (inject_Z v * (inject_Z (n - 1) / 9))%Q)
              (range 1 11) = Raise KeyError) as ->; [|reflexivity].
    apply comprehension_raise.
    + intros m _. unfold getitem. destruct (d !! m); simpl; eauto.
    + exists n. split; [by apply elem_of_range_1_11|].
      unfold getitem. by rewrite Hnone.
  - intros Hall.
    assert (Hup :
      comprehension
        (fun n => v ← getitem d n; Ok (inject_Z v * (inject_Z (n - 1) / 9))%Q)
        (range 1 11)
      = Ok ((fun n => inject_Z (Spec.count d n) * (inject_Z (n - 1) / 9))%Q
              <$> range 1 11)).
    { apply comprehension_ok. intros n Hn. apply elem_of_range_1_11 in Hn.
      destruct (Hall n Hn) as [v Hv]. unfold getitem, Spec.count.
      rewrite Hv. reflexivity. }
    assert (Hdown :
      comprehension
        (fun n => v ← getitem d n;
                  Ok (inject_Z v * ((9 - inject_Z (n - 1)) / 9))%Q)
        (range 1 11)
      = Ok ((fun n => inject_Z (Spec.count d n) * ((9 - inject_Z (n - 1)) / 9))%Q
              <$> range 1 11)).
    { apply comprehension_ok. intros n Hn. apply elem_of_range_1_11 in Hn.
      destruct (Hall n Hn) as [v Hv]. unfold getitem, Spec.count.
      rewrite Hv. reflexivity. }
    rewrite Hup, result_bind_Ok. cbv beta.
    rewrite Hdown, result_bind_Ok. reflexivity.
Qed.

Lemma bayesian_average_needs_every_score_witness :
  _get_bayesian_average (fun _ _ _ => 0%Q) {[10 := 1]} None 9 = Raise KeyError.
Proof.
  assert (Hany : exists k v, ({[10 := 1]} : gmap Z Z) !! k = Some v /\ v <> 0).
  { exists 10, 1. split; [reflexivity | lia]. }
  apply (proj1 (bayesian_average_needs_every_score
                  (fun _ _ _ => 0%Q) {[10 := 1]} None 9 Hany)).
  exists 1. split; [lia | reflexivity].
Defined.

(** C9, as stated, fails: the histogram [{10: 1}] has a positive count
    and lacks the scores 1..9; the call raises [KeyError] on it, while
    on the completed histogram it returns a value. *)
Lemma bayesian_average_absent_score_counterexample :
  _get_bayesian_average (fun _ _ _ => 0%Q) {[10 := 1]} None 9 = Raise KeyError
  /\ (exists v, _get_bayesian_average (fun _ _ _ => 0%Q)
                  (Spec.completed {[10 := 1]}) None 9 = Ok (Some v))
  /\ _get_bayesian_average (fun _ _ _ => 0%Q) {[10 := 1]} None 9
     <> _get_bayesian_average (fun _ _ _ => 0%Q)
          (Spec.completed {[10 := 1]}) None 9.
Proof.
  split; [vm_compute; reflexivity|].
  split; [eexists; vm_compute; reflexivity|].
  vm_compute. discriminate.
Qed.

End Ratings.




(* ===================================================================== *)
(** * Page walks                                                         *)
(* ===================================================================== *)

Section Ranges.

Lemma range_nil (lo hi : Z) : hi <= lo -> range lo hi = [].
Proof.
  intros H. unfold range.
  replace (Z.to_nat (hi - lo)) with 0%nat by lia. reflexivity.
Qed.

Lemma range_cons (lo hi : Z) : lo < hi -> range lo hi = lo :: range (lo + 1) hi.
Proof.
  intros H. unfold range.
  replace (Z.to_nat (hi - lo)) with (S (Z.to_nat (hi - (lo + 1)))) by lia.
  simpl. f_equal; [lia|].
  rewrite <- seq_shift, map_map. apply map_ext. intros i. lia.
Qed.

Lemma range_snoc (lo hi : Z) : lo <= hi -> range lo (hi + 1) = range lo hi ++ [hi].
Proof.
  intros H. unfold range.
  replace (Z.to_nat (hi + 1 - lo)) with (Z.to_nat (hi - lo) + 1)%nat by lia.
  rewrite seq_app, map_app. simpl. do 2 f_equal. lia.
Qed.

Lemma range_app (lo mid hi : Z) :
  lo <= mid <= hi -> range lo hi = range lo mid ++ range mid hi.
Proof.
  intros H. unfold range.
  replace (Z.to_nat (hi - lo))
    with (Z.to_nat (mid - lo) + Z.to_nat (hi - mid))%nat by lia.
  rewrite seq_app, map_app. f_equal. simpl.
  rewrite <- (Nat.add_0_r (Z.to_nat (mid - lo))) at 1.
  generalize 0%nat at 1 2. generalize (Z.to_nat (hi - mid)).
  induction n as [|n IH]; intros k; simpl; [done|].
  f_equal; [lia|]. rewrite <- IH. f_equal. f_equal. lia.
Qed.

Lemma length_range (lo hi : Z) : length (range lo hi) = Z.to_nat (hi - lo).
Proof. unfold range. by rewrite length_map, length_seq. Qed.

End Ranges.

Section SentinelWalk.

Import Member.

Context {Person : Type}.
Variable request_page : Z -> result (Page Person).

Lemma _get_people_loop_walk (pg : Z -> Page Person) (last : Z) :
  has_next (pg last) = false ->
  forall (m : nat) (page_num : Z) (results : list Person) (log : list Z)
         (fuel : nat),
    Z.to_nat (last - page_num) = m ->
    page_num <= last ->
    (forall k, page_num <= k <= last -> request_page k = Ok (pg k)) ->
    (forall k, page_num <= k < last -> has_next (pg k) = true) ->
    (S m <= fuel)%nat ->
    _get_people_loop Person request_page fuel page_num results log
    = Some (Ok (results ++ concat ((fun k => people (pg k))
                                     <$> range page_num (last + 1))),
            log ++ range page_num (last + 1)).
Proof.
  intros Hlast. induction m as [|m IH];
    intros page_num results log fuel Hm Hle Hreq Hnext Hfuel;
    (destruct fuel as [|fuel]; [lia|]); simpl.
  - assert (page_num = last) as -> by lia.
    rewrite (Hreq last) by lia. rewrite Hlast. simpl.
    rewrite range_cons, range_nil by lia. simpl. by rewrite app_nil_r.
  - rewrite (Hreq page_num) by lia. rewrite (Hnext page_num) by lia. simpl.
    rewrite (IH (page_num + 1)); try lia.
    + rewrite (range_cons page_num) by lia. simpl.
      by rewrite <- !app_assoc.
    + intros k Hk. apply Hreq. lia.
    + intros k Hk. apply Hnext. lia.
Qed.

Lemma _get_people_loop_endless :
  (forall k, 1 <= k -> exists p, request_page k = Ok p /\ has_next p = true) ->
  forall (fuel : nat) (page_num : Z) (results : list Person) (log : list Z),
    1 <= page_num ->
    _get_people_loop Person request_page fuel page_num results log = None.
Proof.
  intros H. induction fuel as [|fuel IH]; intros page_num results log Hp;
    simpl; [done|].
  destruct (H page_num Hp) as (p & -> & ->). simpl. apply IH. lia.
Qed.

(** C6.  [_get_people] walks the listing page by page from page 1: when
    page [last] is the first one without a next link, it requests
    exactly the pages 1, ..., [last], in this order, and returns the
    people of these pages, concatenated in page order; it takes no
    limit, the result is that of the whole walk.  While every page
    shows a next link the walk does not stop. *)
Theorem get_people_sentinel_walk (pg : Z -> Page Person) (last : Z)
    (log : list Z) :
  (1 <= last ->
   (forall k, 1 <= k <= last -> request_page k = Ok (pg k)) ->
   (forall k, 1 <= k < last -> has_next (pg k) = true) ->
   has_next (pg last) = false ->
   forall fuel, (Z.to_nat last <= fuel)%nat ->
     _get_people Person request_page fuel log
     = Some (Ok (concat ((fun k => people (pg k)) <$> range 1 (last + 1))),
             log ++ range 1 (last + 1)))
  /\ ((forall k, 1 <= k -> exists p, request_page k = Ok p /\ has_next p = true) ->
      forall fuel, _get_people Person request_page fuel log = None).
Proof.
  split.
  - intros Hle Hreq Hnext Hlast fuel Hfuel. unfold _get_people.
    rewrite (_get_people_loop_walk pg last Hlast (Z.to_nat (last - 1)));
      try done; lia.
  - intros H fuel. apply (_get_people_loop_endless H). lia.
Qed.

End SentinelWalk.

Section KnownLastPage.

Import Find.

Context {Item : Type}.
Variable request_page : Z -> result (Page Item).

Lemma _get_results_loop_walk (pg : Z -> Page Item) (page_stop : Z) :
  forall (m : nat) (response : Page Item) (page_current : Z)
         (results : list Item) (log : list Z) (fuel : nat),
    Z.to_nat (page_stop - page_current) = m ->
    page_current <= page_stop ->
    (forall k, page_current < k <= page_stop -> request_page k = Ok (pg k)) ->
    (S m <= fuel)%nat ->
    _get_results_loop Item request_page fuel response page_current page_stop
      results log
    = Some (Ok (results ++ results_on_page response
                ++ concat ((fun k => results_on_page (pg k))
                             <$> range (page_current + 1) (page_stop + 1))),
            log ++ range (page_current + 1) (page_stop + 1)).
Proof.
  induction m as [|m IH];
    intros response page_current results log fuel Hm Hle Hreq Hfuel;
    (destruct fuel as [|fuel]; [lia|]); simpl.
  - assert (page_current = page_stop) as -> by lia.
    rewrite Z.eqb_refl, range_nil by lia. simpl. by rewrite !app_nil_r.
  - destruct (Z.eqb_spec page_current page_stop) as [|_]; [lia|].
    rewrite (Hreq (page_current + 1)) by lia.
    rewrite (IH (pg (page_current + 1)) (page_current + 1)); try lia.
    + rewrite (range_cons (page_current + 1)) by lia. simpl.
      by rewrite <- !app_assoc.
    + intros k Hk. apply Hreq. lia.
Qed.

Lemma _get_results_walk (pg : Z -> Page Item) (last : Z) (limit : option Z)
    (log : list Z) (fuel : nat) :
  Spec.known_last_page request_page pg last ->
  let page_stop :=
    if truth limit then Z.min last (ceil_div (default 0 limit) RESULTS_PER_PAGE)
    else last in
  1 <= page_stop ->
  (Z.to_nat page_stop <= fuel)%nat ->
  _get_results Item request_page fuel limit log
  = Some (Ok (if truth limit
              then slice_to (Spec.pages pg 1 (page_stop + 1)) (default 0 limit)
              else Spec.pages pg 1 (page_stop + 1)),
          log ++ range 1 (page_stop + 1)).
Proof.
  intros (Hlast & Hreq & Hannounced) page_stop Hstop Hfuel.
  assert (page_stop <= last) as Hstop'.
  { subst page_stop. destruct (truth limit); lia. }
  unfold _get_results, _get_soup. rewrite (Hreq 1) by lia.
  rewrite Hannounced. fold page_stop.
  rewrite (_get_results_loop_walk pg page_stop (Z.to_nat (page_stop - 1)));
    try lia.
  - unfold Spec.pages. rewrite (range_cons 1 (page_stop + 1)) by lia. simpl.
    by rewrite <- !app_assoc.
  - intros k Hk. apply Hreq. lia.
Qed.

Lemma length_pages (pg : Z -> Page Item) (lo hi : Z) :
  lo <= hi ->
  (forall k, lo <= k < hi ->
     Z.of_nat (length (results_on_page (pg k))) = RESULTS_PER_PAGE) ->
  Z.of_nat (length (Spec.pages pg lo hi)) = RESULTS_PER_PAGE * (hi - lo).
Proof.
  intros Hle Hsize. unfold Spec.pages, RESULTS_PER_PAGE in *.
  remember (Z.to_nat (hi - lo)) as m eqn:Hm.
  revert lo Hle Hsize Hm. induction m as [|m IH]; intros lo Hle Hsize Hm.
  - rewrite range_nil by lia. simpl. lia.
  - rewrite range_cons by lia. simpl. rewrite length_app, Nat2Z.inj_add.
    rewrite (Hsize lo) by lia. rewrite IH; try lia.
    intros k Hk. apply Hsize. lia.
Qed.

Lemma ceil_div_bounds (n : Z) :
  0 < n ->
  1 <= ceil_div n RESULTS_PER_PAGE
  /\ n <= RESULTS_PER_PAGE * ceil_div n RESULTS_PER_PAGE.
Proof.
  intros Hn. unfold ceil_div, RESULTS_PER_PAGE.
  pose proof (Z.div_mod (- n) 20 ltac:(lia)).
  pose proof (Z.mod_pos_bound (- n) 20 ltac:(lia)). lia.
Qed.

(** X1.  [_get_results] with a positive limit [n] on a search of [last] pages
    of [RESULTS_PER_PAGE] results each: the first [n] results of the
    listing (all of them when there are fewer), after requests for the
    pages 1, ..., [min last (ceil (n / RESULTS_PER_PAGE))] and no other. *)
Lemma get_results_positive_limit (pg : Z -> Page Item) (last n : Z)
    (log : list Z) (fuel : nat) :
  Spec.known_last_page request_page pg last ->
  (forall k, 1 <= k <= last ->
     Z.of_nat (length (results_on_page (pg k))) = RESULTS_PER_PAGE) ->
  0 < n ->
  (Z.to_nat last <= fuel)%nat ->
  let page_stop := Z.min last (ceil_div n RESULTS_PER_PAGE) in
  _get_results Item request_page fuel (Some n) log
  = Some (Ok (take (Z.to_nat n) (Spec.pages pg 1 (last + 1))),
          log ++ range 1 (page_stop + 1))
  /\ Z.of_nat (length (take (Z.to_nat n) (Spec.pages pg 1 (last + 1))))
     = Z.min n (last * RESULTS_PER_PAGE).
Proof.
  intros Hknown Hsize Hn Hfuel page_stop.
  pose proof (ceil_div_bounds n Hn) as [Hc1 Hc2].
  assert (1 <= last) as Hlast by apply Hknown.
  pose proof (length_pages pg 1 (last + 1) ltac:(lia)
                ltac:(intros k Hk; apply Hsize; lia)) as Hlen.
  split.
  - rewrite (_get_results_walk pg last (Some n) log fuel Hknown).
    + assert (truth (Some n) = true) as ->.
      { simpl. apply negb_true_iff, Z.eqb_neq. lia. }
      simpl. fold page_stop. f_equal. f_equal. f_equal.
      unfold slice_to. destruct (Z.ltb_spec n 0) as [|_]; [lia|].
      unfold Spec.pages.
      rewrite (range_app 1 (page_stop + 1) (last + 1)) by lia.
      rewrite fmap_app, concat_app.
      destruct (decide (page_stop = last)) as [->|Hne].
      * rewrite (range_nil (last + 1)) by lia. simpl. by rewrite app_nil_r.
      * symmetry. apply take_app_le.
        pose proof (length_pages pg 1 (page_stop + 1) ltac:(lia)
                      ltac:(intros k Hk; apply Hsize; lia)) as Hlen'.
        unfold Spec.pages in Hlen'. lia.
    + assert (truth (Some n) = true) as ->.
      { simpl. apply negb_true_iff, Z.eqb_neq. lia. }
      simpl. lia.
    + assert (truth (Some n) = true) as ->.
      { simpl. apply negb_true_iff, Z.eqb_neq. lia. }
      simpl. lia.
  - rewrite length_take. unfold RESULTS_PER_PAGE in *. lia.
Qed.

(** X2.  With no limit every page is requested and every result
    returned. *)
Lemma get_results_no_limit (pg : Z -> Page Item) (last : Z)
    (log : list Z) (fuel : nat) :
  Spec.known_last_page request_page pg last ->
  (Z.to_nat last <= fuel)%nat ->
  _get_results Item request_page fuel None log
  = Some (Ok (Spec.pages pg 1 (last + 1)), log ++ range 1 (last + 1)).
Proof.
  intros Hknown Hfuel.
  assert (1 <= last) as Hlast by apply Hknown.
  by rewrite (_get_results_walk pg last None log fuel Hknown).
Qed.

(** C2 at the limit 0.  The test [if limit] takes the limit 0 for no
    limit: on a search of [last] pages, [_get_results] with limit 0
    requests every page 1, ..., [last] and returns all their results,
    not the empty list after one request. *)
Theorem get_results_limit_zero (pg : Z -> Page Item) (last : Z)
    (log : list Z) (fuel : nat) :
  Spec.known_last_page request_page pg last ->
  (Z.to_nat last <= fuel)%nat ->
  _get_results Item request_page fuel (Some 0) log
  = Some (Ok (Spec.pages pg 1 (last + 1)), log ++ range 1 (last + 1)).
Proof.
  intros Hknown Hfuel.
  assert (1 <= last) as Hlast by apply Hknown.
  by rewrite (_get_results_walk pg last (Some 0) log fuel Hknown).
Qed.

End KnownLastPage.


(* ===================================================================== *)
(** * Response classification                                            *)
(* ===================================================================== *)

Section Classification.

Import Session Session.LetterboxdResponseDict.

(** An error code that is a non-empty string makes [ok] false, whatever
    the transport status and the result. *)
Lemma ok_false_of_error (self : t) (code : string) :
  error self = VStr code -> code <> EmptyString -> ok self = false.
Proof.
  intros He Hne. unfold ok. rewrite He.
  destruct (negb (response_ok _)); [done|].
  destruct (_ && _); [done|].
  simpl. by rewrite bool_decide_eq_false_2.
Qed.

(** The dict that [get_letterboxd_response_dict] returns has [None]
    under the key [error], whatever the payload said. *)
Lemma response_dict_error_None (response : Response) (d : gmap string value) :
  get_letterboxd_response_dict response = Ok d ->
  d !! "error"%string = Some VNone.
Proof.
  unfold get_letterboxd_response_dict, _get_letterboxd_errors.
  destruct (body_error response); simpl; [discriminate|].
  intros [= <-]. apply lookup_insert_eq.
Qed.

Lemma classification_never_forbidden (response : Response) :
  __init__ response <> Raise PageForbiddenError
  /\ __init__ response <> Raise PageNotFound.
Proof.
  unfold __init__.
  destruct (get_letterboxd_response_dict response) as [d|e] eqn:E; simpl.
  - pose proof (response_dict_error_None response d E) as Herr.
    unfold raise_errors, error, get. simpl. rewrite Herr. simpl.
    destruct (ok _); simpl; [split; discriminate|].
    destruct (has_response_dict _); simpl; [split; discriminate|].
    unfold raise_for_status. destruct (_ && _); simpl; split; discriminate.
  - revert E. unfold get_letterboxd_response_dict, _get_letterboxd_errors.
    destruct (body_error response); simpl; [|discriminate].
    intros [= <-]. split; discriminate.
Qed.

(** C1 on the payload of the specification.  The response with HTTP
    status 200 and the payload [{"result": "error", "error":
    "forbidden"}] is classified as failed, but the error code of the
    payload is overwritten by the result of the markup scan before the
    error is chosen: the call raises the generic [LetterboxdError], and
    no response at all makes it raise [PageForbiddenError].  With the
    payload [{"error": "forbidden"}] alone the response even counts as
    successful. *)
Theorem forbidden_payload_raises_generic_error :
  response_ok Samples.forbidden_response = true
  /\ __init__ Samples.forbidden_response = Raise LetterboxdError
  /\ (forall response, __init__ response <> Raise PageForbiddenError)
  /\ exists self, __init__ Samples.error_only_response = Ok self
                  /\ ok self = true.
Proof.
  split; [reflexivity|]. split; [vm_compute; reflexivity|].
  split; [intros response; apply classification_never_forbidden|].
  eexists. split; vm_compute; reflexivity.
Qed.

End Classification.

(* ===================================================================== *)
(** * The request gateway                                                *)
(* ===================================================================== *)

Section GatewayFacts.

Import Session.

Context {Server : Type}.
Variable site : Server -> HttpRequest -> Reply * Server * N.

Lemma save_session_inv {A} (func : M Server A) (st st' : State Server)
    (r : result A) :
  save_session func st = (r, st') ->
  match r with
  | Ok a => exists st1, func st = (Ok a, st1) /\ st' = Spec.saved st1
  | Raise e => func st = (Raise e, st')
  end.
Proof.
  unfold save_session, bind, save, ret.
  destruct (func st) as [[a|e] st1]; intros [= <- <-]; [|done].
  by exists st1.
Qed.

Lemma super_request_world (method url : string) (data : gmap string value)
    (st st' : State Server) (r : result Response) :
  super_request site method url data st = (r, st') ->
  cache (world st') = cache (world st)
  /\ clock (world st) <= clock (world st')
  /\ login_credentials (self st') = login_credentials (self st).
Proof.
  unfold super_request.
  destruct (site _ _) as [[reply server'] elapsed].
  destruct reply; intros [= <- <-]; simpl; repeat split; lia.
Qed.

Lemma request_body_world (method suburl : string) (data : gmap string value)
    (st st' : State Server) (r : result Response) :
  request_body site method suburl data st = (r, st') ->
  cache (world st') = cache (world st)
  /\ clock (world st) <= clock (world st')
  /\ login_credentials (self st') = login_credentials (self st).
Proof.
  unfold request_body, bind.
  destruct (super_request _ _ _ _ _) as [[response|e] st1] eqn:E;
    apply super_request_world in E.
  - unfold lift, ret. destruct (LetterboxdResponseDict.__init__ response);
      by intros [= <- <-].
  - by intros [= <- <-].
Qed.

Lemma request_cache_after (method suburl : string) (data : gmap string value)
    (st st' : State Server) (r : result Response) :
  request site method suburl data st = (r, st') ->
  match r with
  | Ok _ => exists st1,
      request_body site method suburl data st = (r, st1)
      /\ st' = Spec.saved st1
  | Raise _ => cache (world st') = cache (world st)
  end.
Proof.
  intros H. apply save_session_inv in H. destruct r as [response|e].
  - exact H.
  - by apply request_body_world in H as [H _].
Qed.

(** C4 (as the code has it).  A request that returns its response
    leaves the session pickled in the cache file as it is after the
    request, with the time of the write; a request that raises (no
    reply, or an error raised by the classification) leaves the cache
    file as it was before the request. *)
Theorem request_persists_on_return (method suburl : string)
    (data : gmap string value) (st st' : State Server) (r : result Response) :
  request site method suburl data st = (r, st') ->
  match r with
  | Ok _ =>
      cache (world st')
      = Some {| content := Some (self st'); mtime := clock (world st') |}
  | Raise _ => cache (world st') = cache (world st)
  end.
Proof.
  intros H. apply request_cache_after in H. destruct r as [response|e].
  - destruct H as (st1 & _ & ->). reflexivity.
  - exact H.
Qed.

Lemma request_inv (method suburl : string) (data : gmap string value)
    (st st' : State Server) (response : Response) :
  request site method suburl data st = (Ok response, st') ->
  cache (world st')
  = Some {| content := Some (self st'); mtime := clock (world st') |}
  /\ clock (world st) <= clock (world st').
Proof.
  intros H. apply request_cache_after in H as (st1 & H & ->).
  split; [reflexivity|].
  by apply request_body_world in H as (_ & H & _).
Qed.

(** ** The anti-forgery token *)

Lemma csrf_token_not_empty (s : LunaboxdSession) : csrf_token s <> ∅.
Proof. unfold csrf_token. apply insert_non_empty. Qed.

(** [_make_data] never takes its first branch: the token dict always
    has its one key. *)
Lemma _make_data_merges (s : LunaboxdSession) (data : gmap string value) :
  _make_data s data = data ∪ csrf_token s.
Proof.
  unfold _make_data.
  by rewrite (bool_decide_eq_false_2 _ (csrf_token_not_empty s)).
Qed.

(** X14.  With a token cookie in the jar and data that names no token
    of its own, [_make_data] returns the data of the caller with the
    item [__csrf] set to the token, and set to [None] when the value of
    the cookie is the empty string, for which the jar returns [None]. *)
Lemma _make_data_known_token (s : LunaboxdSession) (data : gmap string value)
    (token : string) :
  cookies s !! cookie_name_csrf = Some token ->
  data !! "__csrf"%string = None ->
  _make_data s data
  = <["__csrf"%string := if bool_decide (token = EmptyString) then VNone
                         else VStr token]> data.
Proof.
  intros Htok Hdata. rewrite _make_data_merges. unfold csrf_token, cookies_get.
  rewrite Htok.
  apply map_eq. intros k. rewrite lookup_union.
  destruct (decide (k = "__csrf"%string)) as [->|Hne].
  - rewrite Hdata, lookup_insert_eq, lookup_singleton_eq.
    by destruct (bool_decide (token = EmptyString)).
  - rewrite lookup_insert_ne, lookup_singleton_ne by done.
    by destruct (data !! k).
Qed.



(** ** The fields of the body *)





(** ** The base origin *)

(** A path that starts with the origin is requested at the same URL as
    the path without it. *)
Lemma startswith_app (old s : string) : startswith (old +:+ s) old = true.
Proof.
  induction old as [|c old IH]; simpl; [done|].
  by rewrite bool_decide_eq_true_2, IH.
Qed.

Lemma replace_from_skip (old new x s : string) :
  replace_from old new (x +:+ s) (String.length x) = replace_from old new s 0.
Proof. induction x as [|c x IH]; simpl; [done|exact IH]. Qed.

Lemma replace_leading (old new s : string) :
  old <> EmptyString ->
  replace (old +:+ s) old new = (new +:+ replace s old new)%string.
Proof.
  intros Hne. destruct old as [|c old]; [done|].
  unfold replace.
  change (String c old +:+ s)%string with (String c (old +:+ s)).
  cbn [replace_from].
  change (String c (old +:+ s)) with (String c old +:+ s)%string.
  rewrite startswith_app.
  change (String.length (String c old) - 1)%nat with (String.length old - 0)%nat.
  by rewrite Nat.sub_0_r, replace_from_skip.
Qed.

Lemma origin_stripped (path : string) :
  (URL_MAIN +:+ replace (URL_MAIN +:+ path) URL_MAIN EmptyString)%string
  = (URL_MAIN +:+ replace path URL_MAIN EmptyString)%string.
Proof. by rewrite replace_leading. Qed.

(** The URL and the fields of the request that reaches the site. *)
Lemma request_body_sends (method suburl : string) (data : gmap string value)
    (st : State Server) :
  exists r st',
    request_body site method suburl data st = (r, st')
    /\ server (world st')
       = (site (server (world st))
            {| method := method;
               req_url := (URL_MAIN +:+ replace suburl URL_MAIN EmptyString)%string;
               data := encode_params (data ∪ csrf_token (self st));
               req_cookies := cookies (self st) |}).1.2.
Proof.
  unfold request_body, bind, super_request. rewrite _make_data_merges.
  destruct (site _ _) as [[reply server'] elapsed]. simpl.
  destruct reply as [|response set_cookies]; simpl; [by eauto|].
  unfold lift, ret. destruct (LetterboxdResponseDict.__init__ response); eauto.
Qed.

Lemma request_server (method suburl : string) (data : gmap string value)
    (st : State Server) :
  server (world (request site method suburl data st).2)
  = (site (server (world st))
       {| method := method;
          req_url := (URL_MAIN +:+ replace suburl URL_MAIN EmptyString)%string;
          data := encode_params (_make_data (self st) data);
          req_cookies := cookies (self st) |}).1.2.
Proof.
  unfold request, save_session, request_body, bind, super_request.
  destruct (site _ _) as [[reply server'] elapsed]. simpl.
  destruct reply as [|response set_cookies]; simpl; [done|].
  unfold lift, ret.
  by destruct (LetterboxdResponseDict.__init__ response).
Qed.

(** The errors a request ends with: no reply, the [AttributeError] of
    the error body, the error of the transport status, or the generic
    error of the site.  The classes [PageNotFound] and
    [PageForbiddenError] are not among them. *)
Lemma request_raises (method suburl : string) (data : gmap string value)
    (st : State Server) (e : exn) :
  (request site method suburl data st).1 = Raise e ->
  e = ConnectionError \/ e = AttributeError \/ e = HTTPError
  \/ e = LetterboxdError.
Proof.
  unfold request, save_session, request_body, bind, super_request.
  destruct (site _ _) as [[reply server'] elapsed]. simpl.
  destruct reply as [|response set_cookies]; simpl; [intros [= <-]; auto|].
  unfold lift, ret.
  destruct (LetterboxdResponseDict.__init__ response) as [d|e'] eqn:E; simpl;
    [done|].
  intros [= ->]. revert E.
  unfold LetterboxdResponseDict.__init__,
    LetterboxdResponseDict.get_letterboxd_response_dict,
    LetterboxdResponseDict._get_letterboxd_errors,
    LetterboxdResponseDict.raise_errors, raise_for_status.
  destruct (body_error response); simpl; [intros [= <-]; auto|].
  unfold LetterboxdResponseDict.error, LetterboxdResponseDict.get. simpl.
  rewrite lookup_insert_eq. simpl.
  repeat (match goal with
          | |- context [if ?b then _ else _] => destruct b
          end; simpl; try done);
    intros [= <-]; auto.
Qed.


End GatewayFacts.


(* ===================================================================== *)
(** * The session cache                                                  *)
(* ===================================================================== *)

Section Cache.

Import Session.

Context {Server : Type}.
Variable site : Server -> HttpRequest -> Reply * Server * N.
Variable operator : Credentials.

(** When the check answers [True] its request has returned, so the
    session has just been written to the cache file. *)
Lemma logged_in_check_true (st st' : State Server) :
  logged_in_check site st = (Ok true, st') ->
  cache (world st')
  = Some {| content := Some (self st'); mtime := clock (world st') |}
  /\ clock (world st) <= clock (world st').
Proof.
  unfold logged_in_check, bind, get_username.
  destruct (login_credentials (self st)) as [c|]; [|simpl; discriminate].
  destruct (request site "GET" _ ∅ st) as [[response|e] st1] eqn:E.
  - apply request_inv in E.
    destruct (login_credentials (self st1)); [|discriminate].
    unfold ret. by intros [= _ <-].
  - destruct (isinstance e AttributeError); [discriminate|].
    destruct (isinstance e PageNotFound); discriminate.
Qed.

Lemma load_intact (w : World Server) (pf : CacheFile) (s : LunaboxdSession) :
  cache w = Some pf -> content pf = Some s ->
  load site operator w
  = match logged_in_check site {| self := s; world := w |} with
    | (Raise e, st) => (Raise e, world st)
    | (Ok false, st) => __init__ site operator (world st)
    | (Ok true, st) => (Ok (self st), world st)
    end.
Proof.
  intros Hc Hp. unfold load. rewrite Hc, Hp.
  destruct (logged_in_check _ _) as [[[|]|e] st] eqn:E; try reflexivity.
  apply logged_in_check_true in E as [E Hclock]. rewrite E. simpl in *.
  destruct (Z.ltb_spec (clock w - 3600) (clock (world st))); [reflexivity|lia].
Qed.

(** C3 (as the code has it).  [load] builds a fresh session, by the
    constructor (baseline request, then login), when the cache file is
    absent and when the unpickled session fails the logged-in check; a
    cache file that does not unpickle makes [load] raise the error of
    the unpickling; a cache file that is present, intact, written
    within the last hour and passes the check gives back the unpickled
    session; and the unpickled session is given back only if the file
    was present and intact and the session passed the check. *)
Theorem load_cases (w : World Server) :
  (cache w = None -> load site operator w = __init__ site operator w)
  /\ (forall pf, cache w = Some pf -> content pf = None ->
        load site operator w = (Raise UnpicklingError, w))
  /\ (forall pf s st,
        cache w = Some pf -> content pf = Some s ->
        logged_in_check site {| self := s; world := w |} = (Ok false, st) ->
        load site operator w = __init__ site operator (world st))
  /\ (forall pf s st,
        cache w = Some pf -> content pf = Some s ->
        clock w - 3600 < mtime pf ->
        logged_in_check site {| self := s; world := w |} = (Ok true, st) ->
        load site operator w = (Ok (self st), world st))
  /\ (forall s' w',
        load site operator w = (Ok s', w') ->
        (exists w0, __init__ site operator w0 = (Ok s', w'))
        \/ (exists pf s st,
              cache w = Some pf /\ content pf = Some s
              /\ logged_in_check site {| self := s; world := w |} = (Ok true, st)
              /\ s' = self st /\ w' = world st)).
Proof.
  repeat split.
  - intros Hc. unfold load. by rewrite Hc.
  - intros pf Hc Hp. unfold load. by rewrite Hc, Hp.
  - intros pf s st Hc Hp Hcheck. by rewrite (load_intact w pf s Hc Hp), Hcheck.
  - intros pf s st Hc Hp _ Hcheck. by rewrite (load_intact w pf s Hc Hp), Hcheck.
  - intros s' w' Hload.
    destruct (cache w) as [pf|] eqn:Hc.
    + destruct (content pf) as [s|] eqn:Hp.
      * rewrite (load_intact w pf s Hc Hp) in Hload.
        destruct (logged_in_check _ _) as [[[|]|e] st] eqn:E.
        -- right. exists pf, s, st. by injection Hload as <- <-.
        -- left. by exists (world st).
        -- discriminate.
      * unfold load in Hload. rewrite Hc, Hp in Hload. discriminate.
    + left. exists w. unfold load in Hload. by rewrite Hc in Hload.
Qed.

(** X12.  The age test of [load] cannot fail: the request of the check has
    rewritten the file by the time its age is read.  A cache file
    older than one hour whose session passes the check is given back as
    well. *)
Lemma load_stale_verified (w : World Server) (pf : CacheFile)
    (s : LunaboxdSession) (st : State Server) :
  cache w = Some pf -> content pf = Some s ->
  mtime pf <= clock w - 3600 ->
  logged_in_check site {| self := s; world := w |} = (Ok true, st) ->
  load site operator w = (Ok (self st), world st).
Proof.
  intros Hc Hp _ Hcheck. by rewrite (load_intact w pf s Hc Hp), Hcheck.
Qed.

End Cache.

(* ===================================================================== *)
(** * The statements on the sample inputs                                *)
(* ===================================================================== *)

Section OnSamples.

Import Session Samples.

Lemma known_last_page_search : Spec.known_last_page search search_page 2.
Proof.
  split; [lia|]. split; [|reflexivity].
  intros k [H1 H2]. unfold search.
  apply Z.leb_le in H1, H2. by rewrite H1, H2.
Defined.

Lemma get_results_limit_zero_witness :
  Find._get_results Z search 2 (Some 0) []
  = Some (Ok (Spec.pages search_page 1 3), [1; 2]).
Proof.
  exact (get_results_limit_zero search search_page 2 [] 2
           known_last_page_search (le_n 2)).
Defined.

Lemma get_people_sentinel_walk_witness :
  Member._get_people string followers 3 []
  = Some (Ok ["ada"; "bob"; "cy"; "dee"; "eve"]%string, [1; 2; 3]).
Proof.
  apply (proj1 (get_people_sentinel_walk followers followers_page 3 [])).
  - lia.
  - reflexivity.
  - intros k [_ Hk]. apply Z.ltb_lt in Hk. exact Hk.
  - reflexivity.
  - apply le_n.
Defined.

(** C4, as stated, fails: the request below is answered by a bare 404;
    the call raises, the reply has set the anti-forgery cookie of the
    session, and no cache file has been written. *)
Lemma request_raise_not_persisted_counterexample :
  (request recording_site "GET" "nobody/" ∅ (first_request (world_with None))).1
  = Raise HTTPError
  /\ cookies (self (request recording_site "GET" "nobody/" ∅
                      (first_request (world_with None))).2)
     !! cookie_name_csrf = Some "t0k3n"%string
  /\ cache (world (request recording_site "GET" "nobody/" ∅
                     (first_request (world_with None))).2) = None.
Proof. repeat split; vm_compute; reflexivity. Qed.

Lemma request_persists_on_return_witness :
  cache (world (request recording_site "GET" EmptyString ∅
                  (first_request (world_with None))).2)
  = Some {| content :=
              Some (self (request recording_site "GET" EmptyString ∅
                            (first_request (world_with None))).2);
            mtime := clock (world (request recording_site "GET" EmptyString ∅
                                     (first_request (world_with None))).2) |}.
Proof.
  apply (request_persists_on_return recording_site "GET" EmptyString ∅
           (first_request (world_with None))
           (request recording_site "GET" EmptyString ∅
              (first_request (world_with None))).2
           (Ok (page_for "luna"))).
  vm_compute. reflexivity.
Defined.

(** C3, as stated, fails: with a cache file that does not unpickle
    [load] raises, where the constructor would have built a session. *)
Lemma load_corrupt_cache_counterexample :
  (load recording_site luna (world_with (Some corrupt_cache))).1
  = Raise UnpicklingError
  /\ (exists s, (__init__ recording_site luna
                   (world_with (Some corrupt_cache))).1 = Ok s)
  /\ load recording_site luna (world_with (Some corrupt_cache))
     <> __init__ recording_site luna (world_with (Some corrupt_cache)).
Proof.
  split; [reflexivity|]. split; [eexists; vm_compute; reflexivity|].
  intros H. apply (f_equal fst) in H. vm_compute in H. discriminate.
Qed.

Lemma load_cases_witness :
  load recording_site luna (world_with None)
  = __init__ recording_site luna (world_with None)
  /\ load recording_site luna (world_with (Some (fresh_cache mia)))
     = __init__ recording_site luna
         (world (logged_in_check recording_site
                   {| self := pickled mia;
                      world := world_with (Some (fresh_cache mia)) |}).2)
  /\ load recording_site luna (world_with (Some (fresh_cache luna)))
     = (Ok (self (logged_in_check recording_site
                    {| self := pickled luna;
                       world := world_with (Some (fresh_cache luna)) |}).2),
        world (logged_in_check recording_site
                 {| self := pickled luna;
                    world := world_with (Some (fresh_cache luna)) |}).2).
Proof.
  split; [|split].
  - apply (proj1 (load_cases recording_site luna (world_with None))).
    reflexivity.
  - apply (proj1 (proj2 (proj2
             (load_cases recording_site luna
                (world_with (Some (fresh_cache mia))))))
             (fresh_cache mia) (pickled mia));
      [reflexivity | reflexivity | vm_compute; reflexivity].
  - apply (proj1 (proj2 (proj2 (proj2
             (load_cases recording_site luna
                (world_with (Some (fresh_cache luna)))))))
             (fresh_cache luna) (pickled luna));
      [reflexivity | reflexivity | vm_compute; reflexivity
      | vm_compute; reflexivity].
Defined.

(** The fresh session of [load]: one GET of the home page for the
    baseline cookies, then the POST of the credentials, which carries
    the token that the first reply has set. *)
Lemma fresh_session_sample :
  exists s w,
    load recording_site luna (world_with None) = (Ok s, w)
    /\ login_credentials s = Some luna
    /\ (fun r => (method r, req_url r)) <$> server w
       = [("GET", "https://letterboxd.com/");
          ("POST", "https://letterboxd.com/user/login.do/")]%string
    /\ (fun r => data r !! "__csrf"%string) <$> server w
       = [None; Some [VStr "t0k3n"]].
Proof. do 2 eexists. repeat split; vm_compute; reflexivity. Qed.

(** The sample of the age test: the stale cache file of [luna] is given
    back, its session passing the check. *)
Lemma load_stale_cache_sample :
  exists s w,
    load recording_site luna (world_with (Some (stale_cache luna))) = (Ok s, w)
    /\ login_credentials s = Some luna
    /\ cookies s !! cookie_name_csrf = Some "t0k3n"%string
    /\ length (server w) = 1%nat.
Proof. do 2 eexists. repeat split; vm_compute; reflexivity. Qed.

(** The first request of a session: no token is known yet, the request
    reaches the site without any field. *)
Lemma first_request_sample :
  server (world (request recording_site "GET" EmptyString ∅
                   (first_request (world_with None))).2)
  = [ {| method := "GET";
         req_url := "https://letterboxd.com/";
         data := ∅;
         req_cookies := ∅ |} ].
Proof. vm_compute. reflexivity. Qed.


End OnSamples.

(* ===================================================================== *)
(** * More on the search walk                                            *)
(* ===================================================================== *)

Section MoreSearch.

Import Find.

Context {Item : Type}.
Variable request_page : Z -> result (Page Item).

(** X3.  The "no results" branch of [_get_soup] is not reached through
    the gateway: a request never raises [PageNotFound], the error this
    branch catches; and every other error of the request for the first
    page, those of the gateway among them, is raised by [_get_results]
    after this one request, whatever the limit. *)
Theorem get_results_first_page_error {Server : Type}
    (site : Server -> Session.HttpRequest -> Session.Reply * Server * N) :
  (forall method suburl data st,
     (Session.request site method suburl data st).1 <> Raise PageNotFound)
  /\ (forall e limit log fuel,
        request_page 1 = Raise e -> e <> PageNotFound ->
        _get_results Item request_page fuel limit log
        = Some (Raise e, log ++ [1])).
Proof.
  split.
  - intros method suburl data st H.
    by destruct (request_raises site method suburl data st PageNotFound H)
      as [?|[?|[?|?]]].
  - intros e limit log fuel H He. unfold _get_results, _get_soup. rewrite H.
    by destruct e.
Qed.

Lemma _get_results_loop_raise (pg : Z -> Page Item) (page_stop k : Z) (e : exn) :
  request_page k = Raise e ->
  k <= page_stop ->
  forall (m : nat) (response : Page Item) (page_current : Z)
         (results : list Item) (log : list Z) (fuel : nat),
    Z.to_nat (k - 1 - page_current) = m ->
    page_current < k ->
    (forall j, page_current < j < k -> request_page j = Ok (pg j)) ->
    (S m <= fuel)%nat ->
    _get_results_loop Item request_page fuel response page_current page_stop
      results log
    = Some (Raise e, log ++ range (page_current + 1) (k + 1)).
Proof.
  intros Hk Hstop. induction m as [|m IH];
    intros response page_current results log fuel Hm Hlt Hreq Hfuel;
    (destruct fuel as [|fuel]; [lia|]); simpl;
    (destruct (Z.eqb_spec page_current page_stop) as [|_]; [lia|]).
  - assert (page_current + 1 = k) as -> by lia. rewrite Hk.
    by rewrite range_cons, range_nil by lia.
  - rewrite (Hreq (page_current + 1)) by lia.
    rewrite (IH (pg (page_current + 1)) (page_current + 1)); try lia.
    + rewrite (range_cons (page_current + 1)) by lia. simpl.
      by rewrite <- !app_assoc.
    + intros j Hj. apply Hreq. lia.
Qed.

(** X4.  Only the first page may be missing: when the pages before page
    [k >= 2] are served and the request for page [k], a page the walk
    has to read, raises an error, [PageNotFound] included,
    [_get_results] raises this error after the requests for the pages
    1, ..., [k]; the results read so far are lost. *)
Theorem get_results_later_page_raises (pg : Z -> Page Item) (limit : option Z)
    (k : Z) (e : exn) (log : list Z) (fuel : nat) :
  (forall j, 1 <= j < k -> request_page j = Ok (pg j)) ->
  request_page k = Raise e ->
  2 <= k ->
  k <= (if truth limit
        then Z.min (get_last_page (pg 1))
                   (ceil_div (default 0 limit) RESULTS_PER_PAGE)
        else get_last_page (pg 1)) ->
  (Z.to_nat k <= fuel)%nat ->
  _get_results Item request_page fuel limit log
  = Some (Raise e, log ++ range 1 (k + 1)).
Proof.
  intros Hreq Hk Hk2 Hstop Hfuel.
  unfold _get_results, _get_soup. rewrite (Hreq 1) by lia.
  rewrite (_get_results_loop_raise pg _ k e Hk Hstop (Z.to_nat (k - 2)));
    try lia.
  - rewrite (range_cons 1 (k + 1)) by lia. simpl. by rewrite <- !app_assoc.
  - intros j Hj. apply Hreq. lia.
Qed.

Lemma _get_results_loop_past_stop (page_stop : Z) :
  forall (fuel : nat) (response : Page Item) (page_current : Z)
         (results : list Item) (log : list Z) r log',
    page_stop < page_current ->
    _get_results_loop Item request_page fuel response page_current page_stop
      results log = Some (r, log') ->
    exists e, r = Raise e.
Proof.
  induction fuel as [|fuel IH];
    intros response page_current results log r log' Hlt; simpl; [done|].
  destruct (Z.eqb_spec page_current page_stop) as [|_]; [lia|].
  destruct (request_page (page_current + 1)) as [response'|e].
  - apply IH. lia.
  - intros [= <- _]. by exists e.
Qed.

(** X5.  A negative limit never gives a result: the page to stop at is
    then at most 0, so with a first page that is served the walk goes
    on from page to page until a request raises; whenever
    [_get_results] ends, it ends with an error. *)
Theorem get_results_negative_limit (p : Page Item) (n : Z) (log : list Z)
    (fuel : nat) r log' :
  request_page 1 = Ok p ->
  n < 0 ->
  _get_results Item request_page fuel (Some n) log = Some (r, log') ->
  exists e, r = Raise e.
Proof.
  intros Hp Hn. unfold _get_results, _get_soup. rewrite Hp.
  assert (truth (Some n) = true) as ->.
  { simpl. apply negb_true_iff, Z.eqb_neq. lia. }
  simpl.
  destruct (_get_results_loop _ _ _ _ _ _ _ _) as [[r0 log0]|] eqn:E; [|done].
  apply _get_results_loop_past_stop in E as [e ->]; [intros [= <- _]; eauto|].
  unfold ceil_div, RESULTS_PER_PAGE.
  pose proof (Z.div_mod (- n) 20 ltac:(lia)).
  pose proof (Z.mod_pos_bound (- n) 20 ltac:(lia)). lia.
Qed.

(** X6.  A limit of 1 to [RESULTS_PER_PAGE], the default limit 20
    included, costs one request: [_get_results] returns the first
    [limit] results of the first page and requests no other page,
    however many pages the search has. *)
Theorem get_results_one_page_limit (p : Page Item) (n : Z) (log : list Z)
    (fuel : nat) :
  request_page 1 = Ok p ->
  1 <= get_last_page p ->
  0 < n <= RESULTS_PER_PAGE ->
  (1 <= fuel)%nat ->
  _get_results Item request_page fuel (Some n) log
  = Some (Ok (take (Z.to_nat n) (results_on_page p)), log ++ [1]).
Proof.
  intros Hp Hlast Hn Hfuel. unfold _get_results, _get_soup. rewrite Hp.
  assert (truth (Some n) = true) as ->.
  { simpl. apply negb_true_iff, Z.eqb_neq. lia. }
  assert (ceil_div n RESULTS_PER_PAGE = 1) as Hc.
  { unfold ceil_div, RESULTS_PER_PAGE in *.
    pose proof (Z.div_mod (- n) 20 ltac:(lia)).
    pose proof (Z.mod_pos_bound (- n) 20 ltac:(lia)). lia. }
  simpl. rewrite Hc. replace (Z.min (get_last_page p) 1) with 1 by lia.
  destruct fuel as [|fuel]; [lia|]. simpl.
  unfold slice_to. destruct (Z.ltb_spec n 0) as [|_]; [lia|]. reflexivity.
Qed.

End MoreSearch.

Section MorePeople.

Import Member.

Context {Person : Type}.
Variable request_page : Z -> result (Page Person).

Lemma _get_people_loop_raise (pg : Z -> Page Person) (k : Z) (e : exn) :
  request_page k = Raise e ->
  forall (m : nat) (page_num : Z) (results : list Person) (log : list Z)
         (fuel : nat),
    Z.to_nat (k - page_num) = m ->
    page_num <= k ->
    (forall j, page_num <= j < k ->
       request_page j = Ok (pg j) /\ has_next (pg j) = true) ->
    (S m <= fuel)%nat ->
    _get_people_loop Person request_page fuel page_num results log
    = Some (Raise e, log ++ range page_num (k + 1)).
Proof.
  intros Hk. induction m as [|m IH];
    intros page_num results log fuel Hm Hle Hreq Hfuel;
    (destruct fuel as [|fuel]; [lia|]); simpl.
  - assert (page_num = k) as -> by lia. rewrite Hk.
    by rewrite range_cons, range_nil by lia.
  - destruct (Hreq page_num ltac:(lia)) as [-> ->]. simpl.
    rewrite (IH (page_num + 1)); try lia.
    + rewrite (range_cons page_num) by lia. simpl. by rewrite <- !app_assoc.
    + intros j Hj. apply Hreq. lia.
Qed.

(** X7.  [_get_people] gives all or nothing: when the pages before page
    [k] are served and show a next link and the request for page [k]
    raises, the call raises this error after the requests for the pages
    1, ..., [k], and the people read so far are lost. *)
Theorem get_people_page_raises (pg : Z -> Page Person) (k : Z) (e : exn)
    (log : list Z) (fuel : nat) :
  1 <= k ->
  (forall j, 1 <= j < k -> request_page j = Ok (pg j) /\ has_next (pg j) = true) ->
  request_page k = Raise e ->
  (Z.to_nat k <= fuel)%nat ->
  _get_people Person request_page fuel log
  = Some (Raise e, log ++ range 1 (k + 1)).
Proof.
  intros Hk1 Hreq Hk Hfuel. unfold _get_people.
  apply (_get_people_loop_raise pg k e Hk (Z.to_nat (k - 1))); try lia.
  exact Hreq.
Qed.

End MorePeople.

(* ===================================================================== *)
(** * More on the session                                                *)
(* ===================================================================== *)

Section MoreClassification.

Import Session Session.LetterboxdResponseDict.

Lemma has_response_dict_truthy (r : Response) :
  has_response_dict
    {| response := r;
       items := <["error"%string := VNone]> (Notions.payload r) |} = true
  <-> Notions.truthy_payload r.
Proof.
  unfold has_response_dict, Notions.truthy_payload. simpl.
  rewrite existsb_exists. split.
  - intros (v & Hin & Hv).
    apply list_elem_of_In, list_elem_of_fmap in Hin as ([k v'] & -> & Hin).
    apply elem_of_map_to_list in Hin. simpl in Hv.
    destruct (decide (k = "error"%string)) as [->|Hne].
    + rewrite lookup_insert_eq in Hin. injection Hin as <-. discriminate.
    + rewrite lookup_insert_ne in Hin by done. by exists k, v'.
  - intros (k & v & Hne & Hk & Hv). exists v. split; [|done].
    apply list_elem_of_In, list_elem_of_fmap. exists (k, v). split; [done|].
    apply elem_of_map_to_list. by rewrite lookup_insert_ne.
Qed.

Lemma ok_of_classified (r : Response) :
  ok {| response := r;
        items := <["error"%string := VNone]> (Notions.payload r) |}
  = response_ok r && Notions.accepted_result r.
Proof.
  unfold ok, result_, error, get, Notions.accepted_result. simpl.
  rewrite lookup_insert_eq, lookup_insert_ne by done. simpl.
  unfold get.
  destruct (response_ok r); simpl; [|done].
  destruct (bool_decide _); simpl; [done|].
  by destruct (in_successful_result _).
Qed.

(** X8.  What [LetterboxdResponseDict(response)] does with a response.
    A body of class [error] makes it raise [AttributeError].  Otherwise
    it returns, with [ok] true, when the transport status is not a 4xx
    or 5xx one and the result of the payload is absent or a success
    value; failing
    that it raises [LetterboxdError] when some entry of the payload
    other than [error] is true in Python's sense, else [HTTPError] when
    the status is 4xx or 5xx, and else it returns although [ok] is
    false. *)
Theorem classification_outcomes (r : Response) :
  (body_error r = true -> __init__ r = Raise AttributeError)
  /\ (body_error r = false ->
      (response_ok r && Notions.accepted_result r = true ->
       exists self, __init__ r = Ok self /\ ok self = true)
      /\ (response_ok r && Notions.accepted_result r = false ->
          Notions.truthy_payload r -> __init__ r = Raise LetterboxdError)
      /\ (~ Notions.truthy_payload r -> response_ok r = false ->
          __init__ r = Raise HTTPError)
      /\ (~ Notions.truthy_payload r -> response_ok r = true ->
          Notions.accepted_result r = false ->
          exists self, __init__ r = Ok self /\ ok self = false)).
Proof.
  unfold __init__, get_letterboxd_response_dict, _get_letterboxd_errors.
  split; [by intros ->|]. intros ->. simpl.
  fold (Notions.payload r).
  set (self := {| response := r;
                  items := <["error"%string := VNone]> (Notions.payload r) |}).
  pose proof (ok_of_classified r) as Hok. fold self in Hok.
  pose proof (has_response_dict_truthy r) as Hdict. fold self in Hdict.
  assert (error self = VNone) as Herr.
  { unfold error, get. simpl. by rewrite lookup_insert_eq. }
  unfold raise_errors. rewrite Hok, Herr.
  repeat split.
  - intros Ha. rewrite Ha. simpl. exists self. by rewrite Hok.
  - intros Ha Ht. rewrite Ha. apply Hdict in Ht. by rewrite Ht.
  - intros Hn Hr. rewrite Hr. simpl.
    destruct (has_response_dict self); [by destruct Hn; apply Hdict|].
    unfold response_ok, raise_for_status in *. clear Hok.
    destruct ((400 <=? status_code r)%Z && (status_code r <? 600)%Z);
      [reflexivity|discriminate].
  - intros Hn Hr Ha. rewrite Hr, Ha. simpl.
    destruct (has_response_dict self); [by destruct Hn; apply Hdict|].
    assert (raise_for_status r = Ok tt) as ->.
    { unfold response_ok, raise_for_status in *. clear Hok.
      destruct ((400 <=? status_code r)%Z && (status_code r <? 600)%Z);
        [discriminate|reflexivity]. }
    simpl. exists self. by rewrite Hok, Hr, Ha.
Qed.

End MoreClassification.

Section MoreGateway.

Import Session.

Context {Server : Type}.
Variable site : Server -> HttpRequest -> Reply * Server * N.
Variable operator : Credentials.

Lemma state_eta (st : State Server) :
  {| self := self st; world := world st |} = st.
Proof. by destruct st. Qed.

(** Without credentials [logged_in_check] answers [False] at
    once: the [AttributeError] of the missing user name is caught, no
    request is sent and neither the session nor the cache file
    changes. *)
Theorem logged_in_check_without_credentials (st : State Server) :
  login_credentials (self st) = None ->
  logged_in_check site st = (Ok false, st).
Proof.
  intros H. unfold logged_in_check, bind, get_username. by rewrite H.
Qed.

(** X9.  A page with the error body counts as "not logged in": when
    the site answers the profile request of [logged_in_check] with a
    page whose body has the class [error], the [AttributeError] that
    the classification raises is caught with the one of a missing user
    name; the check answers [False], the cookies of the reply are in
    the jar and the cache file is left as it was. *)
Theorem logged_in_check_error_body (st : State Server) (c : Credentials)
    (r : Response) (set_cookies : gmap string string) (server' : Server)
    (elapsed : N) :
  login_credentials (self st) = Some c ->
  site (server (world st))
    {| method := "GET";
       req_url := (URL_MAIN +:+ replace (username c +:+ "/") URL_MAIN EmptyString)%string;
       data := encode_params (_make_data (self st) ∅);
       req_cookies := cookies (self st) |}
  = (Replied r set_cookies, server', elapsed) ->
  body_error r = true ->
  exists st',
    logged_in_check site st = (Ok false, st')
    /\ cookies (self st') = set_cookies ∪ cookies (self st)
    /\ cache (world st') = cache (world st).
Proof.
  intros Hc Hsite Hbody.
  unfold logged_in_check, bind, get_username. rewrite Hc.
  unfold request, save_session, bind, request_body, bind, super_request.
  rewrite Hsite. unfold lift.
  assert (LetterboxdResponseDict.__init__ r = Raise AttributeError) as ->.
  { unfold LetterboxdResponseDict.__init__,
      LetterboxdResponseDict.get_letterboxd_response_dict,
      LetterboxdResponseDict._get_letterboxd_errors.
    by rewrite Hbody. }
  simpl. eexists. split; [reflexivity|]. by split.
Qed.

(** X10.  [logout] cannot log a session out and return: it returns
    only when its own check finds the session not logged in; when the
    check finds it logged in, the call ends with an error, at the
    latest with the [AttributeError] of the method
    [_raise_lb_response_dict], which the class does not have, after the
    logout request has returned. *)
Theorem logout_never_returns_logged_in (st : State Server) :
  (forall st', logout site st = (Ok tt, st') ->
     logged_in_check site st = (Ok false, st'))
  /\ (forall st1, logged_in_check site st = (Ok true, st1) ->
        exists e st', logout site st = (Raise e, st')
          /\ (forall response st2,
                request site "GET" suburl_logout ∅ st1 = (Ok response, st2) ->
                e = AttributeError /\ st' = st2)).
Proof.
  unfold logout, bind. split.
  - intros st'. destruct (logged_in_check site st) as [[[|]|e] st1];
      simpl; unfold ret, raise.
    + by destruct (request site "GET" suburl_logout ∅ st1) as [[?|?] ?].
    + by intros [= <-].
    + done.
  - intros st1 ->. simpl.
    destruct (request site "GET" suburl_logout ∅ st1) as [[response|e] st2];
      unfold raise.
    + exists AttributeError, st2. split; [done|]. by intros ? ? [= _ <-].
    + exists e, st2. split; [done|]. by intros ? ? [=].
Qed.

(** X11.  What a request has saved is what [load] restores: after a
    request that returned, [load] unpickles the session as it is in
    memory, runs the logged-in check on it, and when the check passes
    returns it as the check has left it, without building a session
    anew. *)
Theorem load_after_request (method suburl : string)
    (data : gmap string value) (st st' st'' : State Server)
    (response : Response) :
  request site method suburl data st = (Ok response, st') ->
  logged_in_check site st' = (Ok true, st'') ->
  load site operator (world st') = (Ok (self st''), world st'').
Proof.
  intros Hreq Hcheck.
  apply request_inv in Hreq as [Hcache _].
  rewrite (load_intact site operator (world st') _ (self st') Hcache eq_refl).
  by rewrite state_eta, Hcheck.
Qed.

(** X13.  The origin may be given or left out: a request for the
    absolute URL of a path is the request for the path. *)
Theorem request_absolute_url (method path : string)
    (data : gmap string value) (st : State Server) :
  request site method (URL_MAIN +:+ path) data st
  = request site method path data st.
Proof.
  unfold request, request_body. by rewrite replace_leading.
Qed.

(** Requests never lose or change the credentials of the
    session. *)
Theorem request_keeps_credentials (method suburl : string)
    (data : gmap string value) (st st' : State Server)
    (r : result Response) :
  request site method suburl data st = (r, st') ->
  login_credentials (self st') = login_credentials (self st).
Proof.
  intros H. apply save_session_inv in H. destruct r as [response|e].
  - destruct H as (st1 & H & ->). simpl.
    by apply request_body_world in H as (_ & _ & H).
  - by apply request_body_world in H as (_ & _ & H).
Qed.

End MoreGateway.

Section FilmFilter.

Import Session.

Lemma append_cons (x : ascii) (a b : string) :
  (String x a +:+ b)%string = String x (a +:+ b).
Proof. reflexivity. Qed.

Lemma append_nil_l (a : string) : (EmptyString +:+ a)%string = a.
Proof. reflexivity. Qed.

Lemma append_assoc (a b c : string) : ((a +:+ b) +:+ c = a +:+ (b +:+ c))%string.
Proof.
  induction a as [|x a IH]; [reflexivity|]. by rewrite !append_cons, IH.
Qed.

Lemma append_nil_r (a : string) : (a +:+ EmptyString)%string = a.
Proof.
  induction a as [|x a IH]; [reflexivity|]. by rewrite append_cons, IH.
Qed.

Lemma split_from_last (e cur : string) :
  Notions.no_separator e = true ->
  split_from "%20" e 0 cur = [(cur +:+ e)%string].
Proof.
  revert cur. induction e as [|c e IH]; intros cur H; simpl.
  - by rewrite append_nil_r.
  - simpl in H. apply andb_true_iff in H as [Hc He].
    apply negb_true_iff in Hc. simpl in Hc. rewrite Hc.
    rewrite IH by done. by rewrite append_assoc, append_cons, append_nil_l.
Qed.

(** No occurrence of the separator starts inside a name that is
    followed by the separator. *)
Lemma startswith_name_then_separator (c : ascii) (e rest : string) :
  Notions.no_separator (String c e) = true ->
  startswith (String c (e +:+ "%20" +:+ rest)) "%20" = false.
Proof.
  simpl. intros H. apply andb_true_iff in H as [Hc He].
  apply negb_true_iff in Hc.
  destruct (bool_decide ("%"%char = c)) eqn:E1; [|done]. simpl in *.
  destruct e as [|d e]; [done|]. rewrite append_cons.
  destruct (bool_decide ("2"%char = d)) eqn:E2; [|done]. simpl in *.
  destruct e as [|f e]; [done|]. rewrite append_cons.
  by destruct (bool_decide ("0"%char = f)).
Qed.

Lemma split_from_name (e rest cur : string) :
  Notions.no_separator e = true ->
  split_from "%20" (e +:+ "%20" +:+ rest) 0 cur
  = (cur +:+ e)%string :: split_from "%20" rest 0 EmptyString.
Proof.
  revert cur. induction e as [|c e IH]; intros cur H.
  - rewrite append_nil_l, append_nil_r. reflexivity.
  - pose proof (startswith_name_then_separator c e rest H) as Hs.
    rewrite append_cons. cbn [split_from]. rewrite Hs.
    simpl in H. apply andb_true_iff in H as [_ He].
    rewrite IH by done. by rewrite append_assoc, append_cons, append_nil_l.
Qed.

Lemma split_join (names : list string) :
  names <> [] ->
  Forall (fun name => Notions.no_separator name = true) names ->
  split (join "%20" names) "%20" = names.
Proof.
  unfold split. induction names as [|e names IH]; intros Hne Hall; [done|].
  apply Forall_cons in Hall as [He Hall].
  destruct names as [|e' names].
  - simpl. by rewrite split_from_last.
  - change (join "%20" (e :: e' :: names))
      with (e +:+ "%20" +:+ join "%20" (e' :: names))%string.
    rewrite split_from_name by done. rewrite append_nil_l.
    by rewrite IH.
Qed.

Lemma join_names_not_empty (names : list string) :
  names <> [] -> Forall Notions.filter_name names ->
  join "%20" names <> EmptyString.
Proof.
  destruct names as [|e names]; [done|]. intros _ Hall.
  apply Forall_cons in Hall as [[He _] _].
  destruct e as [|c e]; [done|]. by destruct names.
Qed.

Lemma unescape_join (names : list string) :
  Forall Notions.filter_name names ->
  unescape (join "%20" names) = join "%20" names.
Proof.
  intros Hall. unfold unescape.
  assert (startswith (join "%20" names) (String quote EmptyString) = false)
    as ->; [|done].
  destruct names as [|e names]; [done|].
  apply Forall_cons in Hall as [(He & _ & Hq) _].
  destruct e as [|c e]; [done|].
  destruct names as [|e' names]; [exact Hq|].
  change (join "%20" (String c e :: e' :: names))
    with (String c (e +:+ "%20" +:+ join "%20" (e' :: names)))%string.
  simpl in *. by destruct (bool_decide (quote = c)).
Qed.

Lemma filter_own_only (jar : CookieJar) (name v : string) :
  Notions.only_own_cookie jar name ->
  filter (fun kv : string * string * string * string => kv.1.2 = name)
         (<[own_cookie name := v]> jar)
  = {[ own_cookie name := v ]}.
Proof.
  intros Honly. rewrite map_filter_insert_True by done.
  apply map_eq. intros key.
  destruct (decide (key = own_cookie name)) as [->|Hne].
  - by rewrite lookup_insert_eq, lookup_singleton_eq.
  - rewrite lookup_insert_ne, lookup_singleton_ne by done.
    apply map_lookup_filter_None_2.
    destruct key as [[d p] n]. destruct (decide (n = name)) as [->|Hn].
    + left. apply Honly. intros [= -> ->]. by apply Hne.
    + right. intros x _. exact Hn.
Qed.

Lemma values_of_set (jar : CookieJar) (name v : string) :
  Notions.only_own_cookie jar name ->
  values_of (<[own_cookie name := v]> jar) name = [v].
Proof.
  intros Honly. unfold values_of.
  by rewrite (filter_own_only jar name v Honly), map_to_list_singleton.
Qed.


Lemma jar_get_conflict (jar : CookieJar) (name : string)
    (k1 k2 : string * string * string) (v1 v2 : string) :
  k1 <> k2 -> k1.2 = name -> k2.2 = name ->
  jar !! k1 = Some v1 -> jar !! k2 = Some v2 ->
  jar_get jar name = Raise CookieConflictError.
Proof.
  intros Hne Hn1 Hn2 H1 H2. unfold jar_get, values_of.
  set (m := filter _ jar).
  assert (m !! k1 = Some v1) as Hm1 by by apply map_lookup_filter_Some_2.
  assert (m !! k2 = Some v2) as Hm2 by by apply map_lookup_filter_Some_2.
  assert (2 <= length ((map_to_list m).*2))%nat as Hlen.
  { rewrite length_fmap, length_map_to_list.
    rewrite <- (insert_delete_id m k1 v1 Hm1).
    rewrite map_size_insert_None by by rewrite lookup_delete_eq.
    assert (delete k1 m !! k2 = Some v2) as Hd by by rewrite lookup_delete_ne.
    assert (size (delete k1 m) <> 0)%nat; [|lia].
    intros Hz. apply map_size_empty_inv in Hz. by rewrite Hz in Hd. }
  destruct ((map_to_list m).*2) as [|a [|b l]]; simpl in Hlen; [lia|lia|done].
Qed.

Lemma filmFilter_of_set (names : list string) (jar : CookieJar) :
  Forall Notions.filter_name names ->
  Notions.only_own_cookie jar cookie_name_filmFilter ->
  filmFilter (filmFilter_set names jar) = Ok (list_to_set names).
Proof.
  intros Hall Honly. unfold filmFilter, filmFilter_set, jar_set, jar_get.
  rewrite values_of_set by done. rewrite unescape_join by done.
  rewrite result_bind_Ok.
  destruct names as [|e names]; [done|].
  rewrite !bool_decide_eq_false_2 by by apply join_names_not_empty.
  rewrite split_join; [done|done|].
  eapply Forall_impl; [exact Hall|]. by intros ? (_ & ? & _).
Qed.

Lemma only_own_cookie_set (names : list string) (jar : CookieJar) :
  Notions.only_own_cookie jar cookie_name_filmFilter ->
  Notions.only_own_cookie (filmFilter_set names jar) cookie_name_filmFilter.
Proof.
  intros Honly d p Hne. unfold filmFilter_set, jar_set.
  rewrite lookup_insert_ne; [by apply Honly|].
  intros [= <- <-]. by apply Hne.
Qed.

(** X15.  The filmFilter cookie gives back the set it was given, as
    long as the jar holds no filmFilter cookie of the site: after the
    setter has stored a set of filter names (none empty, none
    containing the separator [%20], none opening with a double quote)
    the getter returns this set, in whatever order the set was
    iterated.  With a filmFilter cookie of the site in the jar the
    setter adds a second cookie of the name and the getter raises
    [CookieConflictError].  The other cookies are not touched. *)
Theorem filmFilter_roundtrip (names : list string) (jar : CookieJar) :
  Forall Notions.filter_name names ->
  (Notions.only_own_cookie jar cookie_name_filmFilter ->
   filmFilter (filmFilter_set names jar) = Ok (list_to_set names))
  /\ (forall domain path v,
        (domain, path) <> (EmptyString, "/"%string) ->
        jar !! (domain, path, cookie_name_filmFilter) = Some v ->
        filmFilter (filmFilter_set names jar) = Raise CookieConflictError)
  /\ (forall key, key <> own_cookie cookie_name_filmFilter ->
        filmFilter_set names jar !! key = jar !! key).
Proof.
  intros Hall. split; [by apply filmFilter_of_set|]. split.
  - intros d p v Hne Hv. unfold filmFilter.
    rewrite (jar_get_conflict (filmFilter_set names jar) cookie_name_filmFilter
               (own_cookie cookie_name_filmFilter) (d, p, cookie_name_filmFilter)
               (unescape (join "%20" names)) v); [done| |done|done| |].
    + intros [= <- <-]. by apply Hne.
    + unfold filmFilter_set, jar_set. by rewrite lookup_insert_eq.
    + unfold filmFilter_set, jar_set. rewrite lookup_insert_ne; [done|].
      intros [= <- <-]. by apply Hne.
  - intros key Hne. unfold filmFilter_set, jar_set. by rewrite lookup_insert_ne.
Qed.

Section Order.

Variable iteration : gset string -> list string.
Hypothesis iteration_elements : forall S, list_to_set (iteration S) = S.




End Order.
End FilmFilter.

(* ===================================================================== *)
(** * More on util.py                                                    *)
(* ===================================================================== *)

Section MoreKeyMax.

Lemma key_max_loop_ranked (todo : nat) :
  forall (d : gmap Z Z) (max_keys : list Z) (m : option Z),
    (todo <= size d)%nat ->
    exists ks,
      Util.key_max_loop todo d max_keys m
      = Ok (max_keys ++ ks, from_option Some m (last ks))
      /\ length ks = todo
      /\ Notions.top_ranked d ks.
Proof.
  induction todo as [|todo IH]; intros d max_keys m Hsize; simpl.
  - exists []. by rewrite app_nil_r.
  - pose proof (max_zip_most_frequent d) as Hmax.
    destruct (Util.max_zip d) as [[v k]|];
      [|subst d; rewrite map_size_empty in Hsize; lia].
    destruct Hmax as [Hk Hm].
    destruct (IH (delete k d) (max_keys ++ [k]) (Some k)) as (ks & -> & Hlen & Hr).
    { rewrite (map_size_delete_Some k d (mk_is_Some _ _ Hk)). lia. }
    exists (k :: ks). rewrite <- app_assoc. simpl. split; [|split].
    + destruct ks as [|k' ks]; [done|]. rewrite last_cons_cons.
      destruct (last (k' :: ks)) eqn:E; [done|]. by apply last_None in E.
    + by rewrite Hlen.
    + done.
Qed.

Lemma top_ranked_keys (ks : list Z) :
  forall d : gmap Z Z,
    Notions.top_ranked d ks ->
    NoDup ks /\ forall k, k ∈ ks -> is_Some (d !! k).
Proof.
  induction ks as [|k ks IH]; intros d H; simpl in H.
  - split; [constructor|]. intros k Hk. by apply elem_of_nil in Hk.
  - destruct H as [(c & Hc & _) Hr]. destruct (IH _ Hr) as [Hnd Hin].
    split.
    + constructor; [|done]. intros Hk. destruct (Hin k Hk) as [v Hv].
      by rewrite lookup_delete_eq in Hv.
    + intros k' Hk'. apply elem_of_cons in Hk' as [->|Hk']; [by eexists|].
      destruct (Hin k' Hk') as [v Hv].
      apply lookup_delete_Some in Hv as [_ Hv]. by eexists.
Qed.

(** X17.  [key_max(d, n, multiple_maxes=True)] with [2 <= n <= len(d)]
    returns the [n] keys of the highest rank, the highest first: each
    key is the one with the greatest value, the greatest key among
    equal values, once the keys before it are taken out; they are
    distinct keys of [d].  Without [multiple_maxes] the call returns
    the last of them, the key of rank [n]. *)
Theorem key_max_ranked (d : gmap Z Z) (n : Z) :
  2 <= n <= Z.of_nat (size d) ->
  exists ks k,
    Util.key_max d n true = Ok (Util.Keys ks)
    /\ Z.of_nat (length ks) = n
    /\ Notions.top_ranked d ks
    /\ NoDup ks
    /\ (forall k', k' ∈ ks -> is_Some (d !! k'))
    /\ last ks = Some k
    /\ Util.key_max d n false = Ok (Util.Key k).
Proof.
  intros Hn. unfold Util.key_max.
  destruct (Z.ltb_spec (Z.of_nat (size d)) n) as [|_]; [lia|].
  destruct (Z.eqb_spec n 1) as [|_]; [lia|].
  destruct (key_max_loop_ranked (Z.to_nat n) d [] None ltac:(lia))
    as (ks & -> & Hlen & Hr).
  destruct (top_ranked_keys ks d Hr) as [Hnd Hin].
  destruct (last ks) as [k|] eqn:Hlast.
  - exists ks, k. simpl. repeat split; try done. lia.
  - apply last_None in Hlast. subst ks. simpl in Hlen. lia.
Qed.

(** X18.  [key_max(d, 1, multiple_maxes=True)] never returns: the
    tuple of keys is only built when [max_num] is not 1, so that on a
    dict that is not empty the call raises [UnboundLocalError]; on the
    empty dict, as whenever the dict has fewer than [max_num] keys, the
    assertion fails. *)
Theorem key_max_one_multiple (d : gmap Z Z) (n : Z) (multiple_maxes : bool) :
  (d <> ∅ -> Util.key_max d 1 true = Raise UnboundLocalError)
  /\ (Z.of_nat (size d) < n ->
      Util.key_max d n multiple_maxes = Raise AssertionError).
Proof.
  unfold Util.key_max. split.
  - intros Hne.
    assert (size d <> 0%nat) as Hsz by by rewrite map_size_non_empty_iff.
    destruct (Z.ltb_spec (Z.of_nat (size d)) 1) as [|_]; [lia|]. simpl.
    pose proof (max_zip_most_frequent d) as Hmax.
    by destruct (Util.max_zip d) as [[v k]|].
  - intros Hlt. by destruct (Z.ltb_spec (Z.of_nat (size d)) n) as [_|]; [|lia].
Qed.

End MoreKeyMax.

Section GuessNumber.

Variable check_guess : Z -> Util.guess.
Variable target : Z.
Hypothesis check_guess_compares : Notions.compares_with target check_guess.

Lemma midpoint_bounds (low high : Z) :
  low <= high -> low <= (low + high) / 2 <= high.
Proof.
  intros H. pose proof (Z.div_mod (low + high) 2 ltac:(lia)).
  pose proof (Z.mod_pos_bound (low + high) 2 ltac:(lia)). lia.
Qed.

Lemma guess_number_loop_finds (fuel : nat) :
  forall low high,
    low <= target <= high ->
    (Z.to_nat (high - low + 1) <= fuel)%nat ->
    Util.guess_number_loop fuel check_guess low high = Some (Some target).
Proof.
  induction fuel as [|fuel IH]; intros low high Ht Hfuel; [lia|]. simpl.
  destruct (Z.leb_spec low high) as [Hle|]; [|lia].
  pose proof (midpoint_bounds low high Hle) as Hmid.
  rewrite check_guess_compares.
  destruct (Z.eqb_spec ((low + high) / 2) target) as [->|Hne]; [done|].
  destruct (Z.ltb_spec ((low + high) / 2) target); apply IH; lia.
Qed.

Lemma guess_number_loop_misses (fuel : nat) :
  forall low high,
    target < low \/ high < target ->
    (Z.to_nat (high - low + 1) < fuel)%nat ->
    Util.guess_number_loop fuel check_guess low high = Some None.
Proof.
  induction fuel as [|fuel IH]; intros low high Ht Hfuel; [lia|]. simpl.
  destruct (Z.leb_spec low high) as [Hle|]; [|done].
  pose proof (midpoint_bounds low high Hle) as Hmid.
  rewrite check_guess_compares.
  destruct (Z.eqb_spec ((low + high) / 2) target) as [|Hne]; [lia|].
  destruct (Z.ltb_spec ((low + high) / 2) target); apply IH; lia.
Qed.

(** X19.  [guess_number] is a binary search: when [check_guess]
    compares its argument with a number of [min_num..max_num] (answers
    [correct] on it, [low] below it and [high] above it), the call
    returns this number. *)
Theorem guess_number_finds (max_num min_num : Z) (fuel : nat) :
  min_num < max_num ->
  min_num <= target <= max_num ->
  (Z.to_nat (max_num - min_num + 1) <= fuel)%nat ->
  Util.guess_number fuel check_guess max_num min_num = Some (Ok (Some target)).
Proof.
  intros Hlt Ht Hfuel. unfold Util.guess_number.
  destruct (Z.leb_spec max_num min_num); [lia|].
  by rewrite guess_number_loop_finds.
Qed.

(** X20.  Where [guess_number] finds nothing: a range of one number
    or less is refused with [ValueError], even when its one number is
    the one looked for; and a number outside [min_num..max_num] is not
    found, the loop ends and the call returns [None]. *)
Theorem guess_number_misses (max_num min_num : Z) (fuel : nat) :
  (max_num <= min_num ->
   Util.guess_number fuel check_guess max_num min_num = Some (Raise ValueError))
  /\ (min_num < max_num ->
      target < min_num \/ max_num < target ->
      (Z.to_nat (max_num - min_num + 1) < fuel)%nat ->
      Util.guess_number fuel check_guess max_num min_num = Some (Ok None)).
Proof.
  unfold Util.guess_number. split.
  - intros H. by destruct (Z.leb_spec max_num min_num); [|lia].
  - intros Hlt Ht Hfuel. destruct (Z.leb_spec max_num min_num); [lia|].
    by rewrite guess_number_loop_misses.
Qed.

End GuessNumber.

Section TruncateString.

Lemma rfind_from_spec (c : N) (s : str) :
  forall i best,
    ((c ∉ s) /\ Util.rfind_from s c i best = best)
    \/ (exists p w, s = p ++ c :: w /\ (c ∉ w)
                    /\ Util.rfind_from s c i best = i + Z.of_nat (length p)).
Proof.
  induction s as [|x s IH]; intros i best; simpl.
  - left. split; [|done]. apply not_elem_of_nil.
  - destruct (IH (i + 1) (if (x =? c)%N then i else best))
      as [[Hnot Heq]|(p & w & -> & Hw & Heq)].
    + destruct (N.eqb_spec x c) as [->|Hne].
      * right. exists [], s. simpl. repeat split; [done|]. rewrite Heq. lia.
      * left. split; [|done]. apply not_elem_of_cons. by split.
    + right. exists (x :: p), w. simpl. repeat split; [done|]. rewrite Heq. lia.
Qed.

Lemma slice_to_nonneg {A} (l : list A) (n : Z) :
  0 <= n -> Util.slice_to l n = take (Z.to_nat n) l.
Proof. intros H. unfold Util.slice_to. by destruct (Z.ltb_spec n 0); [lia|]. Qed.

(** X21.  [truncate_string]: a [max_length] of 0 or less is refused
    with [ValueError]; a string of at most [max_length] characters is
    returned as it is; a longer one is cut to a prefix of at most
    [max_length] characters followed by three dots (so the result may
    be up to three characters longer than [max_length]): the prefix
    ends before the last space of the first [max_length] characters,
    and is all of them when they hold no space. *)
Theorem truncate_string_cut (s : str) (max_length : Z) :
  (max_length <= 0 -> Util.truncate_string s max_length = Raise ValueError)
  /\ (0 < max_length -> Z.of_nat (length s) <= max_length ->
      Util.truncate_string s max_length = Ok s)
  /\ (0 < max_length < Z.of_nat (length s) ->
      exists p,
        Util.truncate_string s max_length = Ok (p ++ [46; 46; 46]%N)
        /\ p `prefix_of` s
        /\ Z.of_nat (length p) <= max_length
        /\ (((32%N ∉ take (Z.to_nat max_length) s)
             /\ p = take (Z.to_nat max_length) s)
            \/ exists w, take (Z.to_nat max_length) s = p ++ 32%N :: w
                         /\ (32%N ∉ w))).
Proof.
  unfold Util.truncate_string. split; [|split].
  - intros H. by destruct (Z.leb_spec max_length 0); [|lia].
  - intros H0 H. destruct (Z.leb_spec max_length 0); [lia|].
    by destruct (Z.leb_spec (Z.of_nat (length s)) max_length); [|lia].
  - intros [H0 H]. destruct (Z.leb_spec max_length 0); [lia|].
    destruct (Z.leb_spec (Z.of_nat (length s)) max_length); [lia|].
    rewrite !(slice_to_nonneg s max_length) by lia.
    set (t := take (Z.to_nat max_length) s).
    assert (t `prefix_of` s) as Hpre by apply prefix_take.
    assert (Z.of_nat (length t) = max_length) as Hlen.
    { unfold t. rewrite length_take. lia. }
    unfold Util.rfind.
    destruct (rfind_from_spec 32%N t 0 (-1))
      as [[Hnot ->]|(p & w & Ht & Hw & ->)].
    + exists t. simpl. repeat split; [done|lia|]. by left.
    + destruct (Z.eqb_spec (0 + Z.of_nat (length p)) (-1)) as [|_]; [lia|].
      simpl. rewrite slice_to_nonneg by lia.
      replace (Z.to_nat (0 + Z.of_nat (length p))) with (length p) by lia.
      rewrite Ht, take_app_length. exists p. repeat split.
      * etrans; [|exact Hpre]. rewrite Ht. by apply prefix_app_r.
      * rewrite Ht, length_app in Hlen. lia.
      * right. by exists w.
Qed.

End TruncateString.

(* ===================================================================== *)
(** * More on star ratings, the film page, actions and tags              *)
(* ===================================================================== *)

Section MoreStarRatings.

Import Letterboxd.

Lemma int_of_float_floor (q : Q) :
  (0 <= q)%Q ->
  (inject_Z (int_of_float q) <= q /\ q < inject_Z (int_of_float q) + 1)%Q.
Proof.
  destruct q as [a b]. unfold Qle, Qlt, int_of_float. simpl. intros H.
  rewrite Z.quot_div_nonneg by lia.
  pose proof (Z.div_mod a (Z.pos b) ltac:(lia)).
  pose proof (Z.mod_pos_bound a (Z.pos b) ltac:(lia)).
  nia.
Qed.

Lemma int_of_float_negative (q : Q) : (q < 0)%Q -> int_of_float q <= 0.
Proof.
  destruct q as [a b]. unfold Qlt, int_of_float. simpl. intros H.
  apply Z.quot_le_upper_bound; lia.
Qed.

Lemma float_in_range_spec (q : Q) (lo hi : Z) :
  float_in_range q lo hi = true
  <-> exists k, lo <= k < hi /\ (q == inject_Z k)%Q.
Proof.
  unfold float_in_range. rewrite existsb_exists. split.
  - intros (k & Hk & Hq). exists k. split; [|by apply Qeq_bool_iff].
    apply list_elem_of_In in Hk. unfold range in Hk.
    apply list_elem_of_fmap in Hk as (i & -> & Hi).
    apply elem_of_seq in Hi. lia.
  - intros (k & Hk & Hq). exists k. split; [|by apply Qeq_bool_iff].
    apply list_elem_of_In. unfold range. apply list_elem_of_fmap.
    exists (Z.to_nat (k - lo)). split; [lia|]. apply elem_of_seq. lia.
Qed.


Lemma elem_of_range (n lo hi : Z) : n ∈ range lo hi <-> lo <= n < hi.
Proof.
  unfold range. rewrite list_elem_of_fmap. split.
  - intros (i & -> & Hi). apply elem_of_seq in Hi. lia.
  - intros Hn. exists (Z.to_nat (n - lo)). split; [lia|]. apply elem_of_seq. lia.
Qed.

Lemma lstrip_head (s : str) :
  match s with c :: _ => isspace c = false | [] => True end -> lstrip s = s.
Proof. destruct s as [|c s]; [done|]. simpl. by intros ->. Qed.

Lemma strip_stars (s : str) : Forall Notions.star_or_half s -> strip s = s.
Proof.
  intros Hs. unfold strip.
  assert (forall t, Forall Notions.star_or_half t -> lstrip t = t) as Hl.
  { intros t Ht. apply lstrip_head. destruct Ht as [|c t [-> | ->] _]; done. }
  rewrite (Hl s Hs), Hl, rev_involutive; [done|].
  by apply Forall_rev.
Qed.

Lemma str_count_single (c : N) (s : str) :
  str_count s [c] = Z.of_nat (length (filter (fun x => x = c) s)).
Proof.
  unfold str_count. induction s as [|x s IH]; [done|].
  unfold str in *. rewrite filter_cons. cbn [str_count_from str_startswith length Nat.sub andb].
  destruct (N.eqb_spec c x) as [->|Hne].
  - rewrite decide_True by done. cbn [andb length]. rewrite IH. lia.
  - rewrite decide_False by done. exact IH.
Qed.


(** X22.  [star_rating_to_num] counts: a string of stars and halves in
    any order and number is read as the number of its stars plus half
    the number of its halves, and accepted exactly when this number is
    one of 0.5, 1, ..., 5. *)
Theorem star_rating_to_num_counts (s : str) :
  Forall Notions.star_or_half s ->
  let n := Notions.occurrences 9733 s in
  let m := Notions.occurrences 189 s in
  (1 <= 2 * n + m <= 10 ->
   star_rating_to_num s = Ok (inject_Z n + (1 # 2) * inject_Z m)%Q)
  /\ (~ 1 <= 2 * n + m <= 10 -> star_rating_to_num s = Raise ValueError).
Proof.
  intros Hs n m. unfold star_rating_to_num.
  assert (str_eqb s RATING_HALF_ONLY = false) as ->.
  { unfold str_eqb. apply bool_decide_eq_false. intros ->.
    apply Forall_cons in Hs as [[?|?] _]; done. }
  rewrite (strip_stars s Hs).
  assert (filter (fun c => ~ ([c] = RATING_STAR \/ [c] = RATING_HALF)) s = []) as ->.
  { clear n m. induction Hs as [|c s Hc Hs IH]; [done|].
    unfold str in *. rewrite filter_cons_False; [exact IH|].
    intros Hn. apply Hn. unfold RATING_STAR, RATING_HALF.
    destruct Hc as [-> | ->]; auto. }
  rewrite bool_decide_eq_true_2 by done. cbn [negb].
  unfold RATING_STAR, RATING_HALF. rewrite !str_count_single.
  fold (Notions.occurrences 9733 s) (Notions.occurrences 189 s). fold n m.
  assert (((inject_Z n + (1 # 2) * inject_Z m) * (2 # 1) == inject_Z (2 * n + m))%Q)
    as Hval.
  { rewrite inject_Z_plus, inject_Z_mult. ring. }
  split; intros Hr.
  - rewrite (proj2 (float_in_range_spec _ 1 11)); [done|].
    exists (2 * n + m). split; [lia|exact Hval].
  - destruct (float_in_range _ 1 11) eqn:E; [|done].
    apply float_in_range_spec in E as (k & Hk & E).
    rewrite Hval in E. apply (proj1 (inject_Z_injective _ _)) in E.
    exfalso. lia.
Qed.


Lemma inject_Z_lt (a b : Z) : (inject_Z a < inject_Z b)%Q -> a < b.
Proof. unfold Qlt, inject_Z. simpl. lia. Qed.

(** X23.  [num_to_star_rating] rounds down to a half: a number from 0.5
    up to, but not including, 5.5 is given the star string of the
    largest valid rating not above it, which [star_rating_to_num] reads
    back; any other number raises [ValueError]. *)
Theorem num_to_star_rating_rounds_down (x : Q) :
  ((1 # 2 <= x)%Q /\ (x < 11 # 2)%Q ->
   exists s y,
     num_to_star_rating x = Ok s
     /\ star_rating_to_num s = Ok y
     /\ Spec.valid_rating y
     /\ (y <= x)%Q /\ (x < y + (1 # 2))%Q)
  /\ ((x < 1 # 2)%Q \/ (11 # 2 <= x)%Q ->
      num_to_star_rating x = Raise ValueError).
Proof.
  unfold num_to_star_rating.
  destruct (Qeq_bool x (1 # 2)) eqn:Eh.
  { apply Qeq_bool_iff in Eh. split.
    - intros _. exists RATING_HALF_ONLY, (1 # 2)%Q.
      split; [done|]. split; [done|]. split; [|split; lra].
      exists (1 # 2)%Q. split; [|done]. vm_compute. tauto.
    - intros [H|H]; lra. }
  remember (int_of_float (x * (2 # 1))) as k eqn:Ek. cbv zeta.
  split.
  - intros [Hlo Hhi].
    destruct (int_of_float_floor (x * (2 # 1)) ltac:(lra)) as [Hk1 Hk2].
    rewrite <- Ek in Hk1, Hk2.
    assert (0 < k) as Hk0.
    { apply inject_Z_lt. change (inject_Z 0) with 0%Q. lra. }
    assert (k < 11) as Hk11.
    { apply inject_Z_lt. change (inject_Z 11) with 11%Q. lra. }
    rewrite (bool_decide_eq_true_2 (k ∈ range 1 11))
      by (apply elem_of_range; lia).
    cbn [negb].
    assert (k = 1 \/ k = 2 \/ k = 3 \/ k = 4 \/ k = 5 \/ k = 6 \/ k = 7
            \/ k = 8 \/ k = 9 \/ k = 10) as Hcases by lia.
    clear Ek Hk0 Hk11.
    destruct Hcases as [->|[->|[->|[->|[->|[->|[->|[->|[->| ->]]]]]]]]];
      (eexists; eexists; split; [reflexivity|];
       split; [vm_compute; reflexivity|];
       split; [eexists; split; [|reflexivity]; vm_compute; tauto|];
       change (inject_Z 1) with 1%Q in *; unfold inject_Z in *; split; lra).
  - intros Hout.
    rewrite (bool_decide_eq_false_2 (k ∈ range 1 11)); [done|].
    rewrite elem_of_range. intros [Hk1 Hk11].
    destruct Hout as [Hlo|Hhi].
    + destruct (Qlt_le_dec (x * (2 # 1)) 0) as [Hneg|Hpos].
      * apply int_of_float_negative in Hneg. lia.
      * destruct (int_of_float_floor _ Hpos) as [Hf _]. rewrite <- Ek in Hf.
        assert (k < 1); [|lia].
        apply inject_Z_lt. change (inject_Z 1) with 1%Q. lra.
    + destruct (int_of_float_floor (x * (2 # 1)) ltac:(lra)) as [_ Hf].
      rewrite <- Ek in Hf.
      assert (10 < k); [|lia].
      apply inject_Z_lt. change (inject_Z 10) with 10%Q. lra.
Qed.

End MoreStarRatings.

Section Grader.

Import Letterboxd.

Variable dp_two : Q -> string.

Lemma Qle_bool_false (a b : Q) : Qle_bool a b = false <-> (b < a)%Q.
Proof.
  rewrite <- not_true_iff_false, Qle_bool_iff. split; [apply Qnot_le_lt|apply Qlt_not_le].
Qed.

Ltac bands :=
  repeat match goal with
         | |- context [Qle_bool ?a ?b] =>
             let E := fresh "E" in
             destruct (Qle_bool a b) eqn:E;
             [apply Qle_bool_iff in E|apply Qle_bool_false in E]
         end;
  cbn [andb]; try reflexivity; exfalso; lra.

(** X24.  [rating_grader] colours a rating by the first band of
    [_colour_ratings] that holds it: a rating above the lower bound of a
    band and not above its upper bound gets the colour of that band, so
    that 1, 2, 3 and 4 go with the band below them; 0 is shown as None
    in the default colour; a number below 0 or above 5 gives Python's
    [None]. *)
Theorem rating_grader_bands (x : Q) :
  ((x == 0)%Q -> rating_grader dp_two (Some x) = rating_grader dp_two None)
  /\ (forall (k : nat) lo hi colour,
        _colour_ratings !! k = Some (lo, hi, colour) ->
        (inject_Z lo < x)%Q -> (x <= inject_Z hi)%Q ->
        rating_grader dp_two (Some x)
        = Some ("[" +:+ colour +:+ "]" +:+ dp_two x
                +:+ "[/" +:+ colour +:+ "]")%string)
  /\ ((x < 0)%Q \/ (5 < x)%Q -> rating_grader dp_two (Some x) = None).
Proof.
  unfold rating_grader, create_colour_func, _colour_ratings.
  split; [|split].
  - intros Hx. by rewrite (proj2 (Qeq_bool_iff x 0) Hx).
  - intros k lo hi colour Hk Hlo Hhi.
    assert (Qeq_bool x 0 = false) as ->.
    { apply not_true_iff_false. rewrite Qeq_bool_iff. intros Hx.
      destruct k as [|[|[|[|[|k]]]]]; simplify_eq/=; unfold inject_Z in *; lra. }
    destruct k as [|[|[|[|[|k]]]]]; simplify_eq/=; unfold inject_Z in *; bands.
  - intros Hx.
    assert (Qeq_bool x 0 = false) as ->.
    { apply not_true_iff_false. rewrite Qeq_bool_iff. intros Hx0.
      destruct Hx; lra. }
    unfold inject_Z. destruct Hx; bands.
Qed.

End Grader.

Section MoreFilm.

Import Letterboxd Film.

Variable beta_ppf : Q -> Q -> Q -> Q.
Variable rating_link_count : str -> option (result Z).

Lemma int_of_float_half (k : Z) : int_of_float ((k # 2) * (2 # 1)) = k.
Proof. unfold int_of_float. simpl. apply Z.quot_mul. lia. Qed.

Lemma get_rating_link (i : Q) :
  get_rating rating_link_count i
  = (s ← num_to_star_rating i;
     match rating_link_count s with
     | None => Ok 0
     | Some n => n
     end).
Proof.
  unfold get_rating, num_to_star_rating. by destruct (Qeq_bool i (1 # 2)).
Qed.

Lemma num_to_star_rating_half (k : Z) :
  1 <= k <= 10 -> exists s, num_to_star_rating (k # 2) = Ok s.
Proof.
  intros Hk.
  assert (k = 1 \/ k = 2 \/ k = 3 \/ k = 4 \/ k = 5 \/ k = 6 \/ k = 7
          \/ k = 8 \/ k = 9 \/ k = 10) as Hcases by lia.
  destruct Hcases as [->|[->|[->|[->|[->|[->|[->|[->|[->| ->]]]]]]]]];
    eexists; vm_compute; reflexivity.
Qed.

Lemma ratings_comprehension_spec (ks : list Z) :
  forall d : gmap Z Z,
    match ratings_comprehension rating_link_count ((fun k => k # 2)%Q <$> ks) d with
    | Ok r =>
        (forall n, n ∈ ks ->
           exists v, r !! n = Some v
                     /\ get_rating rating_link_count (n # 2) = Ok v)
        /\ (forall n, n ∉ ks -> r !! n = d !! n)
    | Raise e => exists n, n ∈ ks /\ get_rating rating_link_count (n # 2) = Raise e
    end.
Proof.
  induction ks as [|k ks IH]; intros d.
  - simpl. split; [|done]. intros n Hn. by apply elem_of_nil in Hn.
  - cbn [fmap list_fmap ratings_comprehension].
    destruct (get_rating rating_link_count (k # 2)) as [v|e] eqn:Ev.
    + rewrite result_bind_Ok, int_of_float_half.
      specialize (IH (<[k := v]> d)).
      destruct (ratings_comprehension _ _ _) as [r|e].
      * destruct IH as [IH1 IH2]. split.
        -- intros n Hn. destruct (decide (n ∈ ks)) as [Hin|Hnin]; [by apply IH1|].
           apply elem_of_cons in Hn as [->|Hn]; [|done].
           exists v. split; [|done]. by rewrite (IH2 k Hnin), lookup_insert_eq.
        -- intros n Hn. apply not_elem_of_cons in Hn as [Hne Hn].
           by rewrite (IH2 n Hn), lookup_insert_ne.
      * destruct IH as (n & Hn & He). exists n. split; [|done]. by right.
    + exists k. split; [by left|done].
Qed.

(** X25.  The histogram [ratings] reads off the film page has exactly
    the scores 1 to 10 as its keys, the count of a score being the
    number in the title of the link for its star string and 0 without
    such a link; [ratings] raises only when the number of one of these
    links cannot be read. *)
Theorem film_ratings_complete :
  (forall r, ratings rating_link_count = Ok r ->
     (forall n, is_Some (r !! n) <-> 1 <= n <= 10)
     /\ (forall n s, 1 <= n <= 10 -> num_to_star_rating (n # 2) = Ok s ->
          r !! n = Some 0 /\ rating_link_count s = None
          \/ exists v, r !! n = Some v /\ rating_link_count s = Some (Ok v)))
  /\ (forall e, ratings rating_link_count = Raise e ->
      exists s, rating_link_count s = Some (Raise e)).
Proof.
  pose proof (ratings_comprehension_spec (range 1 11) ∅) as H.
  unfold ratings, RATINGS_RANGE.
  change (map (fun k => k # 2) (range 1 11))
    with ((fun k => k # 2) <$> range 1 11).
  destruct (ratings_comprehension _ _ _) as [r|e].
  - split; [|done]. intros ? [= <-]. destruct H as [H1 H2]. split.
    + intros n. split.
      * intros Hn. apply elem_of_range_1_11.
        destruct (decide (n ∈ range 1 11)) as [|Hnin]; [done|].
        rewrite (H2 n Hnin), lookup_empty in Hn. by destruct Hn.
      * intros Hn. apply elem_of_range_1_11 in Hn.
        destruct (H1 n Hn) as (v & -> & _). by eexists.
    + intros n s Hn Hs. apply elem_of_range_1_11 in Hn.
      destruct (H1 n Hn) as (v & Hv & Hget).
      rewrite get_rating_link, Hs, result_bind_Ok in Hget.
      destruct (rating_link_count s) as [c|].
      * right. exists v. by subst c.
      * left. by injection Hget as <-.
  - split; [done|]. intros ? [= <-]. destruct H as (n & Hn & Hget).
    apply elem_of_range_1_11 in Hn.
    destruct (num_to_star_rating_half n Hn) as [s Hs].
    rewrite get_rating_link, Hs, result_bind_Ok in Hget.
    exists s. destruct (rating_link_count s) as [c|]; [by subst c|done].
Qed.


Lemma ratings_keys (r : gmap Z Z) :
  ratings rating_link_count = Ok r ->
  forall n, is_Some (r !! n) <-> 1 <= n <= 10.
Proof.
  pose proof (ratings_comprehension_spec (range 1 11) ∅) as H.
  unfold ratings, RATINGS_RANGE.
  change (map (fun k => k # 2) (range 1 11))
    with ((fun k => k # 2) <$> range 1 11).
  destruct (ratings_comprehension _ _ _) as [r'|e]; [|done].
  intros [= <-] n. destruct H as [H1 H2]. split.
  - intros Hn. apply elem_of_range_1_11.
    destruct (decide (n ∈ range 1 11)) as [|Hnin]; [done|].
    rewrite (H2 n Hnin), lookup_empty in Hn. by destruct Hn.
  - intros Hn. apply elem_of_range_1_11 in Hn.
    destruct (H1 n Hn) as (v & -> & _). by eexists.
Qed.

Lemma bayesian_average_complete (d : gmap Z Z) (fallback : option Q) (a0 : Q) :
  (exists k v, d !! k = Some v /\ v <> 0) ->
  (forall n, 1 <= n <= 10 -> is_Some (d !! n)) ->
  _get_bayesian_average beta_ppf d fallback a0
  = Ok (Some (beta_ppf (5 # 100) (Spec.up d + a0) (Spec.down d + a0)
              * (45 # 10) + (1 # 2))%Q).
Proof.
  intros Hany Hall. unfold _get_bayesian_average. rewrite (any_values d Hany).
  assert (Hup :
    comprehension
      (fun n => v ← getitem d n; Ok (inject_Z v * (inject_Z (n - 1) / 9))%Q)
      (range 1 11)
    = Ok ((fun n => inject_Z (Spec.count d n) * (inject_Z (n - 1) / 9))%Q
            <$> range 1 11)).
  { apply comprehension_ok. intros n Hn. apply elem_of_range_1_11 in Hn.
    destruct (Hall n Hn) as [v Hv]. unfold getitem, Spec.count.
    rewrite Hv. reflexivity. }
  assert (Hdown :
    comprehension
      (fun n => v ← getitem d n;
                Ok (inject_Z v * ((9 - inject_Z (n - 1)) / 9))%Q)
      (range 1 11)
    = Ok ((fun n => inject_Z (Spec.count d n) * ((9 - inject_Z (n - 1)) / 9))%Q
            <$> range 1 11)).
  { apply comprehension_ok. intros n Hn. apply elem_of_range_1_11 in Hn.
    destruct (Hall n Hn) as [v Hv]. unfold getitem, Spec.count.
    rewrite Hv. reflexivity. }
  rewrite Hup, result_bind_Ok. cbv beta.
  rewrite Hdown, result_bind_Ok. reflexivity.
Qed.

Lemma bayesian_average_no_ratings (d : gmap Z Z) (fallback : option Q) (a0 : Q) :
  (forall k v, d !! k = Some v -> v = 0) ->
  _get_bayesian_average beta_ppf d fallback a0 = Ok fallback.
Proof.
  intros Hzero. unfold _get_bayesian_average.
  assert (existsb (fun v => negb (v =? 0)) ((map_to_list d).*2) = false) as ->.
  { apply not_true_iff_false. rewrite existsb_exists. intros (v & Hin & Hv).
    apply list_elem_of_In, list_elem_of_fmap in Hin as ([k v'] & -> & Hin).
    apply elem_of_map_to_list in Hin. apply Hzero in Hin. simpl in *. by subst. }
  by rewrite orb_true_r.
Qed.

Lemma up_down_total (d : gmap Z Z) :
  (Spec.up d + Spec.down d == inject_Z (Spec.total d))%Q.
Proof.
  unfold Spec.up, Spec.down, Spec.total. rewrite range_1_11.
  cbn [fmap list_fmap fsum Py.sum fold_right].
  rewrite !inject_Z_plus. change (inject_Z 0) with 0%Q.
  repeat match goal with
         | |- context [inject_Z (?a - 1)] =>
             let v := eval compute in (a - 1) in
             change (inject_Z (a - 1)) with (v # 1)%Q
         end.
  repeat match goal with
         | |- context [inject_Z (Spec.count d ?k)] =>
             generalize (inject_Z (Spec.count d k)); intro
         end.
  field.
Qed.


Lemma histogram_of_keys (r : gmap Z Z) :
  (forall n, is_Some (r !! n) <-> 1 <= n <= 10) -> Spec.histogram r.
Proof. intros H n Hn. by apply H. Qed.

(** X26.  On the histogram of a film page [rating_bayesian] never
    fails on a missing score: without any rating it is the middle of the
    rating scale, 2.75; otherwise it is the rescaled 5th-percentile
    point of the Beta distribution whose two parameters are 9 more than
    [up] and [down], and these add up to the number of ratings. *)
Theorem rating_bayesian_on_page (r : gmap Z Z) :
  ratings rating_link_count = Ok r ->
  ((forall n, Spec.count r n = 0) ->
   rating_bayesian beta_ppf rating_link_count = Ok (Some RATING_MIDDLE))
  /\ ((exists n, Spec.count r n <> 0) ->
      rating_bayesian beta_ppf rating_link_count
      = Ok (Some (beta_ppf (5 # 100) (Spec.up r + 9) (Spec.down r + 9)
                  * (45 # 10) + (1 # 2))%Q))
  /\ (RATING_MIDDLE == 11 # 4)%Q
  /\ (Spec.up r + Spec.down r == inject_Z (ratings_number_of r))%Q.
Proof.
  intros Hr. pose proof (ratings_keys r Hr) as Hkeys.
  unfold rating_bayesian. rewrite Hr, result_bind_Ok.
  split; [|split; [|split]].
  - intros Hzero. apply bayesian_average_no_ratings. intros k v Hv.
    specialize (Hzero k). unfold Spec.count in Hzero. by rewrite Hv in Hzero.
  - intros (n & Hn). apply bayesian_average_complete.
    + unfold Spec.count in Hn. destruct (r !! n) as [v|] eqn:Hv; [|done].
      by exists n, v.
    + intros n' Hn'. by apply Hkeys.
  - by vm_compute.
  - rewrite (ratings_number_of_total r (histogram_of_keys r Hkeys)).
    apply up_down_total.
Qed.

(** X27.  The true average of a histogram of non-negative counts lies
    on the rating scale: between 0.5 and 5. *)
Theorem rating_true_on_scale (h : gmap Z Z) (m : Q) :
  Spec.histogram h ->
  (forall k v, h !! k = Some v -> 0 <= v) ->
  rating_true h = Some m ->
  (1 # 2 <= m)%Q /\ (m <= 5)%Q.
Proof.
  intros Hh Hpos. unfold rating_true, _ratings_total_score.
  rewrite (ratings_number_of_total h Hh), (items_score_weighted_total h Hh).
  destruct (Spec.total h =? 0) eqn:Et; [done|]. intros [= <-].
  apply Z.eqb_neq in Et.
  assert (forall n, 0 <= Spec.count h n) as Hc.
  { intros n. unfold Spec.count. destruct (h !! n) as [v|] eqn:Hv; [|done].
    by apply (Hpos n). }
  assert (Spec.total h <= Spec.weighted_total h <= 10 * Spec.total h) as Hw.
  { unfold Spec.total, Spec.weighted_total in *. rewrite range_1_11 in *.
    cbn [fmap list_fmap Py.sum fold_right] in *.
    pose proof (Hc 1). pose proof (Hc 2). pose proof (Hc 3). pose proof (Hc 4).
    pose proof (Hc 5). pose proof (Hc 6). pose proof (Hc 7). pose proof (Hc 8).
    pose proof (Hc 9). pose proof (Hc 10). lia. }
  assert (0 < Spec.total h) as Ht.
  { unfold Spec.total in *. rewrite range_1_11 in *.
    cbn [fmap list_fmap Py.sum fold_right] in *.
    pose proof (Hc 1). pose proof (Hc 2). pose proof (Hc 3). pose proof (Hc 4).
    pose proof (Hc 5). pose proof (Hc 6). pose proof (Hc 7). pose proof (Hc 8).
    pose proof (Hc 9). pose proof (Hc 10). lia. }
  generalize dependent (Spec.weighted_total h).
  generalize dependent (Spec.total h). clear. intros t _ Ht w Hw.
  unfold Qle, Qdiv, Qmult, Qinv, inject_Z. simpl.
  destruct t as [|t|t]; try lia. simpl. nia.
Qed.


Lemma star_rating_to_num_valid (s : str) (y : Q) :
  star_rating_to_num s = Ok y -> exists k, 1 <= k <= 10 /\ (y == k # 2)%Q.
Proof.
  unfold star_rating_to_num.
  destruct (str_eqb s RATING_HALF_ONLY).
  { intros [= <-]. exists 1. split; [lia|reflexivity]. }
  destruct (bool_decide _); [|done]. cbn [negb].
  destruct (float_in_range _ 1 11) eqn:E; [|done]. cbn [negb].
  intros [= <-]. apply float_in_range_spec in E as (k & Hk & E).
  exists k. split; [lia|].
  revert E. generalize (inject_Z (str_count (strip s) RATING_STAR)
                        + (1 # 2) * inject_Z (str_count (strip s) RATING_HALF))%Q.
  intros [a b]. unfold Qeq. simpl. lia.
Qed.

Lemma count_float_cons (y : Q) (ys : list Q) (x : Q) :
  count_float (y :: ys) x
  = (if Qeq_bool y x then 1 else 0) + count_float ys x.
Proof.
  unfold count_float. rewrite filter_cons.
  destruct (Qeq_bool y x).
  - rewrite decide_True by done. cbn [length]. lia.
  - rewrite decide_False by done. lia.
Qed.

Lemma Qeq_bool_half (y : Q) (k0 k : Z) :
  (y == k0 # 2)%Q -> Qeq_bool y (k # 2) = (k0 =? k).
Proof.
  intros Hy. destruct (Z.eqb_spec k0 k) as [->|Hne].
  - by apply Qeq_bool_iff.
  - apply not_true_iff_false. rewrite Qeq_bool_iff. intros Hk.
    rewrite Hy in Hk. unfold Qeq in Hk. simpl in Hk. lia.
Qed.

Lemma count_float_total (ys : list Q) :
  Forall (fun y => exists k, 1 <= k <= 10 /\ (y == k # 2)%Q) ys ->
  Py.sum ((fun i => count_float ys (i # 2)) <$> range 1 11)
  = Z.of_nat (length ys).
Proof.
  rewrite range_1_11. cbn [fmap list_fmap Py.sum fold_right].
  induction 1 as [|y ys (k & Hk & Hy) _ IH]; [done|].
  rewrite !count_float_cons, !(Qeq_bool_half y k _ Hy).
  cbn [length]. rewrite Nat2Z.inj_succ, <- IH.
  assert (k = 1 \/ k = 2 \/ k = 3 \/ k = 4 \/ k = 5 \/ k = 6 \/ k = 7
          \/ k = 8 \/ k = 9 \/ k = 10) as Hcases by lia.
  destruct Hcases as [->|[->|[->|[->|[->|[->|[->|[->|[->| ->]]]]]]]]];
    cbn [Z.eqb Pos.eqb]; lia.
Qed.

Lemma count_float_nonneg (ys : list Q) (x : Q) : 0 <= count_float ys x.
Proof. unfold count_float. lia. Qed.

Lemma lookup_list_to_map_fun (f : Z -> Z) (l : list Z) (n : Z) :
  (list_to_map ((fun i => (i, f i)) <$> l) : gmap Z Z) !! n
  = if decide (n ∈ l) then Some (f n) else None.
Proof.
  induction l as [|i l IH]; [done|].
  rewrite fmap_cons, list_to_map_cons. cbn [fst snd].
  destruct (decide (n = i)) as [->|Hne].
  - rewrite lookup_insert_eq. by rewrite decide_True by left.
  - rewrite lookup_insert_ne by done. rewrite IH.
    destruct (decide (n ∈ l)) as [Hin|Hnin].
    + by rewrite decide_True by (by right).
    + rewrite decide_False; [done|]. by intros [?|?]%elem_of_cons.
Qed.

Lemma friends_comprehension_spec (results : list str) :
  match friends_comprehension results with
  | Ok ys => length ys = length results
             /\ Forall (fun y => exists k, 1 <= k <= 10 /\ (y == k # 2)%Q) ys
  | Raise e => exists s, s ∈ results /\ star_rating_to_num s = Raise e
  end.
Proof.
  induction results as [|s results IH]; [done|].
  cbn [friends_comprehension].
  destruct (star_rating_to_num s) as [y|e] eqn:Ey.
  - rewrite result_bind_Ok.
    destruct (friends_comprehension results) as [ys|e].
    + rewrite result_bind_Ok. destruct IH as [IH1 IH2]. split.
      * simpl. by rewrite IH1.
      * constructor; [|done]. by apply (star_rating_to_num_valid s).
    + destruct IH as (s' & Hs' & He). exists s'. split; [by right|done].
  - exists s. split; [by left|done].
Qed.

(** X28.  [ratings_friends] returns a histogram with exactly the scores
    1 to 10 as keys and counts that are not negative and add up to the
    number of friends' ratings on the page; it raises only the error
    [star_rating_to_num] raises on one of the rating texts. *)
Theorem ratings_friends_histogram (results : list str) :
  (forall r, ratings_friends results = Ok r ->
     (forall n, is_Some (r !! n) <-> 1 <= n <= 10)
     /\ (forall n v, r !! n = Some v -> 0 <= v)
     /\ ratings_number_of r = Z.of_nat (length results))
  /\ (forall e, ratings_friends results = Raise e ->
      exists s, s ∈ results /\ star_rating_to_num s = Raise e)
  /\ ((forall s, s ∈ results -> exists y, star_rating_to_num s = Ok y) ->
      exists r, ratings_friends results = Ok r).
Proof.
  pose proof (friends_comprehension_spec results) as H.
  unfold ratings_friends.
  destruct (friends_comprehension results) as [ys|e].
  - rewrite result_bind_Ok. destruct H as [Hlen Hys].
    remember (list_to_map ((fun i => (i, count_float ys (i # 2))) <$> range 1 11)
              : gmap Z Z) as m eqn:Em.
    assert (forall n, m !! n = if decide (n ∈ range 1 11)
                               then Some (count_float ys (n # 2)) else None)
      as Hm.
    { intros n. subst m.
      apply (lookup_list_to_map_fun (fun i => count_float ys (i # 2))). }
    clear Em. split; [|split; [done|eauto]].
    intros ? [= <-].
    assert (forall n, is_Some (m !! n) <-> 1 <= n <= 10) as Hkeys.
    { intros n. rewrite Hm, <- elem_of_range_1_11.
      destruct (decide (n ∈ range 1 11)); split; try done. }
    split; [exact Hkeys|]. split.
    + intros n v. rewrite Hm.
      destruct (decide _); [|done]. intros [= <-]. apply count_float_nonneg.
    + rewrite (ratings_number_of_total _ (histogram_of_keys _ Hkeys)).
      rewrite <- Hlen, <- (count_float_total ys Hys).
      unfold Spec.total. f_equal. apply list_fmap_ext. intros i n Hn.
      apply list_elem_of_lookup_2 in Hn. unfold Spec.count.
      by rewrite Hm, decide_True.
  - split; [done|]. split.
    + intros ? [= <-]. exact H.
    + intros Hall. destruct H as (s & Hs & He).
      destruct (Hall s Hs) as [y Hy]. congruence.
Qed.

End MoreFilm.

Section MoreTags.

Import Tags.

Variable request_page : Z -> result Page.

Lemma get_soups_served (pg : Z -> Page) (pages : list Z) :
  forall log,
    (forall k, k ∈ pages -> request_page k = Ok (pg k)) ->
    get_soups request_page pages log = (Ok (pg <$> pages), log ++ pages).
Proof.
  induction pages as [|i pages IH]; intros log Hserved.
  - by rewrite app_nil_r.
  - cbn [get_soups]. rewrite (Hserved i) by left.
    rewrite (IH (log ++ [i])) by (intros k Hk; apply Hserved; by right).
    by rewrite <- app_assoc.
Qed.

Lemma all_li_tags_elem (soups : list Page) :
  forall lis, all_li_tags soups = Ok lis ->
    forall li, li ∈ lis
      <-> exists soup l, soup ∈ soups /\ li_tags soup = Some l /\ li ∈ l.
Proof.
  induction soups as [|soup soups IH]; intros lis.
  - intros [= <-] li. split.
    + by intros ?%elem_of_nil.
    + by intros (? & ? & ?%elem_of_nil & _).
  - cbn [all_li_tags]. destruct (li_tags soup) as [l|] eqn:El; [|done].
    destruct (all_li_tags soups) as [rest|e]; [|done].
    rewrite result_bind_Ok. intros [= <-] li.
    rewrite elem_of_app, (IH rest eq_refl li). split.
    + intros [Hl|(soup' & l' & Hs & Hl' & Hli)].
      * exists soup, l. split; [by left|done].
      * exists soup', l'. split; [by right|done].
    + intros (soup' & l' & Hs & Hl' & Hli).
      apply elem_of_cons in Hs as [->|Hs].
      * left. congruence.
      * right. by exists soup', l'.
Qed.

Lemma results_dict_keys (lis : list Li) :
  forall d0 d, results_dict lis d0 = Ok d ->
    forall name, is_Some (d !! name)
      <-> is_Some (d0 !! name) \/ exists li, li ∈ lis /\ get_tag_name li = name.
Proof.
  induction lis as [|li lis IH]; intros d0 d.
  - intros [= <-] name. split; [by left|].
    by intros [?|(? & ?%elem_of_nil & _)].
  - cbn [results_dict]. destruct (get_tag_times_used li) as [n|e]; [|done].
    rewrite result_bind_Ok. intros Hd name.
    rewrite (IH _ _ Hd name). split.
    + intros [Hin|(li' & Hli' & Hname)].
      * destruct (decide (get_tag_name li = name)) as [Heq|Hne].
        -- right. exists li. split; [by left|done].
        -- left. by rewrite lookup_insert_ne in Hin.
      * right. exists li'. split; [by right|done].
    + intros [Hin|(li' & Hli' & Hname)].
      * destruct (decide (get_tag_name li = name)) as [Heq|Hne].
        -- left. rewrite Heq, lookup_insert_eq. by eexists.
        -- left. by rewrite lookup_insert_ne.
      * apply elem_of_cons in Hli' as [->|Hli'].
        -- left. rewrite Hname, lookup_insert_eq. by eexists.
        -- right. by exists li'.
Qed.

(** X30.  [get_tags] stops one page short: on a listing that announces
    [last] pages, [last] being 2 or more, it requests the pages
    1, ..., [last - 1] and never the page [last], and the tags of the
    dict it returns are those with a titled link on the pages
    1, ..., [last - 1]. *)
Theorem get_tags_stops_before_last_page (pg : Z -> Page) (last : Z)
    (log : list Z) :
  request_page 1 = Ok (pg 1) ->
  no_results_header (pg 1) = false ->
  get_last_page (pg 1) = last ->
  2 <= last ->
  (forall k, 2 <= k < last -> request_page k = Ok (pg k)) ->
  (get_tags request_page log).2 = log ++ range 1 last
  /\ (forall k, k ∈ range 1 last <-> 1 <= k < last)
  /\ forall results,
       (get_tags request_page log).1 = Ok (TagDict results) ->
       forall name,
         is_Some (results !! name)
         <-> exists k l li,
               1 <= k < last
               /\ li_tags (pg k) = Some l /\ li ∈ l
               /\ titled_link li = true /\ get_tag_name li = name.
Proof.
  intros H1 Hno Hlast Htwo Hserved. unfold get_tags.
  rewrite H1, Hno, Hlast.
  rewrite (get_soups_served pg (range 2 last) (log ++ [1]))
    by (intros k Hk; apply Hserved; by apply elem_of_range in Hk).
  cbn [fst snd]. split.
  { rewrite <- app_assoc. f_equal.
    rewrite (range_cons 1 last) by lia. reflexivity. }
  split; [intros k; apply elem_of_range|].
  intros results Hres name.
  destruct (all_li_tags (pg 1 :: (pg <$> range 2 last))) as [lis|e] eqn:Elis;
    [|done].
  rewrite result_bind_Ok in Hres.
  destruct (results_dict _ ∅) as [d|e] eqn:Ed; [|done].
  rewrite result_bind_Ok in Hres. injection Hres as <-.
  rewrite (results_dict_keys _ _ _ Ed name), lookup_empty. split.
  - intros [[? [=]]|(li & Hli & Hname)].
    apply list_elem_of_filter in Hli as [Htitled Hli].
    apply (all_li_tags_elem _ _ Elis) in Hli as (soup & l & Hsoup & Hl & Hin).
    apply elem_of_cons in Hsoup as [->|Hsoup].
    + exists 1, l, li. split; [lia|]. eauto.
    + apply list_elem_of_fmap in Hsoup as (k & -> & Hk).
      apply elem_of_range in Hk. exists k, l, li. split; [lia|]. eauto.
  - intros (k & l & li & Hk & Hl & Hin & Htitled & Hname).
    right. exists li. split; [|done].
    apply list_elem_of_filter. split; [done|].
    apply (all_li_tags_elem _ _ Elis). exists (pg k), l. split; [|done].
    destruct (decide (k = 1)) as [->|Hk1]; [by left|]. right.
    apply list_elem_of_fmap. exists k. split; [done|].
    apply elem_of_range. lia.
Qed.

End MoreTags.

Section MoreFilmAction.

Import Session FilmAction.

Context {Server : Type} (site : Server -> HttpRequest -> Reply * Server * N).

Lemma land_one (r : Z) : Z.land 1 r = 0 \/ Z.land 1 r = 1.
Proof.
  pose proof (Z.land_ones r 1 ltac:(lia)) as H.
  change (Z.ones 1) with 1 in H. change (2 ^ 1) with 2 in H.
  rewrite Z.land_comm, H. pose proof (Z.mod_pos_bound r 2). lia.
Qed.

(** X29.  [action_rate] rejects no integer: the test
    [(True & rating) in range(0, 11)] holds for every [int], so that any
    rating, also one outside 0..10, is posted to the rate address of the
    film, and [ValueError] is never raised. *)
Theorem action_rate_any_integer (path : string) (rating : Z)
    (st : State Server) :
  action_rate site path rating st
  = _action site path "rate" {[ "rating"%string := VInt rating ]} st
  /\ (action_rate site path rating st).1 <> Raise ValueError
  /\ server (world (action_rate site path rating st).2)
     = (site (server (world st))
          {| method := "POST";
             req_url := (URL_MAIN +:+ replace ("film/" +:+ path +:+ "/rate/")
                                        URL_MAIN EmptyString)%string;
             data := encode_params
                       ({[ "rating"%string := VInt rating ]} ∪ csrf_token (self st));
             req_cookies := cookies (self st) |}).1.2.
Proof.
  assert (action_rate site path rating st
          = _action site path "rate" {[ "rating"%string := VInt rating ]} st)
    as Heq.
  { unfold action_rate.
    rewrite (bool_decide_eq_true_2 (Z.land 1 rating ∈ range 0 11)); [done|].
    apply elem_of_range. destruct (land_one rating) as [-> | ->]; lia. }
  split; [exact Heq|]. rewrite Heq. unfold _action, suburl_film_main.
  pose proof (request_server site "POST"
                (("film/" +:+ path +:+ "/") +:+ "rate" +:+ "/")
                {[ "rating"%string := VInt rating ]} st) as Hs.
  pose proof (request_raises site "POST"
                (("film/" +:+ path +:+ "/") +:+ "rate" +:+ "/")
                {[ "rating"%string := VInt rating ]} st ValueError) as Hv.
  rewrite _make_data_merges in Hs.
  assert ((("film/" +:+ path +:+ "/") +:+ "rate" +:+ "/")
          = ("film/" +:+ path +:+ "/rate/"))%string as Hurl.
  { rewrite !append_assoc. reflexivity. }
  rewrite Hurl in Hs, Hv. rewrite Hurl.
  unfold bind, ret.
  destruct (request site "POST" _ _ st) as [[response|e] st']; simpl in *;
    split; try done.
  intros [= ->]. by destruct Hv as [?|[?|[?|?]]].
Qed.

End MoreFilmAction.

(* ===================================================================== *)
(** * The further statements on sample inputs                            *)
(* ===================================================================== *)

Section MoreOnSamples.

Import Session Samples MoreSamples.

Lemma search_page_size (k : Z) :
  1 <= k <= 2 ->
  Z.of_nat (length (Find.results_on_page (search_page k))) = Find.RESULTS_PER_PAGE.
Proof. intros _. reflexivity. Defined.

Lemma get_results_positive_limit_witness :
  Find._get_results Z search 2 (Some 25) []
  = Some (Ok (take 25 (Spec.pages search_page 1 3)), [1; 2])
  /\ Z.of_nat (length (take 25 (Spec.pages search_page 1 3))) = 25.
Proof.
  apply (get_results_positive_limit search search_page 2 25 [] 2
           known_last_page_search search_page_size).
  - lia.
  - apply le_n.
Defined.

Lemma get_results_no_limit_witness :
  Find._get_results Z search 2 None []
  = Some (Ok (Spec.pages search_page 1 3), [1; 2]).
Proof.
  exact (get_results_no_limit search search_page 2 [] 2
           known_last_page_search (le_n 2)).
Defined.

Lemma get_results_first_page_error_witness :
  Find._get_results Z failing_search 0 (Some 20) []
  = Some (Raise HTTPError, [1]).
Proof.
  apply (proj2 (get_results_first_page_error failing_search recording_site)
           HTTPError (Some 20) [] 0%nat).
  - reflexivity.
  - discriminate.
Defined.

Lemma get_results_later_page_raises_witness :
  Find._get_results Z shrunk_search 3 None []
  = Some (Raise PageNotFound, [1; 2; 3]).
Proof.
  apply (get_results_later_page_raises shrunk_search shrunk_page None 3
           PageNotFound [] 3).
  - intros j [H1 H2]. unfold shrunk_search.
    apply Z.leb_le in H1. assert (j <= 2) as H3 by lia.
    apply Z.leb_le in H3. by rewrite H1, H3.
  - reflexivity.
  - lia.
  - simpl. lia.
  - apply le_n.
Defined.

Lemma get_results_negative_limit_witness :
  exists e, (Raise PageNotFound : result (list Z)) = Raise e.
Proof.
  apply (get_results_negative_limit search (search_page 1) (-1) [] 5
           (Raise PageNotFound) [1; 2; 3]).
  - reflexivity.
  - lia.
  - vm_compute. reflexivity.
Defined.

Lemma get_results_one_page_limit_witness :
  Find._get_results Z search 1 (Some 5) []
  = Some (Ok [100; 101; 102; 103; 104], [1]).
Proof.
  apply (get_results_one_page_limit search (search_page 1) 5 [] 1).
  - reflexivity.
  - simpl. lia.
  - unfold Find.RESULTS_PER_PAGE. lia.
  - apply le_n.
Defined.

Lemma get_people_page_raises_witness :
  Member._get_people string forbidden_followers 2 []
  = Some (Raise LetterboxdError, [1; 2]).
Proof.
  apply (get_people_page_raises forbidden_followers followers_page 2
           LetterboxdError [] 2).
  - lia.
  - intros j Hj. assert (j = 1) as -> by lia. split; reflexivity.
  - reflexivity.
  - apply le_n.
Defined.

Lemma classification_outcomes_witness :
  LetterboxdResponseDict.__init__ not_found_response = Raise HTTPError.
Proof.
  apply (proj1 (proj2 (proj2 (proj2 (classification_outcomes not_found_response)
                                      eq_refl)))).
  - intros (k & v & _ & Hk & _). unfold Notions.payload in Hk. simpl in Hk.
    by rewrite lookup_empty in Hk.
  - reflexivity.
Defined.

Lemma logged_in_check_error_body_witness :
  exists st',
    logged_in_check MoreSamples.error_site
      {| self := pickled luna; world := world_with None |} = (Ok false, st')
    /\ cookies (self st') = ∅ ∪ cookies (pickled luna)
    /\ cache (world st') = None.
Proof.
  eapply (logged_in_check_error_body MoreSamples.error_site
           {| self := pickled luna; world := world_with None |}
           luna MoreSamples.error_page ∅ _ 1%N).
  - reflexivity.
  - reflexivity.
  - reflexivity.
Defined.

Lemma logout_never_returns_logged_in_witness :
  exists e st',
    logout recording_site {| self := pickled luna; world := world_with None |}
    = (Raise e, st')
    /\ (forall response st2,
          request recording_site "GET" suburl_logout ∅
            (logged_in_check recording_site
               {| self := pickled luna; world := world_with None |}).2
          = (Ok response, st2) ->
          e = AttributeError /\ st' = st2).
Proof.
  apply (proj2 (logout_never_returns_logged_in recording_site
                  {| self := pickled luna; world := world_with None |})).
  vm_compute. reflexivity.
Defined.

Lemma load_after_request_witness :
  load recording_site luna
    (world (request recording_site "GET" EmptyString ∅
              {| self := pickled luna; world := world_with None |}).2)
  = (Ok (self (logged_in_check recording_site
                 (request recording_site "GET" EmptyString ∅
                    {| self := pickled luna; world := world_with None |}).2).2),
     world (logged_in_check recording_site
              (request recording_site "GET" EmptyString ∅
                 {| self := pickled luna; world := world_with None |}).2).2).
Proof.
  apply (load_after_request recording_site luna "GET" EmptyString ∅
           {| self := pickled luna; world := world_with None |}
           _ _ (page_for "luna")).
  - vm_compute. reflexivity.
  - vm_compute. reflexivity.
Defined.

Lemma load_stale_verified_witness :
  load recording_site luna (world_with (Some (stale_cache luna)))
  = (Ok (self (logged_in_check recording_site
                 {| self := pickled luna;
                    world := world_with (Some (stale_cache luna)) |}).2),
     world (logged_in_check recording_site
              {| self := pickled luna;
                 world := world_with (Some (stale_cache luna)) |}).2).
Proof.
  apply (load_stale_verified recording_site luna
           (world_with (Some (stale_cache luna))) (stale_cache luna)
           (pickled luna)).
  - reflexivity.
  - reflexivity.
  - simpl. lia.
  - vm_compute. reflexivity.
Defined.

Lemma _make_data_known_token_witness :
  _make_data (pickled luna) {[ "rating"%string := VInt 7 ]}
  = <["__csrf"%string := VStr "0ld"]> {[ "rating"%string := VInt 7 ]}.
Proof.
  apply (_make_data_known_token (pickled luna) {[ "rating"%string := VInt 7 ]}
           "0ld").
  - reflexivity.
  - reflexivity.
Defined.

Lemma filter_name_hide_watched : Notions.filter_name "hide-watched".
Proof. split; [done|]. split; reflexivity. Defined.

Lemma filter_name_show_liked : Notions.filter_name "show-liked".
Proof. split; [done|]. split; reflexivity. Defined.

Lemma only_own_cookie_site_jar :
  Notions.only_own_cookie MoreSamples.site_jar cookie_name_filmFilter.
Proof. intros domain path _. by apply lookup_singleton_ne. Defined.

Lemma filmFilter_roundtrip_witness :
  filmFilter (filmFilter_set ["hide-watched"; "show-liked"]%string
                MoreSamples.site_jar)
  = Ok (list_to_set ["hide-watched"; "show-liked"]%string).
Proof.
  apply (proj1 (filmFilter_roundtrip ["hide-watched"; "show-liked"]%string
                  MoreSamples.site_jar
                  (Forall_cons_2 _ _ _ filter_name_hide_watched
                     (Forall_cons_2 _ _ _ filter_name_show_liked
                        (Forall_nil_2 _))))).
  exact only_own_cookie_site_jar.
Defined.

(** The conflict on a jar in which the site has set the cookie. *)
Lemma filmFilter_conflict_sample :
  filmFilter MoreSamples.filtered_jar = Ok {[ "hide-reviewed"%string ]}
  /\ filmFilter (filmFilter_set ["hide-watched"%string] MoreSamples.filtered_jar)
     = Raise CookieConflictError.
Proof. split; vm_compute; reflexivity. Qed.


Lemma key_max_ranked_witness :
  exists ks k,
    Util.key_max {[1 := 5; 10 := 5; 5 := 1]} 2 true = Ok (Util.Keys ks)
    /\ Z.of_nat (length ks) = 2
    /\ Notions.top_ranked {[1 := 5; 10 := 5; 5 := 1]} ks
    /\ NoDup ks
    /\ (forall k', k' ∈ ks -> is_Some (({[1 := 5; 10 := 5; 5 := 1]} : gmap Z Z) !! k'))
    /\ last ks = Some k
    /\ Util.key_max {[1 := 5; 10 := 5; 5 := 1]} 2 false = Ok (Util.Key k).
Proof.
  apply (key_max_ranked {[1 := 5; 10 := 5; 5 := 1]} 2).
  split; [lia|]. vm_compute. discriminate.
Defined.

Lemma key_max_one_multiple_witness :
  Util.key_max {[7 := 3]} 1 true = Raise UnboundLocalError.
Proof.
  apply (proj1 (key_max_one_multiple {[7 := 3]} 1 true)).
  apply map_non_empty_singleton.
Defined.

Lemma thinks_of_compares (target : Z) :
  Notions.compares_with target (MoreSamples.thinks_of target).
Proof. intros mid. reflexivity. Defined.

Lemma guess_number_finds_witness :
  Util.guess_number 100 (MoreSamples.thinks_of 37) 100 1 = Some (Ok (Some 37)).
Proof.
  apply (guess_number_finds (MoreSamples.thinks_of 37) 37 (thinks_of_compares 37)
           100 1 100).
  - lia.
  - lia.
  - simpl. lia.
Defined.

Lemma guess_number_misses_witness :
  Util.guess_number 101 (MoreSamples.thinks_of 0) 100 1 = Some (Ok None).
Proof.
  apply (proj2 (guess_number_misses (MoreSamples.thinks_of 0) 0
                  (thinks_of_compares 0) 100 1 101)).
  - lia.
  - lia.
  - simpl. lia.
Defined.

(** [hello world!] cut at 8 characters. *)
Lemma truncate_string_cut_witness :
  exists p,
    Util.truncate_string
      [104; 101; 108; 108; 111; 32; 119; 111; 114; 108; 100; 33]%N 8
    = Ok (p ++ [46; 46; 46]%N)%list
    /\ p `prefix_of` [104; 101; 108; 108; 111; 32; 119; 111; 114; 108; 100; 33]%N
    /\ Z.of_nat (length p) <= 8
    /\ (((32%N ∉ take (Z.to_nat 8)
                   [104; 101; 108; 108; 111; 32; 119; 111; 114; 108; 100; 33]%N)
         /\ p = take (Z.to_nat 8)
                  [104; 101; 108; 108; 111; 32; 119; 111; 114; 108; 100; 33]%N)
        \/ exists w,
             take (Z.to_nat 8)
               [104; 101; 108; 108; 111; 32; 119; 111; 114; 108; 100; 33]%N
             = (p ++ 32%N :: w)%list
             /\ (32%N ∉ w)).
Proof.
  apply (proj2 (proj2 (truncate_string_cut
                         [104; 101; 108; 108; 111; 32; 119; 111; 114; 108; 100; 33]%N
                         8))).
  simpl. lia.
Defined.

(** A half before a star reads as one and a half. *)
Lemma star_rating_to_num_counts_witness :
  Letterboxd.star_rating_to_num [189; 9733]%N
  = Ok (inject_Z 1 + (1 # 2) * inject_Z 1)%Q.
Proof.
  apply (proj1 (star_rating_to_num_counts [189; 9733]%N
                  (Forall_cons_2 _ _ _ (or_intror eq_refl)
                     (Forall_cons_2 _ _ _ (or_introl eq_refl)
                        (Forall_nil_2 _))))).
  vm_compute. split; discriminate.
Defined.

(** 3.7 is shown with three stars and a half. *)
Lemma num_to_star_rating_rounds_down_witness :
  exists s y,
    Letterboxd.num_to_star_rating (37 # 10) = Ok s
    /\ Letterboxd.star_rating_to_num s = Ok y
    /\ Spec.valid_rating y
    /\ (y <= 37 # 10)%Q /\ (37 # 10 < y + (1 # 2))%Q.
Proof.
  apply (proj1 (num_to_star_rating_rounds_down (37 # 10))).
  split; vm_compute; [discriminate|reflexivity].
Defined.

Lemma rating_grader_bands_witness :
  Letterboxd.rating_grader (fun _ => "2.00"%string) (Some 2%Q)
  = Some "[red]2.00[/red]"%string.
Proof.
  apply (proj1 (proj2 (rating_grader_bands (fun _ => "2.00"%string) 2%Q))
           1%nat 1 2 "red"%string).
  - reflexivity.
  - vm_compute. reflexivity.
  - vm_compute. discriminate.
Defined.

Lemma film_ratings_complete_witness :
  exists r,
    Film.ratings MoreSamples.rating_links = Ok r
    /\ (r !! 6 = Some 0
          /\ MoreSamples.rating_links [9733; 9733; 9733]%N = None
        \/ exists v, r !! 6 = Some v
                     /\ MoreSamples.rating_links [9733; 9733; 9733]%N = Some (Ok v)).
Proof.
  exists MoreSamples.rating_links_histogram.
  assert (Film.ratings MoreSamples.rating_links
          = Ok MoreSamples.rating_links_histogram) as Hr
    by (vm_compute; reflexivity).
  split; [exact Hr|].
  apply (proj2 (proj1 (film_ratings_complete MoreSamples.rating_links)
                  MoreSamples.rating_links_histogram Hr)
           6 [9733; 9733; 9733]%N).
  - lia.
  - vm_compute. reflexivity.
Defined.

Lemma rating_bayesian_on_page_witness :
  Film.rating_bayesian MoreSamples.beta_mean MoreSamples.rating_links
  = Ok (Some (MoreSamples.beta_mean (5 # 100)
                (Spec.up MoreSamples.rating_links_histogram + 9)
                (Spec.down MoreSamples.rating_links_histogram + 9)
              * (45 # 10) + (1 # 2))%Q).
Proof.
  apply (proj1 (proj2 (rating_bayesian_on_page MoreSamples.beta_mean
                         MoreSamples.rating_links
                         MoreSamples.rating_links_histogram
                         ltac:(vm_compute; reflexivity)))).
  exists 1. vm_compute. discriminate.
Defined.

Lemma histogram_sample : Spec.histogram {[1 := 5; 10 := 5; 5 := 1]}.
Proof.
  intros k [v Hk].
  destruct (decide (k = 1)) as [->|]; [lia|].
  destruct (decide (k = 10)) as [->|]; [lia|].
  destruct (decide (k = 5)) as [->|]; [lia|].
  by simplify_map_eq.
Defined.

Lemma rating_true_on_scale_witness :
  (1 # 2 <= inject_Z 60 / inject_Z 11 * (1 # 2))%Q
  /\ (inject_Z 60 / inject_Z 11 * (1 # 2) <= 5)%Q.
Proof.
  apply (rating_true_on_scale {[1 := 5; 10 := 5; 5 := 1]}
           (inject_Z 60 / inject_Z 11 * (1 # 2))%Q histogram_sample).
  - intros k v Hk.
    destruct (decide (k = 1)) as [->|]; [simplify_map_eq; lia|].
    destruct (decide (k = 10)) as [->|]; [simplify_map_eq; lia|].
    destruct (decide (k = 5)) as [->|]; [simplify_map_eq; lia|].
    by simplify_map_eq.
  - vm_compute. reflexivity.
Defined.

(** Two friends' ratings, three stars and the half star. *)
Lemma ratings_friends_histogram_witness :
  exists r,
    Film.ratings_friends [[9733; 9733; 9733]; [189]]%N = Ok r
    /\ Film.ratings_number_of r = 2.
Proof.
  eexists. split; [reflexivity|].
  apply (proj1 (ratings_friends_histogram [[9733; 9733; 9733]; [189]]%N)).
  reflexivity.
Defined.

Lemma get_tags_stops_before_last_page_witness :
  (Tags.get_tags MoreSamples.tags_listing []).2 = [1; 2].
Proof.
  apply (proj1 (get_tags_stops_before_last_page MoreSamples.tags_listing
                  MoreSamples.tags_page 3 [] eq_refl eq_refl eq_refl
                  ltac:(lia) (fun k _ => eq_refl))).
Defined.

(** A listing of one page is read in full. *)
Lemma get_tags_one_page_sample :
  Tags.get_tags (fun _ => Ok MoreSamples.single_tags_page) []
  = (Ok (Tags.TagDict {[ Some "noir"%string := 1 ]}), [1]).
Proof. vm_compute. reflexivity. Qed.

End MoreOnSamples.
